(** * Journey Weaver: ingestion pipeline and navigation state machine

    A shallow embedding of the tour data pipeline (utils/dataTransform.ts,
    utils/urlParams.ts, utils/quizSubmission.ts and the App component) and of
    the navigation handlers of the App component, followed by the properties
    stated for them.

    Conventions of the embedding.
    - A JavaScript value is a term of [value].  A plain object is the list
      of its own properties in the order of [Object.keys], with unique
      keys; [VObjP proto kvs] is an object whose prototype an assignment to
      [__proto__] has replaced by [proto].  Such objects are built by
      [normalizeKeys] only; property reads go through the prototype.
    - Numbers are IEEE 754 binary64 ([PrimFloat.float]), as in JavaScript.
      Array indices and array lengths are integers far below 2^53 and are
      kept as [nat] / [Z].
    - A string is the sequence of bytes of its UTF-8 encoding (a code point
      that is a lone surrogate is encoded like any other code point), so a
      string literal of this file is the JavaScript string it shows.
      Trimming removes the white space and the line terminators of
      ECMAScript, in their encoded form.  Case conversion is ASCII folding
      on a string of ASCII characters, which is what [toLowerCase] and
      [toUpperCase] do there; on every other string it is the runtime's.
    - Code that can throw lives in the [result] monad; a [try]/[catch] is a
      [match] on the result.  Console output is not part of the model.
      [Number(x)], [String(x)] and a template literal throw a TypeError on
      an object whose [toString] is an own property (it is then not
      callable).
    - An array method is found on arrays; called on anything else it is the
      TypeError of a missing method.
    - A closure stored in the state is the data it captured; a pending
      [setTimeout] is an entry of the state's timer list.
    - Functions of the JavaScript runtime that the sources call but do not
      define (JSON.parse, JSON.stringify, Number on strings, number to
      string, parseInt, case conversion outside ASCII, conversion of an
      object with a replaced prototype) are the fields of a [Runtime]
      record. *)

From Stdlib Require Import String Ascii List Bool Arith ZArith Lia.
From Stdlib Require Import PrimFloat Uint63.
Import ListNotations.

Local Open Scope string_scope.
Local Open Scope list_scope.
Local Open Scope nat_scope.

(* ===================================================================== *)
(** ** JavaScript values                                                  *)
(* ===================================================================== *)

Module JS.

Set Warnings "-register-all".

Inductive value : Type :=
| VUndefined
| VNull
| VBool (b : bool)
| VNum (n : float)
| VStr (s : string)
| VDate (t : float)
| VArr (xs : list value)
| VObj (kvs : list (string * value))
| VObjP (proto : value) (kvs : list (string * value)).

(** Errors a [throw] can carry. *)
Inductive exn : Type :=
| TypeError (msg : string)
| SyntaxError (msg : string)
| Error (msg : string).

Definition message (e : exn) : string :=
  match e with TypeError m | SyntaxError m | Error m => m end.

Inductive result (A : Type) : Type :=
| Ok (a : A)
| Throw (e : exn).
Arguments Ok {A} a.
Arguments Throw {A} e.

Definition bind {A B} (c : result A) (k : A -> result B) : result B :=
  match c with Ok a => k a | Throw e => Throw e end.

Declare Scope js_scope.
Delimit Scope js_scope with js.
Notation "x <- c ;; k" := (bind c (fun x => k))
  (at level 61, c at next level, right associativity) : js_scope.
Local Open Scope js_scope.

(** *** Strings *)

Definition is_upper (c : ascii) : bool :=
  let n := nat_of_ascii c in (65 <=? n) && (n <=? 90).
Definition is_lower (c : ascii) : bool :=
  let n := nat_of_ascii c in (97 <=? n) && (n <=? 122).

Definition lower_ascii (c : ascii) : ascii :=
  if is_upper c then ascii_of_nat (nat_of_ascii c + 32) else c.
Definition upper_ascii (c : ascii) : ascii :=
  if is_lower c then ascii_of_nat (nat_of_ascii c - 32) else c.

(** A byte that encodes an ASCII character. *)
Definition is_ascii (c : ascii) : bool := nat_of_ascii c <? 128.

(** A string of ASCII characters. *)
Fixpoint ascii_only (s : string) : bool :=
  match s with
  | EmptyString => true
  | String c r => is_ascii c && ascii_only r
  end.

(** Case folding of the ASCII letters. *)
Fixpoint lower_ascii_string (s : string) : string :=
  match s with
  | EmptyString => EmptyString
  | String c r => String (lower_ascii c) (lower_ascii_string r)
  end.

Fixpoint upper_ascii_string (s : string) : string :=
  match s with
  | EmptyString => EmptyString
  | String c r => String (upper_ascii c) (upper_ascii_string r)
  end.

(** White space and line terminators of ECMAScript, by the length of their
    encoding.  One byte: TAB, LF, VT, FF, CR and SPACE. *)
Definition ws1 (a : ascii) : bool :=
  let n := nat_of_ascii a in ((9 <=? n) && (n <=? 13)) || (n =? 32).

(** Two bytes: U+00A0. *)
Definition ws2 (a b : ascii) : bool :=
  (nat_of_ascii a =? 194) && (nat_of_ascii b =? 160).

(** Three bytes: U+1680, U+2000 to U+200A, U+2028, U+2029, U+202F, U+205F,
    U+3000 and U+FEFF. *)
Definition ws3 (a b c : ascii) : bool :=
  let x := nat_of_ascii a in
  let y := nat_of_ascii b in
  let z := nat_of_ascii c in
  ((x =? 225) && (y =? 154) && (z =? 128))
  || ((x =? 226) && (y =? 128)
      && (((128 <=? z) && (z <=? 138)) || (z =? 168) || (z =? 169)
          || (z =? 175)))
  || ((x =? 226) && (y =? 129) && (z =? 159))
  || ((x =? 227) && (y =? 128) && (z =? 128))
  || ((x =? 239) && (y =? 187) && (z =? 191)).

(** The string is one white space character. *)
Definition is_ws (s : string) : bool :=
  match s with
  | String a EmptyString => ws1 a
  | String a (String b EmptyString) => ws2 a b
  | String a (String b (String c EmptyString)) => ws3 a b c
  | _ => false
  end.

Fixpoint trimStart (s : string) : string :=
  match s with
  | EmptyString => EmptyString
  | String a r =>
      if ws1 a then trimStart r
      else
        match r with
        | EmptyString => s
        | String b r1 =>
            if ws2 a b then trimStart r1
            else
              match r1 with
              | EmptyString => s
              | String c r2 => if ws3 a b c then trimStart r2 else s
              end
        end
  end.

(** From the end: a byte is dropped together with what is left of the rest
    when the two make up one white space character. *)
Fixpoint trimEnd (s : string) : string :=
  match s with
  | EmptyString => EmptyString
  | String a r =>
      let kept := String a (trimEnd r) in
      if is_ws kept then EmptyString else kept
  end.

Definition trim (s : string) : string := trimEnd (trimStart s).

Definition is_empty_string (s : string) : bool :=
  match s with EmptyString => true | _ => false end.

(** [s.trim()] is the empty string. *)
Definition blank (s : string) : bool := is_empty_string (trim s).

Definition startsWith (c : ascii) (s : string) : bool :=
  match s with String c' _ => Ascii.eqb c c' | EmptyString => false end.

Fixpoint endsWith (c : ascii) (s : string) : bool :=
  match s with
  | EmptyString => false
  | String c' EmptyString => Ascii.eqb c c'
  | String _ r => endsWith c r
  end.

(** A byte that continues the encoding of a character. *)
Definition is_continuation (c : ascii) : bool :=
  let n := nat_of_ascii c in (128 <=? n) && (n <=? 191).

(** The number of UTF-16 code units a byte stands for: one for the first
    byte of a character of one, two or three bytes, two for the first byte
    of a character of four bytes, none for a continuation byte. *)
Definition code_units (c : ascii) : nat :=
  if is_continuation c then 0
  else if 240 <=? nat_of_ascii c then 2 else 1.

(** [s.length] *)
Fixpoint utf16_length (s : string) : nat :=
  match s with
  | EmptyString => 0
  | String c r => code_units c + utf16_length r
  end.

(** The characters of a string, each with its continuation bytes. *)
Fixpoint characters (s : string) : list string :=
  match s with
  | EmptyString => []
  | String c r =>
      match characters r with
      | [] => [String c EmptyString]
      | String c' g :: gs =>
          if is_continuation c' then String c (String c' g) :: gs
          else String c EmptyString :: String c' g :: gs
      | EmptyString :: gs => String c EmptyString :: gs
      end
  end.

(** *** Numbers *)

Definition num_of_nat (n : nat) : float :=
  PrimFloat.of_uint63 (Uint63.of_Z (Z.of_nat n)).

Definition isFinite (x : float) : bool :=
  negb (PrimFloat.is_nan x || PrimFloat.is_infinity x).

(** *** Objects: own enumerable string-keyed properties *)

Fixpoint lookup (k : string) (kvs : list (string * value)) : value :=
  match kvs with
  | [] => VUndefined
  | (k', v) :: rest => if String.eqb k k' then v else lookup k rest
  end.

Fixpoint has_key (k : string) (kvs : list (string * value)) : bool :=
  match kvs with
  | [] => false
  | (k', _) :: rest => String.eqb k k' || has_key k rest
  end.

(** Storing a property: overwrite in place when the key exists, append
    otherwise. *)
Fixpoint obj_set (kvs : list (string * value)) (k : string) (v : value)
  : list (string * value) :=
  match kvs with
  | [] => [(k, v)]
  | (k', v') :: rest =>
      if String.eqb k k' then (k', v) :: rest else (k', v') :: obj_set rest k v
  end.

Definition keys (kvs : list (string * value)) : list string := map fst kvs.

(** The own properties of an object. *)
Definition own (o : value) : list (string * value) :=
  match o with
  | VObj kvs | VObjP _ kvs => kvs
  | _ => []
  end.

(** *** Type tests, truthiness, equality *)

Inductive type_tag := TUndefined | TObject | TBoolean | TNumber | TString.

Definition typeof (v : value) : type_tag :=
  match v with
  | VUndefined => TUndefined
  | VNull | VDate _ | VArr _ | VObj _ | VObjP _ _ => TObject
  | VBool _ => TBoolean
  | VNum _ => TNumber
  | VStr _ => TString
  end.

Definition is_string (v : value) : bool :=
  match v with VStr _ => true | _ => false end.
Definition is_number (v : value) : bool :=
  match v with VNum _ => true | _ => false end.
Definition is_boolean (v : value) : bool :=
  match v with VBool _ => true | _ => false end.
Definition is_undefined (v : value) : bool :=
  match v with VUndefined => true | _ => false end.
Definition is_null (v : value) : bool :=
  match v with VNull => true | _ => false end.
(** [typeof v === 'object'] *)
Definition is_object (v : value) : bool :=
  match v with
  | VNull | VDate _ | VArr _ | VObj _ | VObjP _ _ => true
  | _ => false
  end.
(** [Array.isArray(v)] *)
Definition isArray (v : value) : bool :=
  match v with VArr _ => true | _ => false end.

(** [v instanceof Date]: [Date.prototype] is on the prototype chain. *)
Fixpoint instanceOfDate (v : value) : bool :=
  match v with
  | VDate _ => true
  | VObjP proto _ => instanceOfDate proto
  | _ => false
  end.

Definition truthy (v : value) : bool :=
  match v with
  | VUndefined | VNull => false
  | VBool b => b
  | VNum n => negb (PrimFloat.eqb n PrimFloat.zero || PrimFloat.is_nan n)
  | VStr s => negb (is_empty_string s)
  | VDate _ | VArr _ | VObj _ | VObjP _ _ => true
  end.

(** [a || b] *)
Definition or_else (a b : value) : value := if truthy a then a else b.
Infix "|||" := or_else (at level 50, left associativity) : js_scope.

(** [!!v] *)
Definition to_bool (v : value) : value := VBool (truthy v).

(** [a === b].  Two objects are equal only when they are the same reference;
    the values compared in the sources sit at distinct places of a parsed
    tree or are fresh literals, so objects never compare equal. *)
Definition strict_eq (a b : value) : bool :=
  match a, b with
  | VUndefined, VUndefined => true
  | VNull, VNull => true
  | VBool x, VBool y => Bool.eqb x y
  | VNum x, VNum y => PrimFloat.eqb x y
  | VStr x, VStr y => String.eqb x y
  | _, _ => false
  end.

(** Property read on a value that is neither [null] nor [undefined], for
    the property names the sources read: names that no built-in prototype
    defines, and [length].  A property that is not an own property is read
    from the prototype; the built-in prototypes have none of these names,
    and a [null] prototype ends the chain. *)
Fixpoint prop (v : value) (k : string) : value :=
  match v with
  | VObj kvs => lookup k kvs
  | VObjP proto kvs => if has_key k kvs then lookup k kvs else prop proto k
  | VArr xs => if String.eqb k "length" then VNum (num_of_nat (List.length xs))
               else VUndefined
  | VStr s => if String.eqb k "length" then VNum (num_of_nat (utf16_length s))
              else VUndefined
  | _ => VUndefined
  end.

(** Property read [v.k]: a TypeError on [null] and [undefined]. *)
Definition get (v : value) (k : string) : result value :=
  match v with
  | VUndefined | VNull => Throw (TypeError "cannot read properties of null or undefined")
  | _ => Ok (prop v k)
  end.

(** ['k' in v]: the property is an own property or one of the prototype
    chain; a TypeError when [v] is not an object. *)
Fixpoint has_property (v : value) (k : string) : bool :=
  match v with
  | VObj kvs => has_key k kvs
  | VObjP proto kvs => has_key k kvs || has_property proto k
  | VArr _ => String.eqb k "length"
  | _ => false
  end.

Definition key_in (k : string) (v : value) : result bool :=
  if is_object v && negb (is_null v) then Ok (has_property v k)
  else Throw (TypeError "cannot use 'in' operator on a value that is not an object").

(** The lookup of [__proto__] on an object reaches the accessor of
    [Object.prototype]: no object of the chain has an own property of that
    name, and the chain does not end in a [null] prototype. *)
Fixpoint inherits_proto_accessor (o : value) : bool :=
  match o with
  | VObj kvs => negb (has_key "__proto__" kvs)
  | VObjP proto kvs =>
      negb (has_key "__proto__" kvs) && inherits_proto_accessor proto
  | VNull => false
  | _ => true
  end.

(** An own property is created or overwritten. *)
Definition set_own (acc : value) (k : string) (v : value) : value :=
  match acc with
  | VObj kvs => VObj (obj_set kvs k v)
  | VObjP proto kvs => VObjP proto (obj_set kvs k v)
  | _ => acc
  end.

(** The assignment [acc[k] = v] on an object [acc].  For every key but
    "__proto__" it stores an own property.  For the key "__proto__" it
    reaches the accessor of [Object.prototype], which replaces the
    prototype of [acc] when [v] is an object or [null] and does nothing
    otherwise; only when the accessor is out of reach does the assignment
    store an own property. *)
Definition assign (acc : value) (k : string) (v : value) : value :=
  if String.eqb k "__proto__" && inherits_proto_accessor acc then
    if is_object v then VObjP v (own acc) else acc
  else set_own acc k v.

(** *** The runtime *)

Record Runtime : Type := {
  (** [Number(s)] on a string *)
  StringToNumber : string -> float;
  (** [String(n)] on a number *)
  NumberToString : float -> string;
  (** [String(d)] on a Date with time value [d] *)
  DateToString : float -> string;
  (** [JSON.parse], which throws a SyntaxError on malformed text *)
  JSON_parse : string -> result value;
  (** [JSON.stringify] *)
  JSON_stringify : value -> string;
  (** [parseInt] *)
  parseInt : string -> float;
  (** [s.toLowerCase()] on a string with a character outside ASCII *)
  toLowerCaseUnicode : string -> string;
  (** [s.toUpperCase()] on a string with a character outside ASCII *)
  toUpperCaseUnicode : string -> string;
  (** [String(o)] on an object whose prototype was replaced: what it
      inherits decides *)
  ExoticToString : value -> result string;
  (** [Number(o)] on such an object *)
  ExoticToNumber : value -> result float
}.

Section WithRuntime.
Variable rt : Runtime.

(** [s.toLowerCase()] *)
Definition toLowerCase (s : string) : string :=
  if ascii_only s then lower_ascii_string s else toLowerCaseUnicode rt s.

(** [s.toUpperCase()] *)
Definition toUpperCase (s : string) : string :=
  if ascii_only s then upper_ascii_string s else toUpperCaseUnicode rt s.

(** [key.charAt(0).toLowerCase() + key.slice(1)].  The first code unit is
    the first character when that has one, two or three bytes; it is half
    of the first character when that has four, and lower-casing such a half
    leaves it alone. *)
Definition lowerFirst (key : string) : string :=
  match key with
  | EmptyString => EmptyString
  | String a r =>
      if is_ascii a then String (lower_ascii a) r
      else if nat_of_ascii a <? 192 then key
      else if nat_of_ascii a <? 224 then
        match r with
        | String b r1 =>
            (toLowerCase (String a (String b EmptyString)) ++ r1)%string
        | EmptyString => key
        end
      else if nat_of_ascii a <? 240 then
        match r with
        | String b (String c r2) =>
            (toLowerCase (String a (String b (String c EmptyString)))
             ++ r2)%string
        | _ => key
        end
      else key
  end.

Fixpoint join (sep : string) (parts : list string) : string :=
  match parts with
  | [] => ""
  | [p] => p
  | p :: rest => (p ++ sep ++ join sep rest)%string
  end.

(** [String(v)], which is also what a template literal does.  Inside an
    array [null] and [undefined] print as empty.  A plain object prints
    with [Object.prototype.toString] unless it has an own property
    [toString]: the values of the model are not callable, so the conversion
    finds no method and throws. *)
Fixpoint ToString (v : value) : result string :=
  match v with
  | VUndefined => Ok "undefined"
  | VNull => Ok "null"
  | VBool true => Ok "true"
  | VBool false => Ok "false"
  | VNum n => Ok (NumberToString rt n)
  | VStr s => Ok s
  | VDate t => Ok (DateToString rt t)
  | VArr xs =>
      parts <-
        (fix each (l : list value) : result (list string) :=
           match l with
           | [] => Ok []
           | x :: r =>
               p <- match x with
                    | VUndefined | VNull => Ok ""
                    | _ => ToString x
                    end ;;
               ps <- each r ;;
               Ok (p :: ps)
           end) xs ;;
      Ok (join "," parts)
  | VObj kvs =>
      if has_key "toString" kvs
      then Throw (TypeError "Cannot convert object to primitive value")
      else Ok "[object Object]"
  | VObjP _ _ => ExoticToString rt v
  end.

(** [Number(v)] *)
Definition ToNumber (v : value) : result float :=
  match v with
  | VUndefined => Ok PrimFloat.nan
  | VNull => Ok PrimFloat.zero
  | VBool true => Ok PrimFloat.one
  | VBool false => Ok PrimFloat.zero
  | VNum n => Ok n
  | VStr s => Ok (StringToNumber rt s)
  | VDate t => Ok t
  | VArr _ | VObj _ => s <- ToString v ;; Ok (StringToNumber rt s)
  | VObjP _ _ => ExoticToNumber rt v
  end.

(** [v.length > 0], for a [v] that is neither [null] nor [undefined]. *)
Definition length_gt0 (v : value) : result bool :=
  match v with
  | VArr xs => Ok (match xs with [] => false | _ => true end)
  | VStr s => Ok (negb (is_empty_string s))
  | _ =>
      n <- ToNumber (prop v "length") ;;
      Ok (PrimFloat.ltb PrimFloat.zero n)
  end.

End WithRuntime.

(** Induction on values that reaches the elements of arrays, the property
    values of objects and the replaced prototype. *)
Section ValueInduction.
Variable P : value -> Prop.
Hypothesis Hundefined : P VUndefined.
Hypothesis Hnull : P VNull.
Hypothesis Hbool : forall b, P (VBool b).
Hypothesis Hnum : forall n, P (VNum n).
Hypothesis Hstr : forall s, P (VStr s).
Hypothesis Hdate : forall t, P (VDate t).
Hypothesis Harr : forall xs, Forall P xs -> P (VArr xs).
Hypothesis Hobj : forall kvs, Forall (fun kv => P (snd kv)) kvs -> P (VObj kvs).
Hypothesis Hobjp :
  forall proto kvs,
    P proto -> Forall (fun kv => P (snd kv)) kvs -> P (VObjP proto kvs).

Fixpoint value_nested_ind (v : value) : P v :=
  match v with
  | VUndefined => Hundefined
  | VNull => Hnull
  | VBool b => Hbool b
  | VNum n => Hnum n
  | VStr s => Hstr s
  | VDate t => Hdate t
  | VArr xs =>
      Harr xs
        ((fix all (l : list value) : Forall P l :=
            match l with
            | [] => Forall_nil P
            | x :: r => Forall_cons x (value_nested_ind x) (all r)
            end) xs)
  | VObj kvs =>
      Hobj kvs
        ((fix all (l : list (string * value))
            : Forall (fun kv => P (snd kv)) l :=
            match l with
            | [] => Forall_nil _
            | (k, x) :: r =>
                Forall_cons (k, x) (value_nested_ind x) (all r)
            end) kvs)
  | VObjP proto kvs =>
      Hobjp proto kvs (value_nested_ind proto)
        ((fix all (l : list (string * value))
            : Forall (fun kv => P (snd kv)) l :=
            match l with
            | [] => Forall_nil _
            | (k, x) :: r =>
                Forall_cons (k, x) (value_nested_ind x) (all r)
            end) kvs)
  end.
End ValueInduction.

End JS.

Import JS.
Local Open Scope js_scope.

(* ===================================================================== *)
(** ** types.ts                                                           *)
(* ===================================================================== *)

(** A [Landmark] object.  TypeScript's field types are erased at run time,
    so every field holds whatever value the coercer stored in it; an absent
    optional field is [VUndefined]. *)
Record Landmark : Type := mkLandmark {
  id : value;
  name : value;
  title : value;
  description : value;
  aliases : value;
  imageUrl : value;
  coords : value;
  iconType : value;
  videoUrl : value;
  audioUrl : value;
  quiz : value;
  block_navigation : value
}.

(** The object literal [{ text, isCorrect }] of a [QuizOption]. *)
Definition mkOption (text : value) (isCorrect : bool) : value :=
  VObj [("text", text); ("isCorrect", VBool isCorrect)].

(** The object literal [{ question, type, options }] of a [QuizQuestion]. *)
Definition mkQuestion (question : value) (type : string) (options : list value)
  : value :=
  VObj [("question", question); ("type", VStr type); ("options", VArr options)].

(* ===================================================================== *)
(** ** Array helpers                                                      *)
(* ===================================================================== *)

(** [xs.map((x, index) => f x index)] for a callback that may throw; the
    first throwing call aborts the whole map. *)
Fixpoint map_from {A : Type} (f : value -> nat -> result A) (index : nat)
  (xs : list value) : result (list A) :=
  match xs with
  | [] => Ok []
  | x :: rest =>
      y <- f x index ;;
      ys <- map_from f (S index) rest ;;
      Ok (y :: ys)
  end.

(** [.filter(x => x !== null)] on the results of a map. *)
Fixpoint filter_not_null {A : Type} (xs : list (option A)) : list A :=
  match xs with
  | [] => []
  | Some x :: rest => x :: filter_not_null rest
  | None :: rest => filter_not_null rest
  end.

(** [v.toLowerCase()]: only strings have the method. *)
Definition call_toLowerCase (rt : Runtime) (v : value) : result string :=
  match v with
  | VStr s => Ok (toLowerCase rt s)
  | VUndefined | VNull =>
      Throw (TypeError "cannot read properties of null or undefined")
  | _ => Throw (TypeError "toLowerCase is not a function")
  end.

(** [v.toUpperCase()] *)
Definition call_toUpperCase (rt : Runtime) (v : value) : result string :=
  match v with
  | VStr s => Ok (toUpperCase rt s)
  | VUndefined | VNull =>
      Throw (TypeError "cannot read properties of null or undefined")
  | _ => Throw (TypeError "toUpperCase is not a function")
  end.

(* ===================================================================== *)
(** ** utils/dataTransform.ts                                             *)
(* ===================================================================== *)

Module DataTransform.
Section WithRuntime.
Variable rt : Runtime.

Definition transformQuestion (question : value) : result (option value) :=
  type <- get question "type" ;;
  if strict_eq type (VStr "true_false") then
    answer <- get question "answer" ;;
    correctAnswer <- call_toLowerCase rt answer ;;
    text <- get question "text" ;;
    Ok (Some (mkQuestion text "true-false"
                [ mkOption (VStr "True") (String.eqb correctAnswer "true");
                  mkOption (VStr "False") (String.eqb correctAnswer "false") ]))
  else
    options <- get question "options" ;;
    if strict_eq type (VStr "multiple_choice") && truthy options then
      text <- get question "text" ;;
      match options with
      | VArr opts =>
          answer <- get question "answer" ;;
          Ok (Some (mkQuestion text "multiple-choice"
                      (map (fun optionText =>
                              mkOption optionText (strict_eq optionText answer))
                           opts)))
      | _ => Throw (TypeError "question.options.map is not a function")
      end
    else Ok None.

Definition placeholder_image : string :=
  "https://via.placeholder.com/800x600?text=No+Image".

(** The callback of [builderData.map] in [transformBuilderDataToLandmarks]. *)
Definition transformLocation (location : value) (index : nat)
  : result Landmark :=
  questions <- get location "questions" ;;
  quiz <-
    (if truthy questions then
       nonEmpty <- length_gt0 rt questions ;;
       if nonEmpty then
         match questions with
         | VArr qs =>
             mapped <- map_from (fun q _ => transformQuestion q) 0 qs ;;
             let transformedQuestions := filter_not_null mapped in
             Ok (match transformedQuestions with
                 | [] => VUndefined
                 | _ => VArr transformedQuestions
                 end)
         | _ => Throw (TypeError "location.questions.map is not a function")
         end
       else Ok VUndefined
     else Ok VUndefined) ;;
  Ok {| id := VNum (num_of_nat (index + 1));
        name := prop location "title";
        title := prop location "title";
        description := prop location "description";
        aliases := VArr [prop location "country"];
        imageUrl := prop location "image" ||| VStr placeholder_image;
        coords := prop location "coordinates";
        iconType := VStr "monument";
        videoUrl := prop location "video";
        audioUrl := prop location "audio";
        quiz := quiz;
        block_navigation := prop location "block_navigation" |}.

Definition transformBuilderDataToLandmarks (builderData : list value)
  : result (list Landmark) :=
  map_from transformLocation 0 builderData.

End WithRuntime.
End DataTransform.

(* ===================================================================== *)
(** ** Quiz parsers of the App component                                  *)
(* ===================================================================== *)

Module Quiz.

Definition validOption (o : value) : bool :=
  is_object o && negb (is_null o)
  && is_string (prop o "text") && is_boolean (prop o "isCorrect").

Definition validQuestion (q : value) : bool :=
  if negb (is_object q) || is_null q then false
  else
    match prop q "question" with
    | VStr text =>
        if blank text then false
        else if negb (strict_eq (prop q "type") (VStr "multiple-choice"))
                && negb (strict_eq (prop q "type") (VStr "true-false"))
        then false
        else match prop q "options" with
             | VArr options => forallb validOption options
             | _ => false
             end
    | _ => false
    end.

Definition isValidQuizQuestionArray (data : value) : bool :=
  match data with
  | VArr qs => forallb validQuestion qs
  | _ => false
  end.

(** [normalizedQuiz.length > 0], which the parser evaluates once the
    validator has found an array. *)
Definition nonEmptyArray (v : value) : bool :=
  match v with
  | VArr (_ :: _) => true
  | _ => false
  end.

Section WithRuntime.
Variable rt : Runtime.

Fixpoint normalizeKeys (obj : value) : value :=
  match obj with
  | VArr xs => VArr (map normalizeKeys xs)
  | VObj kvs =>
      fold_left
        (fun acc kv =>
           match kv with
           | (key, v) => assign acc (lowerFirst rt key) (normalizeKeys v)
           end)
        kvs (VObj [])
  | VObjP proto kvs =>
      if instanceOfDate proto then obj
      else
        fold_left
          (fun acc kv =>
             match kv with
             | (key, v) => assign acc (lowerFirst rt key) (normalizeKeys v)
             end)
          kvs (VObj [])
  | _ => obj
  end.

(** The result is the validated quiz or [undefined]; the console warnings
    of the source leave no trace in the returned value. *)
Definition parseAndValidateQuiz (quizData : value) : value :=
  if negb (truthy quizData) then VUndefined
  else
    let parsed :=
      match quizData with
      | VStr s =>
          if startsWith "["%char (trim s) && endsWith "]"%char (trim s) then
            match JSON_parse rt s with
            | Ok parsedQuiz => Some parsedQuiz
            | Throw _ => None
            end
          else None
      | _ => Some quizData
      end in
    match parsed with
    | None => VUndefined
    | Some parsedQuiz =>
        let normalizedQuiz := normalizeKeys parsedQuiz in
        if isValidQuizQuestionArray normalizedQuiz
           && nonEmptyArray normalizedQuiz
        then normalizedQuiz
        else VUndefined
    end.

(** The callback of [q.options.map] in [transformUploadedQuiz]. *)
Definition transformOption (answer : string) (opt : value) (index : nat)
  : result value :=
  printed <- ToString rt opt ;;
  Ok (mkOption (VStr (trim printed)) (String.eqb (trim printed) answer)).

(** The callback of [questions.map] in [transformUploadedQuiz]; [String]
    can throw. *)
Definition transformUploadedQuestion (q : value) (index : nat)
  : result (option value) :=
  if negb (truthy q) || negb (is_string (prop q "text"))
     || negb (truthy (prop q "type")) || is_undefined (prop q "answer")
  then Ok None
  else
    printedType <- ToString rt (prop q "type") ;;
    let questionType := toLowerCase rt printedType in
    printedAnswer <- ToString rt (prop q "answer") ;;
    let answer := trim printedAnswer in
    if String.eqb questionType "multiple_choice" then
      match prop q "options" with
      | VArr opts =>
          options <- map_from (transformOption answer) 0 opts ;;
          Ok (Some (mkQuestion (prop q "text") "multiple-choice" options))
      | _ => Ok None
      end
    else if String.eqb questionType "true_false" then
      let answerBool := String.eqb (toLowerCase rt answer) "true" in
      Ok (Some (mkQuestion (prop q "text") "true-false"
                  [ mkOption (VStr "True") answerBool;
                    mkOption (VStr "False") (negb answerBool) ]))
    else Ok None.

Definition transformUploadedQuiz (questions : value) : result value :=
  match questions with
  | VArr qs =>
      mapped <- map_from transformUploadedQuestion 0 qs ;;
      let transformed := filter_not_null mapped in
      Ok (match transformed with
          | [] => VUndefined
          | _ => VArr transformed
          end)
  | _ => Ok VUndefined
  end.

End WithRuntime.
End Quiz.

(* ===================================================================== *)
(** ** utils/urlParams.ts and the network                                 *)
(* ===================================================================== *)

Record Request : Type := mkRequest {
  url : string;
  method : string;
  headers : list (string * string);
  body : option string
}.

Record Response : Type := mkResponse {
  ok : bool;
  status : value;
  (** [await response.json()], which rejects on a malformed body *)
  json : result value
}.

Module UrlParams.

Record URLParams : Type := mkURLParams {
  token : option string;
  artifactId : option string;
  baseUrl : option string
}.

(** [s.slice(0, -1)] *)
Fixpoint dropLast (s : string) : string :=
  match s with
  | EmptyString => EmptyString
  | String _ EmptyString => EmptyString
  | String c r => String c (dropLast r)
  end.

(** A string or [null] used as a condition. *)
Definition present (p : option string) : bool :=
  match p with
  | Some s => negb (is_empty_string s)
  | None => false
  end.

(** [search k] is [new URLSearchParams(window.location.search).get(k)]. *)
Definition getURLParams (search : string -> option string) : URLParams :=
  let baseUrl :=
    match search "base_url" with
    | Some b => if negb (is_empty_string b) && endsWith "/"%char b
                then Some (dropLast b) else Some b
    | None => None
    end in
  {| token := search "token";
     artifactId := search "artifact_id";
     baseUrl := baseUrl |}.

Definition hasRequiredParams (params : URLParams) : bool :=
  present (token params) && present (artifactId params)
  && present (baseUrl params).

Definition text_of (p : option string) : string :=
  match p with Some s => s | None => "null" end.

End UrlParams.

(* ===================================================================== *)
(** ** utils/quizSubmission.ts                                            *)
(* ===================================================================== *)

Module QuizSubmission.
Import UrlParams.
Section WithRuntime.
Variable rt : Runtime.
(** The page's query string and the network. *)
Variable search : string -> option string.
Variable fetch : Request -> result Response.

Definition submissionRequest (urlParams : URLParams) (submissionData : value)
  : Request :=
  let content := JSON_stringify rt submissionData in
  {| url := (text_of (baseUrl urlParams)
             ++ "/organization/results/artifact/"
             ++ text_of (artifactId urlParams) ++ "/submission/")%string;
     method := "POST";
     headers :=
       [ ("Accept", "application/json, text/plain, */*");
         ("Authorization", ("Bearer " ++ text_of (token urlParams))%string);
         ("Content-Type", "application/json") ];
     body :=
       Some (JSON_stringify rt
               (VObj [ ("artifacts",
                        VNum (parseInt rt (text_of (artifactId urlParams))));
                       ("content", VStr content);
                       ("status", VStr "submitted") ])) |}.

(** The promise's outcome together with the requests that were sent. *)
Definition submitQuizResults (submissionData : value)
  : list Request * result bool :=
  let urlParams := getURLParams search in
  if negb (present (token urlParams)) || negb (present (artifactId urlParams))
     || negb (present (baseUrl urlParams))
  then ([], Ok false)
  else
    let request := submissionRequest urlParams submissionData in
    let attempt : result bool :=
      response <- fetch request ;;
      if negb (ok response)
      then
        printed <- ToString rt (status response) ;;
        Throw (Error ("HTTP error! status: " ++ printed)%string)
      else Ok true in
    ([request],
     match attempt with
     | Ok b => Ok b
     | Throw _ => Ok false
     end).

End WithRuntime.
End QuizSubmission.

(* ===================================================================== *)
(** ** The App component: coercers and the tour loader                    *)
(* ===================================================================== *)

(** The module ./constants.  Its source is not part of the development;
    the two constants the App component imports are taken as parameters. *)
Record Constants : Type := mkConstants {
  INTRO_LANDMARK : Landmark;
  FALLBACK_LANDMARKS : list Landmark
}.

Module App.
Import UrlParams Quiz DataTransform.

Section WithRuntime.
Variable rt : Runtime.
Variable consts : Constants.

(** The coordinate check that the dataset, overlay and upload coercers each
    spell out: a two-element array, no [null] entry, both entries finite
    after [Number], which can throw. *)
Definition processCoords (rawCoords : value)
  : result (option (float * float)) :=
  match rawCoords with
  | VArr [c0; c1] =>
      if negb (is_null c0) && negb (is_null c1) then
        lat <- ToNumber rt c0 ;;
        lon <- ToNumber rt c1 ;;
        Ok (if isFinite lat && isFinite lon then Some (lat, lon) else None)
      else Ok None
  | _ => Ok None
  end.

Definition coordsValue (c : float * float) : value :=
  VArr [VNum (fst c); VNum (snd c)].

(** [['monument', 'nature', 'water'].includes(v)] *)
Definition isIconType (v : value) : bool :=
  strict_eq v (VStr "monument") || strict_eq v (VStr "nature")
  || strict_eq v (VStr "water").

(** The callback of [items.map] in the dataset branch of [loadData]. *)
Definition datasetItem (item : value) (index : nat)
  : result (option Landmark) :=
  rawCoords <- get item "coordinates" ;;
  processed <- processCoords rawCoords ;;
  match processed with
  | None => Ok None
  | Some processedCoords =>
      let quizData :=
        prop item "quiz" ||| prop item "Quiz" ||| prop item "questions" in
      let quiz := parseAndValidateQuiz rt quizData in
      upper <- call_toUpperCase rt (prop item "city") ;;
      Ok (Some {| id := VNum (num_of_nat (index + 1));
                  name := prop item "city";
                  title := VStr upper;
                  description := prop item "description";
                  aliases := VUndefined;
                  imageUrl := prop item "image";
                  coords := coordsValue processedCoords;
                  iconType := VStr "monument";
                  videoUrl := prop item "video";
                  audioUrl := prop item "audio";
                  quiz := quiz;
                  block_navigation := to_bool (prop item "block_navigation") |})
  end.

(** [.map(...).filter(l => l !== null)] *)
Definition coerceAll (f : value -> nat -> result (option Landmark))
  (items : list value) : result (list Landmark) :=
  mapped <- map_from f 0 items ;;
  Ok (filter_not_null mapped).

(** The callback of [loadedCustom.map] in [loadData]; [now] is [Date.now()]. *)
Definition overlayItem (now : float) (item : value) (index : nat)
  : result (option Landmark) :=
  if negb (is_object item) || is_null item then Ok None
  else
    rawCoords <- get item "coords" ;;
    processed <- processCoords rawCoords ;;
    match processed with
    | None => Ok None
    | Some processedCoords =>
        name <- get item "name" ;;
        match name with
        | VStr n =>
            if blank n then Ok None
            else
              image <-
                (if truthy (prop item "imageUrl")
                 then Ok (prop item "imageUrl")
                 else
                   seed <- ToString rt (prop item "id" ||| name) ;;
                   Ok (VStr ("https://picsum.photos/seed/" ++ seed
                             ++ "/1200/800")%string)) ;;
              Ok (Some
                {| id := if is_number (prop item "id") then prop item "id"
                         else VNum now;
                   name := name;
                   title := prop item "title" ||| VStr (toUpperCase rt n);
                   description := prop item "description" ||| VStr "";
                   aliases := VUndefined;
                   imageUrl := image;
                   coords := coordsValue processedCoords;
                   iconType := if isIconType (prop item "iconType")
                               then prop item "iconType" else VStr "monument";
                   videoUrl := prop item "videoUrl" ||| VNull;
                   audioUrl := prop item "audioUrl" ||| VNull;
                   quiz := parseAndValidateQuiz rt (prop item "quiz");
                   block_navigation :=
                     to_bool (prop item "block_navigation") |})
        | _ => Ok None
        end
    end.

(** The callback of [loadedData.map] in [handleFileChange]. *)
Definition uploadItem (now : float) (item : value) (index : nat)
  : result (option Landmark) :=
  if negb (is_object item) || is_null item then Ok None
  else
    itemName <- get item "name" ;;
    let name := itemName ||| prop item "city" ||| prop item "title" in
    match name with
    | VStr n =>
        if blank n then Ok None
        else
          itemCoords <- get item "coords" ;;
          let rawCoords := itemCoords ||| prop item "coordinates" in
          processed <- processCoords rawCoords ;;
          match processed with
          | None => Ok None
          | Some processedCoords =>
              quiz <-
                (if truthy (prop item "questions")
                 then transformUploadedQuiz rt (prop item "questions")
                 else Ok VUndefined) ;;
              let quiz :=
                if negb (truthy quiz)
                then parseAndValidateQuiz rt
                       (prop item "quiz" ||| prop item "Quiz")
                else quiz in
              let stamp := PrimFloat.add now (num_of_nat index) in
              Ok (Some
                {| id := if truthy (prop item "id")
                            && is_number (prop item "id")
                         then prop item "id" else VNum stamp;
                   name := name;
                   title := prop item "title" ||| VStr (toUpperCase rt n);
                   description := prop item "description" ||| VStr "";
                   aliases := VUndefined;
                   imageUrl :=
                     prop item "imageUrl" ||| prop item "image"
                     ||| VStr ("https://picsum.photos/seed/"
                               ++ NumberToString rt stamp
                               ++ "/1200/800")%string;
                   coords := coordsValue processedCoords;
                   iconType := if isIconType (prop item "iconType")
                               then prop item "iconType" else VStr "monument";
                   videoUrl :=
                     prop item "videoUrl" ||| prop item "video" ||| VNull;
                   audioUrl :=
                     prop item "audioUrl" ||| prop item "audio" ||| VNull;
                   quiz := quiz;
                   block_navigation :=
                     to_bool (prop item "block_navigation") |})
          end
    | _ => Ok None
    end.

(** What the environment hands to [loadData]. *)
Record Env : Type := mkEnv {
  (** the page's query string *)
  search : string -> option string;
  fetch : Request -> result Response;
  (** [None]: [window.le_v2?.getDataset] is absent; otherwise the outcome of
      [getDataset('locations')] followed by [readAll()] *)
  dataset : option (result value);
  (** [localStorage.getItem('locations')] *)
  storedLocations : option string
}.

Definition artifactRequest (urlParams : URLParams) : Request :=
  {| url := (text_of (baseUrl urlParams)
             ++ "/organization/space/series/artifact/info/"
             ++ text_of (artifactId urlParams) ++ "/")%string;
     method := "GET";
     headers :=
       [ ("Accept", "application/json");
         ("Authorization", ("Bearer " ++ text_of (token urlParams))%string) ];
     body := None |}.

(** The remote-artifact attempt of [loadData]: [Some tour] when it reaches
    the early [return], [None] when control falls through to the dataset. *)
Definition loadFromArtifact (env : Env) : option (list Landmark) :=
  let urlParams := getURLParams (search env) in
  if hasRequiredParams urlParams then
    match fetch env (artifactRequest urlParams) with
    | Throw _ => None
    | Ok response =>
        if ok response then
          match json response with
          | Throw _ => None
          | Ok data =>
              match key_in "artifact_data" data with
              | Throw _ => None
              | Ok present =>
                  if present && truthy (prop data "artifact_data") then
                    match (text <- ToString rt (prop data "artifact_data") ;;
                           JSON_parse rt text) with
                    | Ok (VArr (first :: more)) =>
                        match transformBuilderDataToLandmarks rt
                                (first :: more) with
                        | Ok transformedLandmarks =>
                            Some (INTRO_LANDMARK consts
                                    :: transformedLandmarks)
                        | Throw _ => None
                        end
                    | _ => None
                    end
                  else None
              end
          end
        else None
    end
  else None.

(** The dataset branch of [loadData], with its fallbacks. *)
Definition loadFromDataset (env : Env) : list Landmark :=
  match dataset env with
  | None => FALLBACK_LANDMARKS consts
  | Some (Throw _) => FALLBACK_LANDMARKS consts
  | Some (Ok items) =>
      if truthy items then
        match length_gt0 rt items with
        | Ok true =>
            match items with
            | VArr rows =>
                match coerceAll datasetItem rows with
                | Ok formattedLandmarks =>
                    INTRO_LANDMARK consts :: formattedLandmarks
                | Throw _ => FALLBACK_LANDMARKS consts
                end
            | _ => FALLBACK_LANDMARKS consts
            end
        | Ok false => FALLBACK_LANDMARKS consts
        | Throw _ => FALLBACK_LANDMARKS consts
        end
      else FALLBACK_LANDMARKS consts
  end.

(** The overlay step of [loadData]: the final value given to
    [setLandmarks]. *)
Definition withOverlay (now : float) (env : Env)
  (loadedBaseLandmarks : list Landmark) : list Landmark :=
  match storedLocations env with
  | Some customLandmarksJSON =>
      if is_empty_string customLandmarksJSON then loadedBaseLandmarks
      else
        match JSON_parse rt customLandmarksJSON with
        | Throw _ => loadedBaseLandmarks
        | Ok (VArr loadedCustom) =>
            match coerceAll (overlayItem now) loadedCustom with
            | Ok sanitizedCustom => loadedBaseLandmarks ++ sanitizedCustom
            | Throw _ => loadedBaseLandmarks
            end
        | Ok _ => loadedBaseLandmarks
        end
  | None => loadedBaseLandmarks
  end.

(** [loadData]: the list that ends up in the [landmarks] state. *)
Definition loadData (now : float) (env : Env) : list Landmark :=
  match loadFromArtifact env with
  | Some loadedBaseLandmarks => loadedBaseLandmarks
  | None => withOverlay now env (loadFromDataset env)
  end.

(* --------------------------------------------------------------------- *)
(** *** Component state                                                   *)
(* --------------------------------------------------------------------- *)

(** The body of a pending [setTimeout] callback. *)
Inductive TimerAction : Type :=
| SwapSidebar (nextIndex : Z) (animation : string)
    (** [setSidebarIndex(nextIndex); setAnimationClass(animation)] *)
| SwapBoth (index : Z)
    (** [setActiveIndex(index); setSidebarIndex(index);
        setAnimationClass('animate-fade-in-fast')] *)
| EndTransition
    (** [setAnimationClass(''); setIsTransitioning(false)] *).

(** The [onComplete] closure of [quizModalInfo]: either [() => {}] or the
    closure built by [handleNext], which captured the [sidebarIndex] and
    the [landmarks] of the render in which it was created. *)
Inductive OnComplete : Type :=
| Noop
| CloseAndTransition (capturedIndex : Z) (capturedLength : Z).

Record QuizModalInfo : Type := mkQuizModalInfo {
  isOpen : bool;
  questions : value;
  onComplete : OnComplete
}.

Definition quizClosed : QuizModalInfo :=
  {| isOpen := false; questions := VNull; onComplete := Noop |}.

Record AppState : Type := mkAppState {
  landmarks : list Landmark;
  baseLandmarks : list Landmark;
  isLoading : bool;
  activeIndex : Z;
  sidebarIndex : Z;
  animationClass : string;
  isTransitioning : bool;
  (** [modalInfo.coords] *)
  modalCoords : option (float * float);
  quizModalInfo : QuizModalInfo;
  (** [justAddedLandmarkId.current] *)
  justAddedLandmarkId : value;
  (** pending timeouts: remaining delay and callback, in creation order *)
  timers : list (nat * TimerAction);
  (** the "locations" slot of [localStorage] *)
  storage : option string
}.

Definition initialState (stored : option string) : AppState :=
  {| landmarks := []; baseLandmarks := []; isLoading := true;
     activeIndex := 0; sidebarIndex := 0; animationClass := "";
     isTransitioning := false; modalCoords := None;
     quizModalInfo := quizClosed; justAddedLandmarkId := VNull;
     timers := []; storage := stored |}.

Definition setLandmarks (ls : list Landmark) (st : AppState) : AppState :=
  mkAppState ls (baseLandmarks st) (isLoading st) (activeIndex st)
    (sidebarIndex st) (animationClass st) (isTransitioning st)
    (modalCoords st) (quizModalInfo st) (justAddedLandmarkId st) (timers st)
    (storage st).
Definition setBaseLandmarks (ls : list Landmark) (st : AppState) : AppState :=
  mkAppState (landmarks st) ls (isLoading st) (activeIndex st)
    (sidebarIndex st) (animationClass st) (isTransitioning st)
    (modalCoords st) (quizModalInfo st) (justAddedLandmarkId st) (timers st)
    (storage st).
Definition setIsLoading (b : bool) (st : AppState) : AppState :=
  mkAppState (landmarks st) (baseLandmarks st) b (activeIndex st)
    (sidebarIndex st) (animationClass st) (isTransitioning st)
    (modalCoords st) (quizModalInfo st) (justAddedLandmarkId st) (timers st)
    (storage st).
Definition setActiveIndex (i : Z) (st : AppState) : AppState :=
  mkAppState (landmarks st) (baseLandmarks st) (isLoading st) i
    (sidebarIndex st) (animationClass st) (isTransitioning st)
    (modalCoords st) (quizModalInfo st) (justAddedLandmarkId st) (timers st)
    (storage st).
Definition setSidebarIndex (i : Z) (st : AppState) : AppState :=
  mkAppState (landmarks st) (baseLandmarks st) (isLoading st) (activeIndex st)
    i (animationClass st) (isTransitioning st)
    (modalCoords st) (quizModalInfo st) (justAddedLandmarkId st) (timers st)
    (storage st).
Definition setAnimationClass (c : string) (st : AppState) : AppState :=
  mkAppState (landmarks st) (baseLandmarks st) (isLoading st) (activeIndex st)
    (sidebarIndex st) c (isTransitioning st)
    (modalCoords st) (quizModalInfo st) (justAddedLandmarkId st) (timers st)
    (storage st).
Definition setIsTransitioning (b : bool) (st : AppState) : AppState :=
  mkAppState (landmarks st) (baseLandmarks st) (isLoading st) (activeIndex st)
    (sidebarIndex st) (animationClass st) b
    (modalCoords st) (quizModalInfo st) (justAddedLandmarkId st) (timers st)
    (storage st).
Definition setModalCoords (c : option (float * float)) (st : AppState)
  : AppState :=
  mkAppState (landmarks st) (baseLandmarks st) (isLoading st) (activeIndex st)
    (sidebarIndex st) (animationClass st) (isTransitioning st)
    c (quizModalInfo st) (justAddedLandmarkId st) (timers st)
    (storage st).
Definition setQuizModalInfo (q : QuizModalInfo) (st : AppState) : AppState :=
  mkAppState (landmarks st) (baseLandmarks st) (isLoading st) (activeIndex st)
    (sidebarIndex st) (animationClass st) (isTransitioning st)
    (modalCoords st) q (justAddedLandmarkId st) (timers st)
    (storage st).
Definition setJustAdded (v : value) (st : AppState) : AppState :=
  mkAppState (landmarks st) (baseLandmarks st) (isLoading st) (activeIndex st)
    (sidebarIndex st) (animationClass st) (isTransitioning st)
    (modalCoords st) (quizModalInfo st) v (timers st)
    (storage st).
Definition setTimers (ts : list (nat * TimerAction)) (st : AppState)
  : AppState :=
  mkAppState (landmarks st) (baseLandmarks st) (isLoading st) (activeIndex st)
    (sidebarIndex st) (animationClass st) (isTransitioning st)
    (modalCoords st) (quizModalInfo st) (justAddedLandmarkId st) ts
    (storage st).
Definition setStorage (s : option string) (st : AppState) : AppState :=
  mkAppState (landmarks st) (baseLandmarks st) (isLoading st) (activeIndex st)
    (sidebarIndex st) (animationClass st) (isTransitioning st)
    (modalCoords st) (quizModalInfo st) (justAddedLandmarkId st) (timers st)
    s.

(** [setTimeout(callback, delay)] *)
Definition setTimeout (a : TimerAction) (delay : nat) (st : AppState)
  : AppState :=
  setTimers (timers st ++ [(delay, a)]) st.

(** [landmarks[i]] *)
Definition at_index (ls : list Landmark) (i : Z) : option Landmark :=
  if (i <? 0)%Z then None else nth_error ls (Z.to_nat i).

(** [landmarks.length] *)
Definition len (ls : list Landmark) : Z := Z.of_nat (List.length ls).

(** [landmarks.findIndex(l => l.id === target)] *)
Fixpoint findIndex_from (target : value) (ls : list Landmark) (i : Z) : Z :=
  match ls with
  | [] => (-1)%Z
  | l :: rest =>
      if strict_eq (id l) target then i
      else findIndex_from target rest (i + 1)%Z
  end.
Definition findIndex (target : value) (ls : list Landmark) : Z :=
  findIndex_from target ls 0%Z.

(** The effect that reruns whenever [landmarks] changes and focuses a
    landmark that was just added. *)
Definition focusEffect (st : AppState) : AppState :=
  if truthy (justAddedLandmarkId st)
     && negb (Nat.eqb (List.length (landmarks st)) 0)
  then
    let newIndex := findIndex (justAddedLandmarkId st) (landmarks st) in
    if negb (newIndex =? -1)%Z then
      setJustAdded VNull (setSidebarIndex newIndex (setActiveIndex newIndex st))
    else st
  else st.

(** The mount effect: [loadData()] run to completion. *)
Definition mount (now : float) (env : Env) (st : AppState) : AppState :=
  match loadFromArtifact env with
  | Some loadedBaseLandmarks =>
      focusEffect
        (setIsLoading false
           (setLandmarks loadedBaseLandmarks
              (setBaseLandmarks loadedBaseLandmarks st)))
  | None =>
      let loadedBaseLandmarks := loadFromDataset env in
      focusEffect
        (setIsLoading false
           (setLandmarks (withOverlay now env loadedBaseLandmarks)
              (setBaseLandmarks loadedBaseLandmarks st)))
  end.

(* --------------------------------------------------------------------- *)
(** *** Navigation handlers                                               *)
(* --------------------------------------------------------------------- *)

(** The [transition] closure of [handleNext]; it reads the [sidebarIndex]
    and the [landmarks] captured when [handleNext] ran. *)
Definition transition (capturedIndex capturedLength : Z) (st : AppState)
  : AppState :=
  let nextIndex := Z.rem (capturedIndex + 1) capturedLength in
  let slideDuration := 400 in
  setTimeout EndTransition (slideDuration * 2)
    (setTimeout (SwapSidebar nextIndex "animate-slide-in-right-full")
       slideDuration
       (setActiveIndex nextIndex
          (setAnimationClass "animate-slide-out-left-full"
             (setIsTransitioning true st)))).

(** The test that guards the quiz modal in [handleNext]; the comparison
    of [quiz.length] converts it to a number, which can throw. *)
Definition gated (currentLandmark : Landmark) : result bool :=
  if negb (strict_eq (id currentLandmark) (VNum PrimFloat.zero))
     && truthy (quiz currentLandmark)
  then
    nonEmpty <- length_gt0 rt (quiz currentLandmark) ;;
    Ok (nonEmpty && truthy (block_navigation currentLandmark))
  else Ok false.

(** When the test throws, the handler ends before any state is set. *)
Definition handleNext (st : AppState) : AppState :=
  if isTransitioning st || Nat.eqb (List.length (landmarks st)) 0 then st
  else
    let go := transition (sidebarIndex st) (len (landmarks st)) in
    match at_index (landmarks st) (sidebarIndex st) with
    | Some currentLandmark =>
        match gated currentLandmark with
        | Ok true =>
            setQuizModalInfo
              {| isOpen := true;
                 questions := quiz currentLandmark;
                 onComplete :=
                   CloseAndTransition (sidebarIndex st) (len (landmarks st)) |}
              st
        | Ok false => go st
        | Throw _ => st
        end
    | None => go st
    end.

(** The quiz modal's "Continue Your Journey" button: [onComplete()]. *)
Definition quizComplete (st : AppState) : AppState :=
  match onComplete (quizModalInfo st) with
  | Noop => st
  | CloseAndTransition capturedIndex capturedLength =>
      transition capturedIndex capturedLength (setQuizModalInfo quizClosed st)
  end.

Definition handlePrev (st : AppState) : AppState :=
  if isTransitioning st || Nat.eqb (List.length (landmarks st)) 0 then st
  else
    let nextIndex :=
      Z.rem (sidebarIndex st - 1 + len (landmarks st)) (len (landmarks st)) in
    let slideDuration := 400 in
    setTimeout EndTransition (slideDuration * 2)
      (setTimeout (SwapSidebar nextIndex "animate-slide-in-left-full")
         slideDuration
         (setActiveIndex nextIndex
            (setAnimationClass "animate-slide-out-right-full"
               (setIsTransitioning true st)))).

Definition handleSelectLandmark (target : value) (st : AppState) : AppState :=
  if isTransitioning st then st
  else
    let index := findIndex target (landmarks st) in
    if negb (index =? -1)%Z && negb (index =? sidebarIndex st)%Z then
      setTimeout EndTransition 600
        (setTimeout (SwapBoth index) 300
           (setAnimationClass "animate-fade-out"
              (setIsTransitioning true st)))
    else st.

(** Running a timeout callback. *)
Definition runTimer (a : TimerAction) (st : AppState) : AppState :=
  match a with
  | SwapSidebar nextIndex animation =>
      setAnimationClass animation (setSidebarIndex nextIndex st)
  | SwapBoth index =>
      setAnimationClass "animate-fade-in-fast"
        (setSidebarIndex index (setActiveIndex index st))
  | EndTransition => setIsTransitioning false (setAnimationClass "" st)
  end.

Fixpoint earliest (ts : list (nat * TimerAction)) : option nat :=
  match ts with
  | [] => None
  | (d, _) :: rest =>
      match earliest rest with
      | Some d' => Some (if d' <? d then d' else d)
      | None => Some d
      end
  end.

(** Removes the first timer whose remaining delay is [d]. *)
Fixpoint takeDue (d : nat) (ts : list (nat * TimerAction))
  : option (TimerAction * list (nat * TimerAction)) :=
  match ts with
  | [] => None
  | (d', a) :: rest =>
      if d' =? d then Some (a, rest)
      else match takeDue d rest with
           | Some (b, rest') => Some (b, (d', a) :: rest')
           | None => None
           end
  end.

(** Time passes until the next pending timeout is due, and it runs. *)
Definition fireTimer (st : AppState) : AppState :=
  match earliest (timers st) with
  | None => st
  | Some d =>
      match takeDue d (timers st) with
      | Some (a, rest) =>
          runTimer a
            (setTimers (map (fun t => (fst t - d, snd t)) rest) st)
      | None => st
      end
  end.

(** The navigation intents of the presentation layer. *)
Inductive Intent : Type :=
| Next
| Previous
| JumpTo (target : value).

Definition dispatch (i : Intent) (st : AppState) : AppState :=
  match i with
  | Next => handleNext st
  | Previous => handlePrev st
  | JumpTo target => handleSelectLandmark target st
  end.

(* --------------------------------------------------------------------- *)
(** *** Adding and uploading landmarks                                    *)
(* --------------------------------------------------------------------- *)

Definition landmarkValue (l : Landmark) : value :=
  VObj [ ("id", id l); ("coords", coords l); ("name", name l);
         ("title", title l); ("description", description l);
         ("aliases", aliases l); ("imageUrl", imageUrl l);
         ("iconType", iconType l); ("videoUrl", videoUrl l);
         ("audioUrl", audioUrl l); ("quiz", quiz l);
         ("block_navigation", block_navigation l) ].

(** [[...v]]: the elements of an array, the characters of a string. *)
Definition spread (v : value) : result (list value) :=
  match v with
  | VArr xs => Ok xs
  | VStr s => Ok (map VStr (characters s))
  | _ => Throw (TypeError "value is not iterable")
  end.

(** [handleSaveLandmark]; [newLandmarkData] carries the fields other than
    [id] and [coords], and [now] is [Date.now()]. *)
Definition handleSaveLandmark (now : float) (newLandmarkData : Landmark)
  (st : AppState) : AppState :=
  match modalCoords st with
  | None => st
  | Some c =>
      let newLandmark :=
        {| id := VNum now;
           coords := coordsValue c;
           name := name newLandmarkData;
           title := title newLandmarkData;
           description := description newLandmarkData;
           aliases := aliases newLandmarkData;
           imageUrl := imageUrl newLandmarkData;
           iconType := iconType newLandmarkData;
           videoUrl := videoUrl newLandmarkData;
           audioUrl := audioUrl newLandmarkData;
           quiz := quiz newLandmarkData;
           block_navigation := block_navigation newLandmarkData |} in
      let st1 :=
        setLandmarks (landmarks st ++ [newLandmark])
          (setJustAdded (id newLandmark) st) in
      let written : result string :=
        currentCustom <-
          JSON_parse rt
            (match storage st1 with
             | Some s => if is_empty_string s then "[]" else s
             | None => "[]"
             end) ;;
        elements <- spread currentCustom ;;
        Ok (JSON_stringify rt (VArr (elements ++ [landmarkValue newLandmark])))
      in
      let st2 :=
        match written with
        | Ok s => setStorage (Some s) st1
        | Throw _ => st1
        end in
      focusEffect (setModalCoords None st2)
  end.

Definition noValidLandmarksMessage : string :=
  "The uploaded JSON file contains no valid landmarks. Please ensure each landmark has a 'name', 'city', or 'title', and valid 'coordinates'.".

Definition couldNotLoadMessage (e : exn) : string :=
  ("Could not load landmarks. Please check if the file is a valid JSON."
   ++ String (ascii_of_nat 10) "Error: " ++ message e)%string.

(** [reader.onload] of [handleFileChange] on the text of the chosen file:
    the new state and the [alert]s shown. *)
Definition handleFileChange (now : float) (text : string) (st : AppState)
  : AppState * list string :=
  let processed : result (list Landmark) :=
    if is_empty_string text then Throw (Error "File could not be read.")
    else
      loadedData <- JSON_parse rt text ;;
      match loadedData with
      | VArr items => coerceAll (uploadItem now) items
      | _ =>
          Throw (Error "Invalid data format. The JSON file must contain an array of landmarks.")
      end in
  match processed with
  | Ok [] => (st, [noValidLandmarksMessage])
  | Ok newLandmarks =>
      (focusEffect
         (setSidebarIndex 1
            (setActiveIndex 1
               (setLandmarks (INTRO_LANDMARK consts :: newLandmarks) st))),
       [])
  | Throw e => (st, [couldNotLoadMessage e])
  end.

End WithRuntime.
End App.

(* ===================================================================== *)
(** ** Specification-side notions                                         *)
(* ===================================================================== *)

Module Spec.
Import App Quiz.

Fixpoint memb (k : string) (ks : list string) : bool :=
  match ks with
  | [] => false
  | k' :: rest => String.eqb k k' || memb k rest
  end.

Fixpoint distinct (ks : list string) : bool :=
  match ks with
  | [] => true
  | k :: rest => negb (memb k rest) && distinct rest
  end.

Section Normalizer.
Variable rt : Runtime.

(** The Key Normalizer as the specification words it: the same structure,
    with the first character of every object key lower-cased. *)
Fixpoint lowerKeys (x : value) : value :=
  match x with
  | VArr xs => VArr (map lowerKeys xs)
  | VObj kvs =>
      VObj (map (fun kv => match kv with
                           | (key, v) => (lowerFirst rt key, lowerKeys v)
                           end) kvs)
  | _ => x
  end.

(** No object of [x], at any depth, has two keys that the normalizer maps
    to the same key. *)
Fixpoint collisionFree (x : value) : bool :=
  match x with
  | VArr xs => forallb collisionFree xs
  | VObj kvs =>
      distinct (map (fun kv => lowerFirst rt (fst kv)) kvs)
      && forallb (fun kv => match kv with (_, v) => collisionFree v end) kvs
  | _ => true
  end.

(** [x] is data as [JSON.parse] yields it, and no object of it, at any
    depth, has a key that the normalizer turns into "__proto__", as the
    key "__proto__" itself is. *)
Fixpoint plainKeys (x : value) : bool :=
  match x with
  | VArr xs => forallb plainKeys xs
  | VObj kvs =>
      forallb (fun kv => match kv with
                         | (key, v) =>
                             negb (String.eqb (lowerFirst rt key) "__proto__")
                             && plainKeys v
                         end) kvs
  | VObjP _ _ => false
  | _ => true
  end.

End Normalizer.

(** The canonical quiz shape of types.ts, typed. *)
Inductive QuestionType : Type := MultipleChoice | TrueFalse.

Record QuizOption : Type := mkQuizOption {
  text : string;
  isCorrect : bool
}.

Record QuizQuestion : Type := mkQuizQuestion {
  question : string;
  type : QuestionType;
  options : list QuizOption
}.

Definition typeName (t : QuestionType) : string :=
  match t with
  | MultipleChoice => "multiple-choice"
  | TrueFalse => "true-false"
  end.

Definition optionValue (o : QuizOption) : value :=
  mkOption (VStr (text o)) (isCorrect o).

Definition questionValue (q : QuizQuestion) : value :=
  mkQuestion (VStr (question q)) (typeName (type q))
    (map optionValue (options q)).

Definition quizValue (qs : list QuizQuestion) : value :=
  VArr (map questionValue qs).

(** A name field that can be used: a string that is not blank. *)
Definition usableName (v : value) : bool :=
  match v with
  | VStr s => negb (blank s)
  | _ => false
  end.

Section WithRuntime.
Variable rt : Runtime.

(** [Number] converts the value to a finite number. *)
Definition finiteNumber (c : value) : bool :=
  match ToNumber rt c with
  | Ok n => isFinite n
  | Throw _ => false
  end.

(** [Number] converts the value: it does not throw. *)
Definition converts (c : value) : bool :=
  match ToNumber rt c with
  | Ok _ => true
  | Throw _ => false
  end.

(** A coordinates field that can be used: a two-element array whose entries
    are not [null] and convert to finite numbers. *)
Definition usableCoords (v : value) : bool :=
  match v with
  | VArr [c0; c1] =>
      negb (is_null c0) && negb (is_null c1)
      && finiteNumber c0 && finiteNumber c1
  | _ => false
  end.

(** A coordinates field on which the conversion does not throw: it is not
    a pair of entries other than [null], or [Number] converts both. *)
Definition convertibleCoords (v : value) : bool :=
  match v with
  | VArr [c0; c1] =>
      if negb (is_null c0) && negb (is_null c1)
      then converts c0 && converts c1
      else true
  | _ => true
  end.

(** A record: an object other than [null]. *)
Definition isRecord (item : value) : bool :=
  is_object item && negb (is_null item).

(** An uploaded record that lacks a required field: it is not a record at
    all, or none of [name], [city], [title] is a usable name, or neither
    [coords] nor [coordinates] holds usable coordinates. *)
Definition uploadLacksRequired (item : value) : Prop :=
  isRecord item = false
  \/ (usableName (prop item "name") = false
      /\ usableName (prop item "city") = false
      /\ usableName (prop item "title") = false)
  \/ (usableCoords (prop item "coords") = false
      /\ usableCoords (prop item "coordinates") = false).




End WithRuntime.

(** Modelled from the spec: the module ./constants is not among the
    sources.  The specification describes its two constants: the tour's
    entry at index 0 is "a synthetic intro landmark (id = 0) with no quiz and
    no gating", and the built-in tour is "[intro] + built-in fallback
    landmarks". *)
Definition constantsSpec (consts : Constants) : Prop :=
  id (INTRO_LANDMARK consts) = VNum PrimFloat.zero
  /\ quiz (INTRO_LANDMARK consts) = VUndefined
  /\ truthy (block_navigation (INTRO_LANDMARK consts)) = false
  /\ exists rest,
       FALLBACK_LANDMARKS consts = INTRO_LANDMARK consts :: rest.

(** The tour is headed by the intro landmark. *)
Definition headedByIntro (consts : Constants) (tour : list Landmark) : Prop :=
  exists rest, tour = INTRO_LANDMARK consts :: rest.

(** The submission endpoint as the specification writes it. *)
Definition statedSubmissionUrl (base_url artifact_id : string) : string :=
  (base_url ++ "/organization/results/artifact/submission/"
   ++ artifact_id ++ "/submission/")%string.



End Spec.

(* ===================================================================== *)
(** ** Concrete inputs                                                    *)
(* ===================================================================== *)

Module Examples.
Import App Spec.

(** Decimal digits read as a number, [NaN] on anything else. *)
Definition digit (c : ascii) : option float :=
  let n := nat_of_ascii c in
  if (48 <=? n) && (n <=? 57) then Some (num_of_nat (n - 48)) else None.

Fixpoint digits (acc : float) (s : string) : float :=
  match s with
  | EmptyString => acc
  | String c r =>
      match digit c with
      | Some d => digits (PrimFloat.add (PrimFloat.mul acc 10%float) d) r
      | None => PrimFloat.nan
      end
  end.

(** A small runtime for closed examples.  [StringToNumber] and [parseInt]
    read strings of decimal digits, [JSON_parse] knows the texts listed
    below and rejects every other text; the printers, the case conversion
    outside ASCII and the conversions of objects with a replaced prototype
    are placeholders whose output no example inspects. *)
Definition runtime : Runtime :=
  {| StringToNumber := digits PrimFloat.zero;
     NumberToString := fun _ => "0";
     DateToString := fun _ => "Invalid Date";
     JSON_parse := fun s =>
       if String.eqb s "[]" then Ok (VArr [])
       else if String.eqb s "[null, {}]" then Ok (VArr [VNull; VObj []])
       else Throw (SyntaxError "Unexpected token");
     JSON_stringify := fun _ => "{}";
     parseInt := fun s =>
       match s with
       | EmptyString => PrimFloat.nan
       | _ => digits PrimFloat.zero s
       end;
     toLowerCaseUnicode := fun s => s;
     toUpperCaseUnicode := fun s => s;
     ExoticToString := fun _ => Ok "[object Object]";
     ExoticToNumber := fun _ => Ok PrimFloat.nan |}.

Definition emptyLandmark : Landmark :=
  {| id := VUndefined; name := VUndefined; title := VUndefined;
     description := VUndefined; aliases := VUndefined;
     imageUrl := VUndefined; coords := VUndefined; iconType := VUndefined;
     videoUrl := VUndefined; audioUrl := VUndefined; quiz := VUndefined;
     block_navigation := VUndefined |}.

Definition intro : Landmark :=
  {| id := VNum PrimFloat.zero; name := VStr "Welcome";
     title := VStr "WELCOME"; description := VStr "";
     aliases := VUndefined; imageUrl := VStr "";
     coords := VArr [VNum 31%float; VNum 36%float];
     iconType := VStr "monument";
     videoUrl := VUndefined; audioUrl := VUndefined; quiz := VUndefined;
     block_navigation := VUndefined |}.

Definition trueFalseQuiz : value :=
  VArr [ mkQuestion (VStr "Q") "true-false"
           [ mkOption (VStr "True") true; mkOption (VStr "False") false ] ].

(** A landmark with a quiz that blocks navigation. *)
Definition gatedLandmark : Landmark :=
  {| id := VNum 1%float; name := VStr "Petra"; title := VStr "PETRA";
     description := VStr ""; aliases := VUndefined; imageUrl := VStr "";
     coords := VArr [VNum 30%float; VNum 35%float];
     iconType := VStr "monument";
     videoUrl := VNull; audioUrl := VNull; quiz := trueFalseQuiz;
     block_navigation := VBool true |}.

(** The same landmark without a quiz. *)
Definition plainLandmark : Landmark :=
  {| id := VNum 2%float; name := VStr "Amman"; title := VStr "AMMAN";
     description := VStr ""; aliases := VUndefined; imageUrl := VStr "";
     coords := VArr [VNum 31%float; VNum 35%float];
     iconType := VStr "monument";
     videoUrl := VNull; audioUrl := VNull; quiz := VUndefined;
     block_navigation := VBool false |}.

Definition constants : Constants :=
  {| INTRO_LANDMARK := intro; FALLBACK_LANDMARKS := [intro; plainLandmark] |}.

(** A tour being viewed at index [i], at rest. *)
Definition viewing (tour : list Landmark) (i : Z) : AppState :=
  {| landmarks := tour; baseLandmarks := tour; isLoading := false;
     activeIndex := i; sidebarIndex := i; animationClass := "";
     isTransitioning := false; modalCoords := None;
     quizModalInfo := quizClosed; justAddedLandmarkId := VNull;
     timers := []; storage := None |}.

(** Scenario C: [questions: [{text: "Q", type: "true_false",
    answer: "True"}]]. *)
Definition scenarioC (answer : string) : value :=
  VObj [("text", VStr "Q"); ("type", VStr "true_false");
        ("answer", VStr answer)].

(** An object with two keys that differ in the case of the first letter. *)
Definition twoCases : value :=
  VObj [("Name", VStr "Petra"); ("name", VStr "Amman")].

(** A quiz whose only question has the text " " (one space). *)
Definition blankQuiz : list QuizQuestion :=
  [ {| question := " "; type := TrueFalse;
       options := [ {| text := "True"; isCorrect := true |};
                    {| text := "False"; isCorrect := false |} ] |} ].

(** A builder record with a title and no coordinates. *)
Definition noCoordinates : value :=
  VObj [("title", VStr "Petra"); ("country", VStr "Jordan")].

(** The query string [?token=t&artifact_id=7&base_url=https://h/]. *)
Definition query (k : string) : option string :=
  if String.eqb k "token" then Some "t"
  else if String.eqb k "artifact_id" then Some "7"
  else if String.eqb k "base_url" then Some "https://h/"
  else None.

(** An uploaded record with a name, coordinates and the questions of
    scenario C. *)
Definition petraUpload : list (string * value) :=
  [ ("name", VStr "Petra");
    ("coordinates", VArr [VNum 30%float; VNum 35%float]);
    ("questions", VArr [scenarioC "True"]) ].

(** A server that answers every request with status 500. *)
Definition failingServer (r : Request) : result Response :=
  Ok {| ok := false; status := VNum 500%float; json := Ok VNull |}.

(** No network. *)
Definition offline (r : Request) : result Response :=
  Throw (TypeError "Failed to fetch").

(** A quiz question written with capitalised keys. *)
Definition capitalised : value :=
  VObj [ ("Question", VStr "Q");
         ("Options", VArr [VObj [("Text", VStr "A"); ("IsCorrect", VBool true)]]);
         ("When", VDate 0%float) ].

(** Scenario B: a row whose second coordinate is [null]. *)
Definition nullCoordinate : value :=
  VObj [ ("name", VStr "Petra"); ("city", VStr "Petra");
         ("coordinates", VArr [VNum 30.5%float; VNull]);
         ("coords", VArr [VNum 30.5%float; VNull]) ].


(** The object that the JSON text
    [{"__proto__": {"question": "Q", "type": "true-false", "options": []}}]
    parses to: it has one own property, named "__proto__". *)
Definition protoQuestion : value :=
  VObj [ ("__proto__",
          VObj [ ("question", VStr "Q"); ("type", VStr "true-false");
                 ("options", VArr []) ]) ].

(** A dataset row with coordinates and no city. *)
Definition noCity : value :=
  VObj [("coordinates", VArr [VNum 30%float; VNum 35%float])].

(** A page opened without session parameters, dataset or stored
    landmarks. *)
Definition bareEnv : Env :=
  {| search := fun _ => None; fetch := offline; dataset := None;
     storedLocations := None |}.


(** The tour of scenario A, viewed at its last landmark. *)
Definition scenarioA : list Landmark :=
  [intro; plainLandmark; gatedLandmark].

(** Scenario B: a dataset row with numeric strings as coordinates. *)
Definition stringCoordinates : value :=
  VObj [ ("city", VStr "Petra");
         ("coordinates", VArr [VStr "30"; VStr "35"]) ].

(** [Next], then the two timeouts of the slide. *)
Definition nextAndSettle (st : AppState) : AppState :=
  fireTimer (fireTimer (handleNext runtime st)).

(** A dataset row with coordinates and the empty city. *)
Definition emptyCity : list (string * value) :=
  [ ("city", VStr "");
    ("coordinates", VArr [VNum 30%float; VNum 35%float]) ].

(** A stored custom landmark. *)
Definition storedLandmark : value :=
  VObj [ ("id", VNum 7%float); ("name", VStr "Cafe");
         ("coords", VArr [VNum 30%float; VNum 35%float]) ].

(** A JSON string literal. *)
Definition quoted (s : string) : string :=
  (String (ascii_of_nat 34) s ++ String (ascii_of_nat 34) "")%string.

(** The text of a file with one valid record and [null]. *)
Definition petraFile : string :=
  ("[{" ++ quoted "name" ++ ":" ++ quoted "Petra" ++ ","
   ++ quoted "coordinates" ++ ":[30,35]}, null]")%string.

Definition petraRecord : value :=
  VObj [ ("name", VStr "Petra");
         ("coordinates", VArr [VNum 30%float; VNum 35%float]) ].

(** The small runtime, which also knows the text [petraFile]. *)
Definition fileRuntime : Runtime :=
  {| StringToNumber := StringToNumber runtime;
     NumberToString := NumberToString runtime;
     DateToString := DateToString runtime;
     JSON_parse := fun s =>
       if String.eqb s petraFile then Ok (VArr [petraRecord; VNull])
       else JSON_parse runtime s;
     JSON_stringify := JSON_stringify runtime;
     parseInt := parseInt runtime;
     toLowerCaseUnicode := toLowerCaseUnicode runtime;
     toUpperCaseUnicode := toUpperCaseUnicode runtime;
     ExoticToString := ExoticToString runtime;
     ExoticToNumber := ExoticToNumber runtime |}.

(** A page whose dataset has a valid row followed by a row without a
    city. *)
Definition datasetEnv : Env :=
  {| search := fun _ => None; fetch := offline;
     dataset := Some (Ok (VArr [stringCoordinates; noCity]));
     storedLocations := None |}.

(** The query string of [query] with the base address written without its
    trailing slash. *)
Definition queryNoSlash (k : string) : option string :=
  if String.eqb k "base_url" then Some "https://h" else query k.

(** A server that answers every request with an artifact whose data is the
    text [[{}]]. *)
Definition artifactServer (r : Request) : result Response :=
  Ok {| ok := true; status := VNum 200%float;
        json := Ok (VObj [("artifact_data", VStr "[{}]")]) |}.

(** The small runtime, which also knows the text [[{}]]. *)
Definition artifactRuntime : Runtime :=
  {| StringToNumber := StringToNumber runtime;
     NumberToString := NumberToString runtime;
     DateToString := DateToString runtime;
     JSON_parse := fun s =>
       if String.eqb s "[{}]" then Ok (VArr [VObj []])
       else JSON_parse runtime s;
     JSON_stringify := JSON_stringify runtime;
     parseInt := parseInt runtime;
     toLowerCaseUnicode := toLowerCaseUnicode runtime;
     toUpperCaseUnicode := toUpperCaseUnicode runtime;
     ExoticToString := ExoticToString runtime;
     ExoticToNumber := ExoticToNumber runtime |}.

(** A page opened with the session parameters of [query], a dataset and
    stored landmarks, against [artifactServer]. *)
Definition artifactEnv : Env :=
  {| search := query; fetch := artifactServer;
     dataset := Some (Ok (VArr [stringCoordinates]));
     storedLocations := Some "[]" |}.

End Examples.

(* ===================================================================== *)
(** ** Further notions used by the properties                             *)
(* ===================================================================== *)

Module Props.
Import App Quiz Spec.

Section Normalizer.
Variable rt : Runtime.

(** A value the Key Normalizer has nothing to do on: data in which, in
    every object, at any depth, the keys are distinct, start with a
    character that lower-casing leaves alone, and none is "__proto__". *)
Fixpoint normalForm (x : value) : bool :=
  match x with
  | VArr xs => forallb normalForm xs
  | VObj kvs =>
      distinct (map fst kvs)
      && forallb (fun kv => match kv with
                            | (key, v) =>
                                String.eqb (lowerFirst rt key) key
                                && negb (String.eqb key "__proto__")
                                && normalForm v
                            end) kvs
  | VObjP _ _ => false
  | _ => true
  end.

(** What [normalForm] asks of one property. *)
Definition normalProperty (kv : string * value) : bool :=
  match kv with
  | (key, v) =>
      String.eqb (lowerFirst rt key) key
      && negb (String.eqb key "__proto__")
      && normalForm v
  end.

(** Lower-casing the first character of a key a second time changes
    nothing, for every key of every object of [x]. *)
Fixpoint stableKeys (x : value) : bool :=
  match x with
  | VArr xs => forallb stableKeys xs
  | VObj kvs | VObjP _ kvs =>
      forallb (fun kv => match kv with
                         | (key, v) =>
                             String.eqb (lowerFirst rt (lowerFirst rt key))
                                        (lowerFirst rt key)
                             && stableKeys v
                         end) kvs
  | _ => true
  end.

(** A property on which one pass of the normalizer is enough: its key
    does not become "__proto__", lower-casing it a second time changes
    nothing, and its value is normalized to a normal form. *)
Definition settles (kv : string * value) : Prop :=
  String.eqb (lowerFirst rt (fst kv)) "__proto__" = false
  /\ lowerFirst rt (lowerFirst rt (fst kv)) = lowerFirst rt (fst kv)
  /\ normalForm (normalizeKeys rt (snd kv)) = true.

End Normalizer.

(** A question object of the canonical shape, whatever its text: a string
    [question], one of the two types, and an array of options that each have
    a string [text] and a boolean [isCorrect]. *)
Definition shapedQuestion (q : value) : bool :=
  is_object q && negb (is_null q)
  && is_string (prop q "question")
  && (strict_eq (prop q "type") (VStr "multiple-choice")
      || strict_eq (prop q "type") (VStr "true-false"))
  && match prop q "options" with
     | VArr options => forallb validOption options
     | _ => false
     end.

(** A quiz as a landmark may carry it: absent, or a non-empty array of
    shaped questions. *)
Definition quizShape (quiz : value) : Prop :=
  quiz = VUndefined
  \/ exists q qs, quiz = VArr (q :: qs)
                  /\ forallb shapedQuestion (q :: qs) = true.

(** Coordinates as the validating coercers store them: a pair of finite
    numbers. *)
Definition finiteCoords (c : value) : Prop :=
  exists lat lon,
    c = VArr [VNum lat; VNum lon]
    /\ isFinite lat = true /\ isFinite lon = true.

(** An index of the tour. *)
Definition inTour (n i : Z) : Prop := (0 <= i < n)%Z.

Definition timerInTour (n : Z) (t : nat * TimerAction) : Prop :=
  match snd t with
  | SwapSidebar i _ => inTour n i
  | SwapBoth i => inTour n i
  | EndTransition => True
  end.

Definition closureInTour (n : Z) (c : OnComplete) : Prop :=
  match c with
  | Noop => True
  | CloseAndTransition i m => (0 <= i < m /\ m <= n)%Z
  end.

(** Every index the navigation holds or is about to install is an index of
    the tour: the two current indices, the targets of the pending timeouts
    and what the pending quiz closure captured. *)
Definition navigable (st : AppState) : Prop :=
  let n := len (landmarks st) in
  inTour n (activeIndex st)
  /\ inTour n (sidebarIndex st)
  /\ Forall (timerInTour n) (timers st)
  /\ closureInTour n (onComplete (quizModalInfo st)).

(** What can happen to the navigation between two renders. *)
Inductive NavEvent : Type :=
| Pressed (i : Intent)
| QuizCompleted
| TimerFired.

Section WithRuntime.
Variable rt : Runtime.

Definition navStep (st : AppState) (e : NavEvent) : AppState :=
  match e with
  | Pressed i => dispatch rt i st
  | QuizCompleted => quizComplete st
  | TimerFired => fireTimer st
  end.

Definition navRun (events : list NavEvent) (st : AppState) : AppState :=
  fold_left navStep events st.

End WithRuntime.

End Props.

(* ===================================================================== *)
(** ** components/QuizModal.tsx                                           *)
(* ===================================================================== *)

Module QuizModal.

(** The component's state. *)
Record State : Type := mkState {
  currentQ : nat;
  selectedOptionIndex : option nat;
  isAnswered : bool;
  score : nat;
  showResults : bool
}.

(** The state the effect installs when the modal opens. *)
Definition opened : State :=
  {| currentQ := 0; selectedOptionIndex := None; isAnswered := false;
     score := 0; showResults := false |}.

(** [options.findIndex(o => o.isCorrect)], whose callback throws on an
    option that is [null] or [undefined]. *)
Fixpoint findCorrect (options : list value) (i : Z) : result Z :=
  match options with
  | [] => Ok (-1)%Z
  | o :: rest =>
      isCorrect <- get o "isCorrect" ;;
      if truthy isCorrect then Ok i else findCorrect rest (i + 1)%Z
  end.

(** What a render reads of the current question: its options and
    [correctOptionIndex]. *)
Definition rendered (questions : list value) (st : State)
  : result (list value * Z) :=
  let question := nth (currentQ st) questions VUndefined in
  options <- get question "options" ;;
  match options with
  | VArr opts =>
      correctOptionIndex <- findCorrect opts 0%Z ;;
      Ok (opts, correctOptionIndex)
  | _ => Throw (TypeError "question.options.findIndex is not a function")
  end.

Definition handleOptionSelect (index : nat) (st : State) : State :=
  if negb (isAnswered st) then
    mkState (currentQ st) (Some index) (isAnswered st) (score st)
      (showResults st)
  else st.

Definition checkAnswer (correctOptionIndex : Z) (st : State) : State :=
  match selectedOptionIndex st with
  | None => st
  | Some selected =>
      mkState (currentQ st) (selectedOptionIndex st) true
        (if (Z.of_nat selected =? correctOptionIndex)%Z
         then score st + 1 else score st)
        (showResults st)
  end.

Definition handleNext (questions : list value) (st : State) : State :=
  if (Z.of_nat (currentQ st) <? Z.of_nat (List.length questions) - 1)%Z then
    mkState (currentQ st + 1) None false (score st) (showResults st)
  else
    mkState (currentQ st) None false (score st) true.

(** The buttons of the modal. *)
Inductive Button : Type :=
| OptionButton (index : nat)
| CheckAnswerButton
| NextButton
| ContinueButton.

(** A click on a button of the open modal: the next state, and whether
    [onComplete] was called.  A button that the current render does not
    show, or shows disabled, does nothing: the option buttons exist for the
    options of the current question and are disabled once it is answered;
    "Check Answer" is shown until the question is answered and is disabled
    without a selection; the "Next" button is shown once it is answered;
    "Continue" is shown with the results.  Nothing is shown for an empty
    quiz. *)
Definition click (questions : list value) (b : Button) (st : State)
  : result (State * bool) :=
  match questions with
  | [] => Ok (st, false)
  | _ =>
      view <- rendered questions st ;;
      let options := fst view in
      let correctOptionIndex := snd view in
      if showResults st then
        match b with
        | ContinueButton => Ok (st, true)
        | _ => Ok (st, false)
        end
      else
        match b with
        | OptionButton index =>
            if (index <? List.length options) && negb (isAnswered st)
            then Ok (handleOptionSelect index st, false)
            else Ok (st, false)
        | CheckAnswerButton =>
            if negb (isAnswered st)
               && match selectedOptionIndex st with
                  | Some _ => true
                  | None => false
                  end
            then Ok (checkAnswer correctOptionIndex st, false)
            else Ok (st, false)
        | NextButton =>
            if isAnswered st then Ok (handleNext questions st, false)
            else Ok (st, false)
        | ContinueButton => Ok (st, false)
        end
  end.

(** A sequence of clicks; the flag tells whether [onComplete] was called
    by one of them. *)
Fixpoint clicks (questions : list value) (bs : list Button) (st : State)
  (completed : bool) : result (State * bool) :=
  match bs with
  | [] => Ok (st, completed)
  | b :: rest =>
      next <- click questions b st ;;
      clicks questions rest (fst next) (completed || snd next)
  end.

(** A question has an option marked correct. *)
Definition hasCorrectOption (question : value) : bool :=
  match prop question "options" with
  | VArr opts => existsb (fun o => truthy (prop o "isCorrect")) opts
  | _ => false
  end.

End QuizModal.

(** Measures of a quiz session, used to state its properties. *)
Module QuizFacts.
Import QuizModal.

(** How far a quiz session has come, in clicks: three per finished
    question, two for an answered one, one for a selection. *)
Definition progress (questions : list value) (st : State) : nat :=
  if showResults st then 3 * List.length questions
  else 3 * currentQ st
       + (if isAnswered st then 2
          else match selectedOptionIndex st with
               | Some _ => 1
               | None => 0
               end).

(** The number of questions with an answer checked. *)
Definition answered (questions : list value) (st : State) : nat :=
  if showResults st then List.length questions
  else currentQ st + (if isAnswered st then 1 else 0).

Definition correctable (questions : list value) : nat :=
  List.length (filter hasCorrectOption questions).

End QuizFacts.

(* ===================================================================== *)
(** ** components/AddLandmarkModal.tsx                                    *)
(* ===================================================================== *)

Module AddLandmarkModal.

(** The fields of the form. *)
Record Form : Type := mkForm {
  formName : string;
  formDescription : string;
  formImageUrl : string;
  formVideoUrl : string;
  formAudioUrl : string;
  formIconType : string
}.

Section WithRuntime.
Variable rt : Runtime.

(** [handleSave]: the alert it shows, or the landmark data it passes to
    [onSave] (without id and coordinates); [now] is [Date.now()]. *)
Definition handleSave (now : float) (f : Form) : string + Landmark :=
  if blank (formName f) || blank (formDescription f) then
    inl "Please fill out the name and description."
  else
    inr {| id := VUndefined;
           coords := VUndefined;
           name := VStr (formName f);
           title := VStr (toUpperCase rt (formName f));
           description := VStr (formDescription f);
           aliases := VUndefined;
           imageUrl :=
             VStr (trim (formImageUrl f))
             ||| VStr ("https://picsum.photos/seed/"
                       ++ NumberToString rt now ++ "/1200/800")%string;
           videoUrl := VStr (trim (formVideoUrl f)) ||| VUndefined;
           audioUrl := VStr (trim (formAudioUrl f)) ||| VUndefined;
           iconType := VStr (formIconType f);
           quiz := VUndefined;
           block_navigation := VUndefined |}.

End WithRuntime.
End AddLandmarkModal.

(* ===================================================================== *)
(** ** components/AudioPlayer.tsx: volume and mute                        *)
(* ===================================================================== *)

Module AudioPlayer.

Record Volume : Type := mkVolume {
  volume : float;
  isMuted : bool;
  lastVolume : float
}.

Definition initialVolume : Volume :=
  {| volume := 1%float; isMuted := false; lastVolume := 1%float |}.

(** [handleVolumeChange]; [newVolume] is [parseFloat(e.target.value)]. *)
Definition handleVolumeChange (newVolume : float) (v : Volume) : Volume :=
  if PrimFloat.ltb 0%float newVolume
  then mkVolume newVolume false (lastVolume v)
  else mkVolume newVolume (isMuted v) (lastVolume v).

Definition toggleMute (v : Volume) : Volume :=
  let currentlyMuted := negb (isMuted v) in
  if currentlyMuted then mkVolume 0%float true (volume v)
  else
    mkVolume (if PrimFloat.ltb 0%float (lastVolume v) then lastVolume v
              else 0.5%float)
      false (lastVolume v).

Inductive VolumeEvent : Type :=
| Slider (newVolume : float)
| MuteButton.

Definition volumeStep (v : Volume) (e : VolumeEvent) : Volume :=
  match e with
  | Slider newVolume => handleVolumeChange newVolume v
  | MuteButton => toggleMute v
  end.

End AudioPlayer.

(* ===================================================================== *)
(** ** Records read back from storage                                     *)
(* ===================================================================== *)

(** [item] is an object that reads like [record]: every property read on
    it gives what the same read gives on [record].  A record written with
    [JSON.stringify] and read back with [JSON.parse] reads like the record
    written when its numbers are finite: the properties holding
    [undefined] are left out of the text, and read as [undefined]. *)
Definition readsLike (item record : value) : Prop :=
  is_object item = true
  /\ is_null item = false
  /\ forall k, prop item k = prop record k.

(* ===================================================================== *)
(** ** The GeminiChat component: sending a message                        *)
(* ===================================================================== *)

Module GeminiChat.

Inductive Role : Type := User | Model.

Record Message : Type := mkMessage {
  role : Role;
  text : string
}.

Definition isModel (r : Role) : bool :=
  match r with Model => true | User => false end.

(** The state of the component that [sendMessage] touches. *)
Record State : Type := mkState {
  conversation : list Message;
  isLoading : bool;
  error : option string
}.

(** A thrown value: an [Error] with its message, or something else. *)
Inductive Thrown : Type :=
| ErrorInstance (message : string)
| OtherValue.

(** The response stream of one request: the [text] of each chunk
    ([None] for [undefined]), until the stream ends or fails. *)
Inductive Stream : Type :=
| Done
| Failed (e : Thrown)
| Chunk (chunkText : option string) (rest : Stream).

(** The environment of a request: whether [process.env.API_KEY] is set,
    and what [generateContentStream] does with a system instruction and
    the contents. *)
Record Api : Type := {
  hasKey : bool;
  generateContentStream : string -> string -> Thrown + Stream
}.

Definition setConversation (c : list Message) (st : State) : State :=
  mkState c (isLoading st) (error st).
Definition setIsLoading (b : bool) (st : State) : State :=
  mkState (conversation st) b (error st).
Definition setError (e : option string) (st : State) : State :=
  mkState (conversation st) (isLoading st) e.

(** The updater of the streaming loop: the text of the last message is
    replaced when that message is the model's. *)
Fixpoint updateLast (fullResponse : string) (prev : list Message)
  : list Message :=
  match prev with
  | [] => []
  | [lastMessage] =>
      if isModel (role lastMessage)
      then [mkMessage (role lastMessage) fullResponse]
      else [lastMessage]
  | m :: rest => m :: updateLast fullResponse rest
  end.

(** The updater of the [catch] block: an empty message of the model at the
    end is dropped. *)
Definition dropPlaceholder (prev : list Message) : list Message :=
  match rev prev with
  | lastMessage :: _ =>
      if isModel (role lastMessage) && is_empty_string (text lastMessage)
      then removelast prev
      else prev
  | [] => prev
  end.

(** [if (chunkText)] *)
Definition hasText (chunkText : option string) : bool :=
  match chunkText with
  | Some t => negb (is_empty_string t)
  | None => false
  end.

Definition textOf (chunkText : option string) : string :=
  match chunkText with Some t => t | None => "" end.

(** The [for await] loop: the state after it, and what it threw. *)
Fixpoint consume (stream : Stream) (fullResponse : string) (st : State)
  : State * option Thrown :=
  match stream with
  | Done => (st, None)
  | Failed e => (st, Some e)
  | Chunk chunkText rest =>
      if hasText chunkText then
        let fullResponse := (fullResponse ++ textOf chunkText)%string in
        consume rest fullResponse
          (setConversation (updateLast fullResponse (conversation st)) st)
      else consume rest fullResponse st
  end.

Definition errorMessage (err : Thrown) : string :=
  match err with
  | ErrorInstance message => message
  | OtherValue => "An unknown error occurred."
  end.

Section WithRuntime.
Variable rt : Runtime.

(** The template literal of the system instruction, which converts
    [landmark.name] to a string. *)
Definition systemInstruction (landmark : Landmark) : result string :=
  printed <- ToString rt (name landmark) ;;
  Ok ("You are an expert and friendly tour guide for Jordan. The user is asking about the landmark "
      ++ String (ascii_of_nat 34) printed
      ++ String (ascii_of_nat 34)
           ". Answer their question concisely and helpfully.")%string.

(** [sendMessage], run to its end with no other update of the component
    in between. *)
Definition sendMessage (api : Api) (landmark : Landmark)
  (messageText : string) (st : State) : State :=
  if blank messageText || isLoading st then st
  else
    let userMessage := mkMessage User messageText in
    let st1 :=
      setError None
        (setIsLoading true
           (setConversation (conversation st ++ [userMessage]) st)) in
    let tried : State * option Thrown :=
      if negb (hasKey api) then
        (st1, Some (ErrorInstance "API_KEY environment variable not set."))
      else
        match systemInstruction landmark with
        | Throw e => (st1, Some (ErrorInstance (JS.message e)))
        | Ok instruction =>
            match generateContentStream api instruction messageText with
            | inl err => (st1, Some err)
            | inr responseStream =>
                consume responseStream ""
                  (setConversation (conversation st1 ++ [mkMessage Model ""])
                     st1)
            end
        end in
    let st2 :=
      match snd tried with
      | None => fst tried
      | Some err =>
          let st' :=
            setError
              (Some ("Sorry, I couldn't get an answer. " ++ errorMessage err)%string)
              (fst tried) in
          setConversation (dropPlaceholder (conversation st')) st'
      end in
    setIsLoading false st2.

End WithRuntime.

(** The text received from a stream before it ends or fails, after
    [fullResponse]. *)
Fixpoint received (stream : Stream) (fullResponse : string) : string :=
  match stream with
  | Done | Failed _ => fullResponse
  | Chunk chunkText rest =>
      received rest
        (if hasText chunkText then (fullResponse ++ textOf chunkText)%string
         else fullResponse)
  end.

(** How a stream ends. *)
Fixpoint failure (stream : Stream) : option Thrown :=
  match stream with
  | Done => None
  | Failed e => Some e
  | Chunk _ rest => failure rest
  end.

End GeminiChat.

(* ===================================================================== *)
(** ** Data on which the conversions return                               *)
(* ===================================================================== *)

(** A value on which [String] and [Number] return: none of its objects has
    an own property [toString], and none had its prototype replaced.  What
    [JSON.parse] builds from a text without the key "toString" is of this
    kind. *)
Fixpoint printable (v : value) : bool :=
  match v with
  | VArr xs => forallb printable xs
  | VObj kvs =>
      negb (has_key "toString" kvs)
      && forallb (fun kv => printable (snd kv)) kvs
  | VObjP _ _ => false
  | _ => true
  end.

(* ===================================================================== *)
(** ** More concrete inputs                                               *)
(* ===================================================================== *)

Module MoreExamples.
Import App Props.

(** [Next], its two timeouts, [Previous] and a jump to the landmark with
    id 1. *)
Definition someEvents : list NavEvent :=
  [ Pressed Next; TimerFired; TimerFired;
    Pressed Previous; Pressed (JumpTo (VNum 1%float)) ].

(** A tour of four, viewed at index 2 just after [Next] was pressed: the
    slide to index 3 is in flight. *)
Definition slidingToThree : AppState :=
  handleNext Examples.runtime
    (Examples.viewing
       [Examples.intro; Examples.plainLandmark; Examples.plainLandmark;
        Examples.plainLandmark] 2).

(** A state in which the add-landmark dialog holds coordinates. *)
Definition adding : AppState :=
  setModalCoords (Some (30%float, 35%float))
    (Examples.viewing [Examples.intro; Examples.gatedLandmark] 0).


(** A quiz of two questions; the second has no option marked correct, as
    a question has whose correct answer matched none of its options. *)
Definition twoQuestions : list value :=
  [ mkQuestion (VStr "Q1") "true-false"
      [ mkOption (VStr "True") true; mkOption (VStr "False") false ];
    mkQuestion (VStr "Q2") "multiple-choice"
      [ mkOption (VStr "A") false; mkOption (VStr "B") false ] ].

(** A whole session on two questions: select, check and go on, twice, then
    continue. *)
Definition fullSession : list QuizModal.Button :=
  [ QuizModal.OptionButton 0; QuizModal.CheckAnswerButton;
    QuizModal.NextButton;
    QuizModal.OptionButton 1; QuizModal.CheckAnswerButton;
    QuizModal.NextButton;
    QuizModal.ContinueButton ].


(** The add-landmark form filled in with a name and a description only. *)
Definition cafeForm : AddLandmarkModal.Form :=
  {| AddLandmarkModal.formName := "Cafe";
     AddLandmarkModal.formDescription := "Good coffee";
     AddLandmarkModal.formImageUrl := " ";
     AddLandmarkModal.formVideoUrl := "";
     AddLandmarkModal.formAudioUrl := "";
     AddLandmarkModal.formIconType := "monument" |}.

(** What the form above and the dialog of [adding] save at time 7. *)
Definition cafe : Landmark :=
  {| id := VNum 7%float;
     coords := VArr [VNum 30%float; VNum 35%float];
     name := VStr "Cafe";
     title := VStr "CAFE";
     description := VStr "Good coffee";
     aliases := VUndefined;
     imageUrl := VStr "https://picsum.photos/seed/0/1200/800";
     iconType := VStr "monument";
     videoUrl := VUndefined;
     audioUrl := VUndefined;
     quiz := VUndefined;
     block_navigation := VUndefined |}.


(** An API with a key whose stream delivers "Pet" and "ra", then fails. *)
Definition brokenStream : GeminiChat.Api :=
  {| GeminiChat.hasKey := true;
     GeminiChat.generateContentStream := fun _ _ =>
       inr (GeminiChat.Chunk (Some "Pet")
              (GeminiChat.Chunk None
                 (GeminiChat.Chunk (Some "ra")
                    (GeminiChat.Failed GeminiChat.OtherValue)))) |}.

(** A conversation with one exchange. *)
Definition chatting : GeminiChat.State :=
  {| GeminiChat.conversation :=
       [ GeminiChat.mkMessage GeminiChat.User "Hi";
         GeminiChat.mkMessage GeminiChat.Model "Hello" ];
     GeminiChat.isLoading := false;
     GeminiChat.error := None |}.

(** A landmark as the remote-artifact coercer emits it from a record
    whose title is an object with the own property [toString]. *)
Definition unprintable : Landmark :=
  {| id := VNum 1%float;
     name := VObj [("toString", VNum 1%float)];
     title := VObj [("toString", VNum 1%float)];
     description := VUndefined; aliases := VArr [VUndefined];
     imageUrl := VStr DataTransform.placeholder_image;
     coords := VUndefined; iconType := VStr "monument";
     videoUrl := VUndefined; audioUrl := VUndefined; quiz := VUndefined;
     block_navigation := VUndefined |}.

End MoreExamples.

(* ===================================================================== *)
(** ** Properties                                                         *)
(* ===================================================================== *)

Import App Quiz DataTransform Spec.

(** *** Quiz transformations (true/false questions) *)

Section TrueFalse.
Variable rt : Runtime.

Lemma transformQuestion_true_false (kvs : list (string * value)) (a : string) :
  lookup "type" kvs = VStr "true_false" ->
  lookup "answer" kvs = VStr a ->
  transformQuestion rt (VObj kvs)
  = Ok (Some (mkQuestion (lookup "text" kvs) "true-false"
                [ mkOption (VStr "True")
                    (String.eqb (toLowerCase rt a) "true");
                  mkOption (VStr "False")
                    (String.eqb (toLowerCase rt a) "false") ])).
Proof.
  intros Htype Hans.
  unfold transformQuestion; cbn [get prop bind].
  rewrite Htype; cbn [strict_eq String.eqb Ascii.eqb Bool.eqb].
  rewrite Hans; reflexivity.
Qed.


End TrueFalse.

(** C6.  An uploaded record whose [questions] field is
    [[{text: "Q", type: "true_false", answer: "True"}]] gets exactly one quiz
    question, with the options [{True, correct}] and [{False, not correct}]:
    this is what [transformUploadedQuiz] returns on that field, and it is
    the [quiz] of every landmark the upload coercer builds from such a
    record.  The builder-format parser [transformQuestion] is insensitive to
    the case of [answer]: every answer that lower-cases to "true" (among
    them "True", "TRUE" and "true") yields the same two options. *)
Theorem C6_true_false_parsing (rt : Runtime) :
  transformUploadedQuiz rt (VArr [Examples.scenarioC "True"])
  = Ok Examples.trueFalseQuiz
  /\ (forall now index kvs l,
         lookup "questions" kvs = VArr [Examples.scenarioC "True"] ->
         uploadItem rt now (VObj kvs) index = Ok (Some l) ->
         quiz l = Examples.trueFalseQuiz)
  /\ (forall kvs a,
         lookup "type" kvs = VStr "true_false" ->
         lookup "answer" kvs = VStr a ->
         toLowerCase rt a = "true" ->
         transformQuestion rt (VObj kvs)
         = Ok (Some (mkQuestion (lookup "text" kvs) "true-false"
                       [ mkOption (VStr "True") true;
                         mkOption (VStr "False") false ])))
  /\ (toLowerCase rt "True" = "true" /\ toLowerCase rt "TRUE" = "true"
      /\ toLowerCase rt "true" = "true").
Proof.
  split; [reflexivity|].
  split.
  - intros now index kvs l Hq Hitem.
    unfold uploadItem in Hitem.
    cbn [is_object is_null negb orb get prop bind] in Hitem.
    destruct (lookup "name" kvs ||| lookup "city" kvs ||| lookup "title" kvs)
      as [| | | |n| | | |]; try discriminate.
    destruct (blank n); [discriminate|].
    destruct (processCoords rt _) as [[c|]|]; cbn [bind] in Hitem;
      try discriminate.
    rewrite Hq in Hitem.
    injection Hitem as <-. reflexivity.
  - split.
    + intros kvs a Htype Hans Hlow.
      rewrite (transformQuestion_true_false rt kvs a Htype Hans), Hlow.
      reflexivity.
    + repeat split.
Qed.

(** The scenario on a complete uploaded record, and the builder parser on
    the spelling "TRUE". *)
Lemma C6_true_false_parsing_witness :
  (exists l,
      uploadItem Examples.runtime 0%float (VObj Examples.petraUpload) 0
      = Ok (Some l)
      /\ quiz l = Examples.trueFalseQuiz)
  /\ transformQuestion Examples.runtime (Examples.scenarioC "TRUE")
     = Ok (Some (mkQuestion (VStr "Q") "true-false"
                   [ mkOption (VStr "True") true;
                     mkOption (VStr "False") false ])).
Proof.
  destruct (C6_true_false_parsing Examples.runtime) as [_ [Hup [Hb _]]].
  split.
  - eexists; split; [reflexivity|].
    eapply (Hup 0%float 0 Examples.petraUpload); reflexivity.
  - exact (Hb [("text", VStr "Q"); ("type", VStr "true_false");
               ("answer", VStr "TRUE")] "TRUE" eq_refl eq_refl eq_refl).
Defined.




(** *** Quiz submission *)

(** C5, as stated, fails on the address: for the query string
    [?token=t&artifact_id=7&base_url=https://h/] the request goes to
    [https://h/organization/results/artifact/7/submission/], which is not the
    address the statement gives. *)
Lemma C5_counterexample :
  map url (fst (QuizSubmission.submitQuizResults Examples.runtime
                  Examples.query Examples.offline VNull))
  = ["https://h/organization/results/artifact/7/submission/"]
  /\ "https://h/organization/results/artifact/7/submission/"
     <> statedSubmissionUrl "https://h" "7".
Proof.
  split; [reflexivity | discriminate].
Qed.

(** C5, amended.  When the three session parameters are present,
    [submitQuizResults] sends exactly one request: a POST to
    [{base_url}/organization/results/artifact/{artifact_id}/submission/]
    with bearer authorization and the body [{ artifacts: parseInt of the
    artifact id, content: the JSON text of the summary, status:
    "submitted" }]; it resolves to [true] when the response is ok and to
    [false] on a response that is not ok or a failed request.  When a
    parameter is missing it sends nothing and resolves to [false].  It never
    throws. *)
Theorem C5_submitQuizResults (rt : Runtime) (search : string -> option string)
  (fetch : Request -> result Response) (submissionData : value) :
  let urlParams := UrlParams.getURLParams search in
  let outcome :=
    QuizSubmission.submitQuizResults rt search fetch submissionData in
  (UrlParams.hasRequiredParams urlParams = true ->
     exists base_url artifact_id token request,
       UrlParams.baseUrl urlParams = Some base_url
       /\ UrlParams.artifactId urlParams = Some artifact_id
       /\ UrlParams.token urlParams = Some token
       /\ request
          = {| url := (base_url ++ "/organization/results/artifact/"
                       ++ artifact_id ++ "/submission/")%string;
               method := "POST";
               headers :=
                 [ ("Accept", "application/json, text/plain, */*");
                   ("Authorization", ("Bearer " ++ token)%string);
                   ("Content-Type", "application/json") ];
               body :=
                 Some (JSON_stringify rt
                         (VObj [ ("artifacts",
                                  VNum (parseInt rt artifact_id));
                                 ("content",
                                  VStr (JSON_stringify rt submissionData));
                                 ("status", VStr "submitted") ])) |}
       /\ outcome
          = ([request],
             Ok (match fetch request with
                 | Ok response => ok response
                 | Throw _ => false
                 end)))
  /\ (UrlParams.hasRequiredParams urlParams = false ->
        outcome = ([], Ok false))
  /\ exists b, snd outcome = Ok b.
Proof.
  cbv zeta.
  unfold QuizSubmission.submitQuizResults.
  set (p := UrlParams.getURLParams search).
  replace (negb (UrlParams.present (UrlParams.token p))
           || negb (UrlParams.present (UrlParams.artifactId p))
           || negb (UrlParams.present (UrlParams.baseUrl p)))
    with (negb (UrlParams.hasRequiredParams p))
    by (unfold UrlParams.hasRequiredParams;
        destruct (UrlParams.present (UrlParams.token p)),
          (UrlParams.present (UrlParams.artifactId p)),
          (UrlParams.present (UrlParams.baseUrl p)); reflexivity).
  destruct (UrlParams.hasRequiredParams p) eqn:Hreq; cbn [negb].
  - assert (Hout :
      forall request,
        match (response <- fetch request ;;
               if negb (ok response)
               then
                 printed <- ToString rt (status response) ;;
                 Throw (Error ("HTTP error! status: " ++ printed)%string)
               else Ok true) with
        | Ok b => Ok b
        | Throw _ => Ok false
        end
        = Ok (match fetch request with
              | Ok response => ok response
              | Throw _ => false
              end)).
    { intros request. destruct (fetch request) as [resp|e]; cbn [bind];
        [destruct (ok resp); cbn [negb];
         [|destruct (ToString rt (status resp))]|]; reflexivity. }
    rewrite Hout.
    split; [intros _|split; [discriminate|cbn [snd]; eauto]].
    unfold UrlParams.hasRequiredParams in Hreq.
    apply andb_prop in Hreq as [Hreq Hb]. apply andb_prop in Hreq as [Ht Ha].
    unfold QuizSubmission.submissionRequest.
    destruct (UrlParams.token p) as [tok|]; [|discriminate].
    destruct (UrlParams.artifactId p) as [aid|]; [|discriminate].
    destruct (UrlParams.baseUrl p) as [base|]; [|discriminate].
    exists base, aid, tok. eexists.
    repeat (split; [reflexivity|]). reflexivity.
  - split; [discriminate|split; [reflexivity|cbn [snd]; eauto]].
Qed.

(** A server that answers 500, and a query string without a token. *)
Lemma C5_submitQuizResults_witness :
  QuizSubmission.submitQuizResults Examples.runtime Examples.query
    Examples.failingServer VNull
  = ([ QuizSubmission.submissionRequest Examples.runtime
         (UrlParams.getURLParams Examples.query) VNull ],
     Ok false)
  /\ QuizSubmission.submitQuizResults Examples.runtime (fun _ => None)
       Examples.failingServer VNull
     = ([], Ok false).
Proof.
  split.
  - destruct (C5_submitQuizResults Examples.runtime Examples.query
                Examples.failingServer VNull) as [H _].
    destruct (H eq_refl) as (b & a & t & r & Hb & Ha & Ht & Hr & Hout).
    injection Hb as <-. injection Ha as <-. injection Ht as <-.
    subst r. exact Hout.
  - exact (proj1 (proj2 (C5_submitQuizResults Examples.runtime (fun _ => None)
                           Examples.failingServer VNull)) eq_refl).
Defined.

(** *** Key Normalizer *)

Lemma has_key_app (k : string) (a b : list (string * value)) :
  has_key k (a ++ b) = has_key k a || has_key k b.
Proof.
  induction a as [|[k' v] a IH]; cbn; [reflexivity|].
  rewrite IH, orb_assoc. reflexivity.
Qed.

Lemma obj_set_fresh (acc : list (string * value)) (k : string) (v : value) :
  has_key k acc = false -> obj_set acc k v = acc ++ [(k, v)].
Proof.
  induction acc as [|[k' v'] acc IH]; cbn; [reflexivity|].
  intros H. apply orb_false_elim in H as [Hk Hrest].
  rewrite Hk, (IH Hrest). reflexivity.
Qed.

Lemma memb_false_has_key (k : string) (kvs : list (string * value))
  (f : string -> string) :
  memb k (map (fun kv => f (fst kv)) kvs) = false ->
  forallb (fun kv => negb (String.eqb (f (fst kv)) k)) kvs = true.
Proof.
  induction kvs as [|[k' v] kvs IH]; cbn; [reflexivity|].
  intros H. apply orb_false_elim in H as [Hk Hrest].
  rewrite String.eqb_sym, Hk, (IH Hrest). reflexivity.
Qed.

(** On keys that stay distinct, the fold of [normalizeKeys] appends one
    renamed property per property of the input, in order. *)
Lemma normalize_fold_distinct (rt : Runtime) (g : value -> value)
  (kvs acc : list (string * value)) :
  forallb (fun kv => negb (String.eqb (lowerFirst rt (fst kv)) "__proto__"))
    kvs = true ->
  distinct (map (fun kv => lowerFirst rt (fst kv)) kvs) = true ->
  forallb (fun kv => negb (has_key (lowerFirst rt (fst kv)) acc)) kvs = true ->
  fold_left (fun a kv => match kv with
                         | (key, v) => assign a (lowerFirst rt key) (g v)
                         end) kvs (VObj acc)
  = VObj (acc ++ map (fun kv => match kv with
                                | (key, v) => (lowerFirst rt key, g v)
                                end) kvs).
Proof.
  revert acc.
  induction kvs as [|[k v] kvs IH]; intros acc Hp Hd Hfresh; cbn.
  - rewrite app_nil_r. reflexivity.
  - cbn in Hp, Hd, Hfresh.
    apply andb_prop in Hp as [Hkp Hp], Hd as [Hk Hd], Hfresh as [Hka Hfresh].
    apply negb_true_iff in Hkp, Hk, Hka.
    unfold assign at 2. rewrite Hkp. cbn [andb set_own].
    rewrite (obj_set_fresh _ _ _ Hka), IH, <- app_assoc;
      [reflexivity|exact Hp|exact Hd|].
    pose proof (memb_false_has_key _ _ (lowerFirst rt) Hk) as Hne.
    clear - Hfresh Hne.
    induction kvs as [|[k' v'] kvs IH]; cbn in *; [reflexivity|].
    apply andb_prop in Hfresh as [H1 H2], Hne as [N1 N2].
    rewrite has_key_app; cbn.
    apply negb_true_iff in H1, N1.
    rewrite H1, N1, (IH H2 N2). reflexivity.
Qed.

Lemma normalizeKeys_lowerKeys (rt : Runtime) (x : value) :
  plainKeys rt x = true ->
  collisionFree rt x = true -> normalizeKeys rt x = lowerKeys rt x.
Proof.
  induction x as [| | | | | |xs IH|kvs IH|proto kvs _ _]
    using value_nested_ind;
    try reflexivity;
    cbn [normalizeKeys lowerKeys collisionFree plainKeys]; intros Hp H;
    [| |discriminate Hp].
  - f_equal. induction IH as [|x xs Hx _ IHxs]; cbn in *; [reflexivity|].
    apply andb_prop in Hp as [P1 P2], H as [H1 H2].
    rewrite (Hx P1 H1), (IHxs P2 H2). reflexivity.
  - apply andb_prop in H as [Hd Hall].
    rewrite normalize_fold_distinct; [| |exact Hd|].
    + cbn [app]. f_equal.
      induction IH as [|[k v] kvs Hx _ IHkvs]; cbn in *; [reflexivity|].
      apply andb_prop in Hd as [_ Hd], Hall as [H1 H2], Hp as [P1 P2].
      apply andb_prop in P1 as [_ P1].
      rewrite (Hx P1 H1), (IHkvs P2 Hd H2). reflexivity.
    + clear - Hp. induction kvs as [|[k v] kvs IHk]; cbn in *; [reflexivity|].
      apply andb_prop in Hp as [P1 P2]. apply andb_prop in P1 as [P1 _].
      rewrite P1, (IHk P2). reflexivity.
    + clear. induction kvs as [|[k v] kvs IHk]; cbn; auto.
Qed.

(** C8, as stated, fails: an object with the keys "Name" and "name" comes
    back with the single key "name" and the value of the later property; the
    pair that held "Petra" is lost, and the result is not the input with its
    keys renamed.  And an object with the own key "__proto__", as
    [JSON.parse] builds it from a text with that key, comes back without any
    own property: the assignment made the value the prototype of the
    result. *)
Lemma C8_counterexample :
  normalizeKeys Examples.runtime Examples.twoCases
  = VObj [("name", VStr "Amman")]
  /\ normalizeKeys Examples.runtime Examples.twoCases
     <> lowerKeys Examples.runtime Examples.twoCases
  /\ normalizeKeys Examples.runtime Examples.protoQuestion
     = VObjP (VObj [ ("question", VStr "Q"); ("type", VStr "true-false");
                     ("options", VArr []) ]) []
  /\ normalizeKeys Examples.runtime Examples.protoQuestion
     <> lowerKeys Examples.runtime Examples.protoQuestion.
Proof.
  split; [reflexivity|]. split; [discriminate|].
  split; [reflexivity|discriminate].
Qed.

(** C8, amended.  For every value as [JSON.parse] yields it in which no
    object has two keys that become the same key once their first character
    is lower-cased, nor a key that becomes "__proto__" (an assignment to
    that key replaces the prototype of the result and stores no property),
    [normalizeKeys] returns the structurally identical value in which every
    object key has its first character lower-cased, through arrays and
    nested objects: no property is lost and no property value other than by
    this renaming is changed.  On every value, primitives, [null],
    [undefined] and dates are returned as they are. *)
Theorem C8_normalizeKeys (rt : Runtime) (x : value) :
  (plainKeys rt x = true -> collisionFree rt x = true ->
   normalizeKeys rt x = lowerKeys rt x)
  /\ match x with
     | VArr _ | VObj _ | VObjP _ _ => True
     | _ => normalizeKeys rt x = x
     end.
Proof.
  split; [apply normalizeKeys_lowerKeys|].
  destruct x; exact I || reflexivity.
Qed.

(** A question with capitalised keys and a date. *)
Lemma C8_normalizeKeys_witness :
  normalizeKeys Examples.runtime Examples.capitalised
  = VObj [ ("question", VStr "Q");
           ("options",
            VArr [VObj [("text", VStr "A"); ("isCorrect", VBool true)]]);
           ("when", VDate 0%float) ].
Proof.
  rewrite (proj1 (C8_normalizeKeys Examples.runtime Examples.capitalised)
             eq_refl eq_refl).
  reflexivity.
Defined.

(** *** Legacy quiz parser *)

Lemma normalizeKeys_optionValues (rt : Runtime) (os : list QuizOption) :
  map (normalizeKeys rt) (map optionValue os) = map optionValue os.
Proof.
  induction os as [|o os IH]; cbn [map]; [reflexivity|].
  rewrite IH. reflexivity.
Qed.

Lemma normalizeKeys_questionValue (rt : Runtime) (q : QuizQuestion) :
  normalizeKeys rt (questionValue q) = questionValue q.
Proof.
  unfold questionValue, mkQuestion.
  cbn. rewrite normalizeKeys_optionValues. reflexivity.
Qed.

Lemma validOption_optionValues (os : list QuizOption) :
  forallb validOption (map optionValue os) = true.
Proof.
  induction os as [|o os IH]; cbn [map forallb]; [reflexivity|].
  rewrite IH. reflexivity.
Qed.

Lemma validQuestion_questionValue (q : QuizQuestion) :
  blank (question q) = false -> validQuestion (questionValue q) = true.
Proof.
  intros Hb. unfold validQuestion, questionValue, mkQuestion.
  cbn [is_object is_null negb orb prop lookup String.eqb Ascii.eqb Bool.eqb].
  rewrite Hb.
  destruct (type q); cbn; apply validOption_optionValues.
Qed.

(** C9, as stated, fails: a canonical quiz whose question text is a single
    space has a non-empty text, one of the two types and non-empty options,
    and the parser discards it. *)
Lemma C9_counterexample :
  Examples.blankQuiz <> []
  /\ Forall (fun q => question q <> "" /\ options q <> []) Examples.blankQuiz
  /\ parseAndValidateQuiz Examples.runtime (quizValue Examples.blankQuiz)
     = VUndefined
  /\ VUndefined <> quizValue Examples.blankQuiz.
Proof.
  split; [discriminate|].
  split; [repeat constructor; discriminate|].
  split; [reflexivity | discriminate].
Qed.

(** C9, amended.  For every non-empty canonical quiz in which the text of
    every question is not blank (not empty once white space is trimmed),
    whatever its types and options, the legacy parser returns the quiz
    itself. *)
Theorem C9_parseAndValidateQuiz_canonical (rt : Runtime)
  (qs : list QuizQuestion) :
  qs <> [] ->
  Forall (fun q => blank (question q) = false) qs ->
  parseAndValidateQuiz rt (quizValue qs) = quizValue qs.
Proof.
  intros Hne Hall.
  unfold parseAndValidateQuiz, quizValue.
  cbn [truthy negb].
  assert (Hn : normalizeKeys rt (VArr (map questionValue qs))
               = VArr (map questionValue qs)).
  { cbn [normalizeKeys]. f_equal.
    clear Hne Hall. induction qs as [|q qs IH]; cbn [map]; [reflexivity|].
    rewrite normalizeKeys_questionValue, IH. reflexivity. }
  rewrite Hn.
  assert (Hv : isValidQuizQuestionArray (VArr (map questionValue qs)) = true).
  { cbn [isValidQuizQuestionArray]. clear Hne Hn.
    induction Hall as [|q qs Hq _ IH]; cbn [map forallb]; [reflexivity|].
    rewrite (validQuestion_questionValue q Hq), IH. reflexivity. }
  rewrite Hv.
  destruct qs as [|q qs]; [contradiction|]. reflexivity.
Qed.

(** The quiz of scenario C. *)
Lemma C9_parseAndValidateQuiz_canonical_witness :
  parseAndValidateQuiz Examples.runtime Examples.trueFalseQuiz
  = Examples.trueFalseQuiz.
Proof.
  exact (C9_parseAndValidateQuiz_canonical Examples.runtime
           [ {| question := "Q"; type := TrueFalse;
                options := [ {| text := "True"; isCorrect := true |};
                             {| text := "False"; isCorrect := false |} ] |} ]
           ltac:(discriminate) ltac:(repeat constructor)).
Defined.

(** *** Landmark coercers *)

Lemma or_else_cases (a b : value) : or_else a b = a \/ or_else a b = b.
Proof. unfold or_else. destruct (truthy a); auto. Qed.

Lemma get_record (item : value) (k : string) :
  isRecord item = true -> get item k = Ok (prop item k).
Proof. destruct item; try discriminate; reflexivity. Qed.

Lemma not_record (item : value) :
  isRecord item = false -> negb (is_object item) || is_null item = true.
Proof. destruct item; try discriminate; reflexivity. Qed.

Lemma is_record (item : value) :
  isRecord item = true -> negb (is_object item) || is_null item = false.
Proof. destruct item; try discriminate; reflexivity. Qed.

(** The outcomes of the coordinate check. *)
Lemma processCoords_cases (rt : Runtime) (v : value) :
  match processCoords rt v with
  | Ok (Some _) => usableCoords rt v = true /\ convertibleCoords rt v = true
  | Ok None => usableCoords rt v = false /\ convertibleCoords rt v = true
  | Throw _ => usableCoords rt v = false /\ convertibleCoords rt v = false
  end.
Proof.
  unfold processCoords, usableCoords, convertibleCoords, finiteNumber,
    converts.
  destruct v as [| | | | | |[|c0 [|c1 [|c2 xs]]]| |]; try (split; reflexivity).
  destruct (negb (is_null c0) && negb (is_null c1)); cbn [andb];
    [|split; reflexivity].
  destruct (ToNumber rt c0) as [lat|e0]; cbn [bind]; [|split; reflexivity].
  destruct (ToNumber rt c1) as [lon|e1]; cbn [bind andb];
    [|rewrite andb_false_r; split; reflexivity].
  destruct (isFinite lat), (isFinite lon); split; reflexivity.
Qed.

Lemma processCoords_unusable (rt : Runtime) (v : value) :
  usableCoords rt v = false ->
  processCoords rt v = Ok None
  \/ exists e, processCoords rt v = Throw e.
Proof.
  intros H. pose proof (processCoords_cases rt v) as Hc.
  destruct (processCoords rt v) as [[c|]|e]; [|left; reflexivity|eauto].
  destruct Hc as [Hu _]. congruence.
Qed.

Lemma processCoords_convertible (rt : Runtime) (v : value) (e : exn) :
  processCoords rt v = Throw e -> convertibleCoords rt v = false.
Proof.
  intros H. pose proof (processCoords_cases rt v) as Hc.
  rewrite H in Hc. exact (proj2 Hc).
Qed.

Lemma unusable_name_rejected {A : Type} (v : value) (k : string -> result A)
  (none : result A) :
  usableName v = false ->
  match v with
  | VStr n => if blank n then none else k n
  | _ => none
  end = none.
Proof.
  destruct v; try reflexivity. cbn. intros H.
  apply negb_false_iff in H. rewrite H. reflexivity.
Qed.

Lemma uploadItem_lacking (rt : Runtime) (now : float) (item : value)
  (index : nat) :
  uploadLacksRequired rt item ->
  uploadItem rt now item index = Ok None
  \/ exists e,
       uploadItem rt now item index = Throw e
       /\ processCoords rt (prop item "coords" ||| prop item "coordinates")
          = Throw e.
Proof.
  unfold uploadLacksRequired, uploadItem.
  destruct (isRecord item) eqn:Hrec;
    [|intros _; rewrite (not_record item Hrec); left; reflexivity].
  rewrite (is_record item Hrec), !(get_record item _ Hrec). cbn [bind].
  intros [H|[(H1 & H2 & H3)|(C1 & C2)]]; [discriminate H| |].
  - left. apply (unusable_name_rejected _ _ (Ok None)).
    destruct (or_else_cases (prop item "name" ||| prop item "city")
                (prop item "title")) as [->| ->]; [|exact H3].
    destruct (or_else_cases (prop item "name") (prop item "city"))
      as [->| ->]; assumption.
  - destruct (prop item "name" ||| prop item "city" ||| prop item "title");
      try (left; reflexivity).
    destruct (blank s); [left; reflexivity|].
    assert (Hraw : usableCoords rt
                     (prop item "coords" ||| prop item "coordinates") = false)
      by (destruct (or_else_cases (prop item "coords")
                      (prop item "coordinates")) as [->| ->]; assumption).
    destruct (processCoords_unusable rt _ Hraw) as [->|[e He]];
      [left; reflexivity|].
    right. exists e. rewrite He. split; reflexivity.
Qed.





Lemma map_from_length {A : Type} (f : value -> nat -> result A)
  (xs : list value) (i : nat) (ys : list A) :
  map_from f i xs = Ok ys -> List.length ys = List.length xs.
Proof.
  revert i ys. induction xs as [|x xs IH]; intros i ys; cbn [map_from].
  - intros [= <-]. reflexivity.
  - destruct (f x i) as [y|e]; cbn [bind]; [|discriminate].
    destruct (map_from f (S i) xs) as [r|e] eqn:Hr; cbn [bind]; [|discriminate].
    intros [= <-]. cbn. rewrite (IH _ _ Hr). reflexivity.
Qed.





(** The dataset coercer calls [toUpperCase] on [item.city] without a test:
    a row with coordinates and no city makes it throw (the loader catches
    the error and uses the built-in tour). *)
Remark datasetItem_without_city_throws :
  datasetItem Examples.runtime Examples.noCity 0
  = Throw (TypeError "cannot read properties of null or undefined").
Proof. reflexivity. Qed.



(** *** Upload of a batch without a valid record *)

Lemma map_from_none_emitted (f : value -> nat -> result (option Landmark))
  (items : list value) :
  (forall i, Forall (fun item => forall l, f item i <> Ok (Some l)) items) ->
  forall i,
    (exists mapped,
        map_from f i items = Ok mapped /\ filter_not_null mapped = [])
    \/ exists e, map_from f i items = Throw e.
Proof.
  intros Hall.
  induction items as [|item items IH]; intros i; cbn [map_from].
  - left. exists []. split; reflexivity.
  - assert (Hrest : forall j,
               Forall (fun it => forall l, f it j <> Ok (Some l)) items).
    { intros j. specialize (Hall j). inversion Hall; assumption. }
    specialize (Hall i). inversion Hall as [|? ? Hitem _]; subst.
    destruct (f item i) as [[l|]|e]; cbn [bind];
      [exfalso; exact (Hitem l eq_refl)| |right; eauto].
    destruct (IH Hrest (S i)) as [(mapped & -> & Hnone)|[e ->]]; cbn [bind].
    + left. exists (None :: mapped). split; [reflexivity|exact Hnone].
    + right. eauto.
Qed.

Lemma map_from_all_excluded (f : value -> nat -> result (option Landmark))
  (items : list value) :
  (forall i, Forall (fun item => f item i = Ok None) items) ->
  forall i, exists mapped,
    map_from f i items = Ok mapped /\ filter_not_null mapped = [].
Proof.
  intros Hall.
  induction items as [|item items IH]; intros i; cbn [map_from].
  - exists []. split; reflexivity.
  - assert (Hrest : forall j, Forall (fun it => f it j = Ok None) items).
    { intros j. specialize (Hall j). inversion Hall; assumption. }
    specialize (Hall i). inversion Hall as [|? ? Hitem _]; subst.
    rewrite Hitem. cbn [bind].
    destruct (IH Hrest (S i)) as (mapped & -> & Hnone).
    exists (None :: mapped). split; [reflexivity|exact Hnone].
Qed.

(** C3.  When the uploaded text parses to an array in which every record
    lacks a usable name or usable coordinates, [handleFileChange] shows one
    message and returns the state it was given: the landmarks, the active
    index and the sidebar index are what they were.  The message is the
    "no valid landmarks" one, or, when [Number] throws on a coordinate, the
    "could not load" one; it is the first whenever the coordinates of every
    record can be converted. *)
Theorem C3_upload_without_valid_record (rt : Runtime) (consts : Constants)
  (now : float) (text : string) (items : list value) (st : AppState) :
  text <> "" ->
  JSON_parse rt text = Ok (VArr items) ->
  Forall (uploadLacksRequired rt) items ->
  exists shown,
    handleFileChange rt consts now text st = (st, [shown])
    /\ (shown = noValidLandmarksMessage
        \/ exists e, shown = couldNotLoadMessage e)
    /\ (Forall (fun item =>
                  convertibleCoords rt
                    (prop item "coords" ||| prop item "coordinates") = true)
          items ->
        shown = noValidLandmarksMessage).
Proof.
  intros Htext Hparse Hall.
  unfold handleFileChange.
  destruct text as [|c text]; [contradiction|]. cbn [is_empty_string].
  rewrite Hparse. cbn [bind]. unfold coerceAll.
  destruct (map_from_none_emitted (uploadItem rt now) items) with (i := 0)
    as [(mapped & Hmapped & Hnone)|[e He]].
  - intros i. apply Forall_impl with (2 := Hall).
    intros item Hitem l Hl.
    destruct (uploadItem_lacking rt now item i Hitem) as [H|(e & H & _)];
      congruence.
  - rewrite Hmapped. cbn [bind]. rewrite Hnone.
    exists noValidLandmarksMessage. split; [reflexivity|].
    split; [left; reflexivity|intros _; reflexivity].
  - rewrite He. cbn [bind].
    exists (couldNotLoadMessage e). split; [reflexivity|].
    split; [right; eauto|].
    intros Hconv. exfalso.
    destruct (map_from_all_excluded (uploadItem rt now) items) with (i := 0)
      as (mapped & Hmapped & _); [|congruence].
    intros i. rewrite Forall_forall in Hall, Hconv |- *.
    intros item Hin.
    destruct (uploadItem_lacking rt now item i (Hall item Hin))
      as [H|(e' & _ & H)]; [exact H|].
    specialize (Hconv item Hin).
    rewrite (processCoords_convertible rt _ e' H) in Hconv.
    discriminate Hconv.
Qed.

(** The file [[null, {}]] uploaded while the second landmark is viewed. *)
Lemma C3_upload_without_valid_record_witness :
  handleFileChange Examples.runtime Examples.constants 0%float "[null, {}]"
    (Examples.viewing [Examples.intro; Examples.gatedLandmark] 1)
  = (Examples.viewing [Examples.intro; Examples.gatedLandmark] 1,
     [noValidLandmarksMessage]).
Proof.
  destruct (C3_upload_without_valid_record Examples.runtime
              Examples.constants 0%float "[null, {}]" [VNull; VObj []]
              (Examples.viewing [Examples.intro; Examples.gatedLandmark] 1))
    as (shown & Hrun & _ & Hshown).
  - discriminate.
  - reflexivity.
  - constructor; [left; reflexivity|].
    constructor; [right; left; repeat split; reflexivity|constructor].
  - rewrite Hrun, Hshown; [reflexivity|].
    repeat constructor.
Defined.

(** *** The intro landmark heads every tour *)

Lemma landmarks_focusEffect (st : AppState) :
  landmarks (focusEffect st) = landmarks st.
Proof.
  unfold focusEffect.
  destruct (truthy (justAddedLandmarkId st)
            && negb (Nat.eqb (List.length (landmarks st)) 0)); [|reflexivity].
  destruct (negb (findIndex (justAddedLandmarkId st) (landmarks st) =? -1)%Z);
    reflexivity.
Qed.

Lemma loadFromArtifact_headed (rt : Runtime) (consts : Constants) (env : Env)
  (tour : list Landmark) :
  loadFromArtifact rt consts env = Some tour -> headedByIntro consts tour.
Proof.
  unfold loadFromArtifact.
  destruct (UrlParams.hasRequiredParams _); [|discriminate].
  destruct (fetch env _) as [response|]; [|discriminate].
  destruct (ok response); [|discriminate].
  destruct (json response) as [data|]; [|discriminate].
  destruct (key_in "artifact_data" data) as [present|]; [|discriminate].
  destruct (present && _); [|discriminate].
  match goal with
  | |- match ?parsed with Ok _ => _ | Throw _ => _ end = _ -> _ =>
      destruct parsed as [[| | | | | |[|first more]| |]|]
  end; try discriminate.
  destruct (transformBuilderDataToLandmarks rt _) as [ls|]; [|discriminate].
  intros [= <-]. eexists; reflexivity.
Qed.

Lemma loadFromDataset_headed (rt : Runtime) (consts : Constants) (env : Env) :
  constantsSpec consts -> headedByIntro consts (loadFromDataset rt consts env).
Proof.
  intros (_ & _ & _ & Hfallback). unfold loadFromDataset.
  destruct (dataset env) as [[items|]|]; try exact Hfallback.
  destruct (truthy items); [|exact Hfallback].
  destruct (length_gt0 rt items) as [[|]|]; try exact Hfallback.
  destruct items; try exact Hfallback.
  destruct (coerceAll _ _); [|exact Hfallback].
  eexists; reflexivity.
Qed.

Lemma withOverlay_headed (rt : Runtime) (consts : Constants) (now : float)
  (env : Env) (base : list Landmark) :
  headedByIntro consts base ->
  headedByIntro consts (withOverlay rt now env base).
Proof.
  intros Hbase. unfold withOverlay.
  destruct (storedLocations env) as [s|]; [|exact Hbase].
  destruct (is_empty_string s); [exact Hbase|].
  destruct (JSON_parse rt s) as [parsed|]; [|exact Hbase].
  destruct parsed; try exact Hbase.
  destruct (coerceAll _ _) as [custom|]; [|exact Hbase].
  destruct Hbase as [rest ->]. eexists; reflexivity.
Qed.

Lemma landmarks_dispatch (rt : Runtime) (i : Intent) (st : AppState) :
  landmarks (dispatch rt i st) = landmarks st.
Proof.
  destruct i as [| |target]; cbn [dispatch].
  - unfold handleNext.
    destruct (isTransitioning st || Nat.eqb (List.length (landmarks st)) 0);
      [reflexivity|].
    destruct (at_index (landmarks st) (sidebarIndex st)) as [l|];
      [destruct (gated rt l) as [[|]|]|]; reflexivity.
  - unfold handlePrev.
    destruct (isTransitioning st || Nat.eqb (List.length (landmarks st)) 0);
      reflexivity.
  - unfold handleSelectLandmark.
    destruct (isTransitioning st); [reflexivity|].
    destruct (negb (findIndex target (landmarks st) =? -1)%Z
              && negb (findIndex target (landmarks st) =? sidebarIndex st)%Z);
      reflexivity.
Qed.

Lemma landmarks_quizComplete (st : AppState) :
  landmarks (quizComplete st) = landmarks st.
Proof.
  unfold quizComplete. destruct (onComplete (quizModalInfo st)); reflexivity.
Qed.

Lemma landmarks_fireTimer (st : AppState) :
  landmarks (fireTimer st) = landmarks st.
Proof.
  unfold fireTimer.
  destruct (earliest (timers st)) as [d|]; [|reflexivity].
  destruct (takeDue d (timers st)) as [[a rest]|]; [|reflexivity].
  destruct a; reflexivity.
Qed.

(** C4.  Given the intro landmark and the built-in tour that the
    specification describes for ./constants, every tour the loader produces
    (from the remote artifact, the dataset or the built-in fallback, with
    or without the stored overlay) is headed by the intro landmark, and so
    is the tour after a file upload and after a custom landmark is appended;
    the navigation handlers, quiz completion and timers leave the tour as it
    is.  The landmark at index 0 of such a tour has id 0, no quiz, and is
    never gated. *)
Theorem C4_intro_heads_every_tour (rt : Runtime) (consts : Constants) :
  constantsSpec consts ->
  (forall now env st,
      headedByIntro consts (loadData rt consts now env)
      /\ landmarks (mount rt consts now env st) = loadData rt consts now env)
  /\ (forall now text st,
        headedByIntro consts (landmarks st) ->
        headedByIntro consts
          (landmarks (fst (handleFileChange rt consts now text st))))
  /\ (forall now newLandmarkData st,
        headedByIntro consts (landmarks st) ->
        headedByIntro consts
          (landmarks (handleSaveLandmark rt now newLandmarkData st)))
  /\ (forall st i,
        landmarks (dispatch rt i st) = landmarks st
        /\ landmarks (quizComplete st) = landmarks st
        /\ landmarks (fireTimer st) = landmarks st)
  /\ (forall tour,
        headedByIntro consts tour ->
        exists l,
          at_index tour 0 = Some l
          /\ id l = VNum PrimFloat.zero
          /\ quiz l = VUndefined
          /\ truthy (block_navigation l) = false
          /\ gated rt l = Ok false).
Proof.
  intros Hspec.
  split; [|split; [|split; [|split]]].
  - intros now env st. unfold loadData, mount.
    destruct (loadFromArtifact rt consts env) as [tour|] eqn:Hart.
    + split; [exact (loadFromArtifact_headed _ _ _ _ Hart)|].
      rewrite landmarks_focusEffect. reflexivity.
    + split.
      * apply withOverlay_headed, loadFromDataset_headed, Hspec.
      * rewrite landmarks_focusEffect. reflexivity.
  - intros now text st Hst. unfold handleFileChange.
    match goal with
    | |- context [match ?p with Ok _ => _ | Throw _ => _ end] =>
        destruct p as [[|l ls]|e]
    end; cbn [fst]; try exact Hst.
    rewrite landmarks_focusEffect. eexists; reflexivity.
  - intros now data st Hst. unfold handleSaveLandmark.
    destruct (modalCoords st) as [c|]; [|exact Hst].
    rewrite landmarks_focusEffect. cbv zeta.
    match goal with
    | |- context [match ?w with Ok _ => _ | Throw _ => _ end] => destruct w
    end; cbn; destruct Hst as [rest ->]; eexists; reflexivity.
  - intros st i. split; [apply landmarks_dispatch|].
    split; [apply landmarks_quizComplete | apply landmarks_fireTimer].
  - intros tour [rest ->].
    destruct Hspec as (Hid & Hquiz & Hblock & _).
    exists (INTRO_LANDMARK consts). split; [reflexivity|].
    repeat (split; [assumption|]).
    unfold gated. rewrite Hid. reflexivity.
Qed.

(** The page opened without session parameters, dataset or stored
    landmarks: the built-in tour. *)
Lemma C4_intro_heads_every_tour_witness :
  constantsSpec Examples.constants
  /\ headedByIntro Examples.constants
       (loadData Examples.runtime Examples.constants 0%float Examples.bareEnv).
Proof.
  assert (H : constantsSpec Examples.constants).
  { repeat split. eexists; reflexivity. }
  split; [exact H|].
  exact (proj1 (proj1 (C4_intro_heads_every_tour Examples.runtime
                         Examples.constants H)
                  0%float Examples.bareEnv
                  (initialState None))).
Defined.

(** *** Navigation *)

Local Open Scope Z_scope.


Lemma nonempty_length (ls : list Landmark) :
  0 < len ls -> Nat.eqb (List.length ls) 0 = false.
Proof.
  unfold len. destruct ls; cbn [List.length]; [lia|reflexivity].
Qed.

Lemma fireTimer_first_of_two (st : AppState) (d1 d2 : nat)
  (a b : TimerAction) :
  timers st = [(d1, a); (d2, b)] ->
  (d1 < d2)%nat ->
  fireTimer st = runTimer a (setTimers [((d2 - d1)%nat, b)] st).
Proof.
  intros Ht Hlt. unfold fireTimer. rewrite Ht. cbn [earliest].
  destruct (Nat.ltb_spec d2 d1); [lia|].
  cbn [takeDue]. rewrite Nat.eqb_refl. reflexivity.
Qed.

Lemma fireTimer_only (st : AppState) (d : nat) (a : TimerAction) :
  timers st = [(d, a)] ->
  fireTimer st = runTimer a (setTimers [] st).
Proof.
  intros Ht. unfold fireTimer. rewrite Ht. cbn [earliest takeDue].
  rewrite Nat.eqb_refl. reflexivity.
Qed.

(** A slide started at rest is over after its two timeouts: the sidebar
    shows the target and navigation is enabled again. *)
Lemma slide_settles (st : AppState) (target : Z) (animation : string) :
  timers st = [((400)%nat, SwapSidebar target animation);
               ((800)%nat, EndTransition)] ->
  let settled := fireTimer (fireTimer st) in
  sidebarIndex settled = target
  /\ activeIndex settled = activeIndex st
  /\ isTransitioning settled = false
  /\ timers settled = [].
Proof.
  intros Ht. cbv zeta.
  rewrite (fireTimer_first_of_two st _ _ _ _ Ht) by lia.
  rewrite (fireTimer_only _ ((800 - 400)%nat) EndTransition) by reflexivity.
  repeat split.
Qed.

Lemma handleNext_ungated (rt : Runtime) (st : AppState) :
  isTransitioning st = false ->
  0 < len (landmarks st) ->
  (forall l, at_index (landmarks st) (sidebarIndex st) = Some l ->
             gated rt l = Ok false) ->
  handleNext rt st = transition (sidebarIndex st) (len (landmarks st)) st.
Proof.
  intros Htr Hlen Hgate. unfold handleNext.
  rewrite Htr, (nonempty_length _ Hlen). cbn [orb].
  destruct (at_index (landmarks st) (sidebarIndex st)) as [l|] eqn:Hl;
    [|reflexivity].
  rewrite (Hgate l eq_refl). reflexivity.
Qed.

Lemma handlePrev_at_rest (st : AppState) :
  isTransitioning st = false ->
  0 < len (landmarks st) ->
  let nextIndex :=
    Z.rem (sidebarIndex st - 1 + len (landmarks st)) (len (landmarks st)) in
  handlePrev st
  = setTimeout EndTransition 800
      (setTimeout (SwapSidebar nextIndex "animate-slide-in-left-full") 400
         (setActiveIndex nextIndex
            (setAnimationClass "animate-slide-out-right-full"
               (setIsTransitioning true st)))).
Proof.
  intros Htr Hlen. unfold handlePrev.
  rewrite Htr, (nonempty_length _ Hlen). reflexivity.
Qed.

(** C7.  In a state at rest on index [i] of a non-empty tour of length
    [n], [Next] on a landmark that is not gated moves the active index to
    [(i + 1) mod n], and [Previous] moves it to [(i - 1 + n) mod n]; once the
    two timeouts of the slide have run, the sidebar index has followed and
    navigation is enabled again.  So [Next] from the last index leads to
    index 0, the intro, and [Previous] from index 0 leads to the last
    index. *)
Theorem C7_navigation_wraps (rt : Runtime) (st : AppState) (i : Z) :
  isTransitioning st = false ->
  sidebarIndex st = i ->
  0 <= i < len (landmarks st) ->
  let n := len (landmarks st) in
  ((forall l, at_index (landmarks st) i = Some l -> gated rt l = Ok false) ->
     activeIndex (handleNext rt st) = (i + 1) mod n
     /\ (timers st = [] ->
         let settled := fireTimer (fireTimer (handleNext rt st)) in
         activeIndex settled = (i + 1) mod n
         /\ sidebarIndex settled = (i + 1) mod n
         /\ isTransitioning settled = false))
  /\ (activeIndex (handlePrev st) = (i - 1 + n) mod n
      /\ (timers st = [] ->
          let settled := fireTimer (fireTimer (handlePrev st)) in
          activeIndex settled = (i - 1 + n) mod n
          /\ sidebarIndex settled = (i - 1 + n) mod n
          /\ isTransitioning settled = false))
  /\ (i = n - 1 -> (i + 1) mod n = 0)
  /\ (i = 0 -> (i - 1 + n) mod n = n - 1).
Proof.
  intros Htr Hi Hrange n. subst i.
  assert (Hlen : 0 < len (landmarks st)) by lia.
  split; [|split; [|split]].
  - intros Hgate.
    rewrite (handleNext_ungated rt st Htr Hlen Hgate).
    assert (Hrem : Z.rem (sidebarIndex st + 1) n = (sidebarIndex st + 1) mod n)
      by (apply Z.rem_mod_nonneg; lia).
    split; [exact Hrem|].
    intros Htimers.
    destruct (slide_settles
                (transition (sidebarIndex st) (len (landmarks st)) st)
                (Z.rem (sidebarIndex st + 1) n)
                "animate-slide-in-right-full")
      as (Hside & Hact & Hdone & _).
    { unfold transition. cbn. rewrite Htimers. reflexivity. }
    cbv zeta. rewrite Hside, Hact, Hdone.
    repeat split; exact Hrem.
  - rewrite (handlePrev_at_rest st Htr Hlen).
    assert (Hrem : Z.rem (sidebarIndex st - 1 + n) n
                   = (sidebarIndex st - 1 + n) mod n)
      by (apply Z.rem_mod_nonneg; lia).
    split; [exact Hrem|].
    intros Htimers.
    match goal with
    | |- let settled := fireTimer (fireTimer ?s) in _ =>
        destruct (slide_settles s
                    (Z.rem (sidebarIndex st - 1 + n) n)
                    "animate-slide-in-left-full")
          as (Hside & Hact & Hdone & _)
    end.
    { cbn. rewrite Htimers. reflexivity. }
    cbv zeta. rewrite Hside, Hact, Hdone.
    repeat split; exact Hrem.
  - intros ->. replace (n - 1 + 1) with n by lia. apply Z.mod_same. lia.
  - intros ->. replace (0 - 1 + n) with (n - 1) by lia.
    apply Z.mod_small. lia.
Qed.

(** A tour of three whose last landmark has no quiz: [Next] from index 2
    leads to the intro, and [Previous] from the intro leads to index 2. *)
Lemma C7_navigation_wraps_witness :
  activeIndex
    (handleNext Examples.runtime
       (Examples.viewing
          [Examples.intro; Examples.gatedLandmark; Examples.plainLandmark] 2))
  = 0
  /\ activeIndex
       (handlePrev
          (Examples.viewing
             [Examples.intro; Examples.gatedLandmark; Examples.plainLandmark]
             0))
     = 2.
Proof.
  split.
  - destruct (C7_navigation_wraps Examples.runtime
                (Examples.viewing
                   [Examples.intro; Examples.gatedLandmark;
                    Examples.plainLandmark] 2)
                2 eq_refl eq_refl ltac:(cbn; lia)) as [Hnext _].
    refine (proj1 (Hnext _)).
    intros l [= <-]. reflexivity.
  - destruct (C7_navigation_wraps Examples.runtime
                (Examples.viewing
                   [Examples.intro; Examples.gatedLandmark;
                    Examples.plainLandmark] 0)
                0 eq_refl eq_refl ltac:(cbn; lia)) as (_ & [Hprev _] & _).
    exact Hprev.
Defined.





(** *** The end-to-end scenarios of the specification *)

(** Scenario A: from the intro, [Next] reaches index 1 and then index 2 at
    once; at index 2 it opens the quiz; completion leads back to index 0. *)
Example scenario_A :
  let s1 := Examples.nextAndSettle (Examples.viewing Examples.scenarioA 0) in
  let s2 := Examples.nextAndSettle s1 in
  let s3 := handleNext Examples.runtime s2 in
  (activeIndex s1, sidebarIndex s1, isTransitioning s1) = (1, 1, false)
  /\ (activeIndex s2, sidebarIndex s2, isTransitioning s2) = (2, 2, false)
  /\ (activeIndex s3, isOpen (quizModalInfo s3)) = (2, true)
  /\ activeIndex (quizComplete s3) = 0.
Proof. repeat split. Qed.

(** Scenario B: a [null] coordinate is rejected, numeric strings are
    accepted and converted. *)
Example scenario_B :
  datasetItem Examples.runtime Examples.nullCoordinate 0 = Ok None
  /\ exists l,
       datasetItem Examples.runtime Examples.stringCoordinates 0 = Ok (Some l)
       /\ coords l = VArr [VNum 30%float; VNum 35%float].
Proof.
  split; [reflexivity|]. eexists. split; reflexivity.
Qed.

(* ===================================================================== *)
(** ** Further properties of the code                                     *)
(* ===================================================================== *)

Import Props.
Local Open Scope nat_scope.

(** *** Key Normalizer: normal forms and idempotence *)

Lemma memb_obj_set (k0 k : string) (v : value) (acc : list (string * value)) :
  String.eqb k0 k = false ->
  memb k0 (map fst (obj_set acc k v)) = memb k0 (map fst acc).
Proof.
  intros Hne. induction acc as [|[k' v'] acc IH]; cbn.
  - rewrite Hne. reflexivity.
  - destruct (String.eqb k k'); cbn; [reflexivity|].
    rewrite IH. reflexivity.
Qed.

Lemma distinct_obj_set (k : string) (v : value) (acc : list (string * value)) :
  distinct (map fst acc) = true ->
  distinct (map fst (obj_set acc k v)) = true.
Proof.
  induction acc as [|[k' v'] acc IH]; cbn; [reflexivity|].
  intros H. apply andb_prop in H as [Hfresh Hd].
  destruct (String.eqb k k') eqn:Hk; cbn.
  - rewrite Hfresh, Hd. reflexivity.
  - rewrite memb_obj_set by (rewrite String.eqb_sym; exact Hk).
    rewrite Hfresh, (IH Hd). reflexivity.
Qed.

Lemma forallb_obj_set (P : string * value -> bool) (k : string) (v : value)
  (acc : list (string * value)) :
  (forall k', String.eqb k k' = true -> P (k', v) = true) ->
  forallb P acc = true ->
  forallb P (obj_set acc k v) = true.
Proof.
  intros Hnew. induction acc as [|[k' v'] acc IH]; cbn.
  - intros _. rewrite (Hnew k (String.eqb_refl k)). reflexivity.
  - intros H. apply andb_prop in H as [H1 H2].
    destruct (String.eqb k k') eqn:Hk; cbn.
    + rewrite (Hnew k' Hk), H2. reflexivity.
    + rewrite H1, (IH H2). reflexivity.
Qed.

Lemma normalForm_fold (rt : Runtime) (kvs acc : list (string * value)) :
  Forall (settles rt) kvs ->
  distinct (map fst acc) = true ->
  forallb (normalProperty rt) acc = true ->
  exists out,
    fold_left (fun a kv => match kv with
                           | (key, v) =>
                               assign a (lowerFirst rt key)
                                 (normalizeKeys rt v)
                           end) kvs (VObj acc)
    = VObj out
    /\ distinct (map fst out) = true
    /\ forallb (normalProperty rt) out = true.
Proof.
  intros Hall. revert acc.
  induction Hall as [|[k v] kvs (Hproto & Hstable & Hv) _ IH];
    intros acc Hd Hp; cbn [fold_left].
  - exists acc. split; [reflexivity|]. split; assumption.
  - cbn [fst snd] in Hproto, Hstable, Hv.
    unfold assign at 2. rewrite Hproto. cbn [andb set_own].
    apply IH.
    + apply distinct_obj_set, Hd.
    + apply forallb_obj_set; [|exact Hp].
      intros k' Hk'. apply String.eqb_eq in Hk'. subst k'.
      cbn [normalProperty].
      rewrite Hstable, String.eqb_refl, Hproto, Hv. reflexivity.
Qed.

Lemma normalForm_normalizeKeys (rt : Runtime) (x : value) :
  plainKeys rt x = true ->
  stableKeys rt x = true ->
  normalForm rt (normalizeKeys rt x) = true.
Proof.
  induction x as [| | | | | |xs IH|kvs IH|proto kvs _ _]
    using value_nested_ind;
    try reflexivity; cbn [normalizeKeys plainKeys stableKeys];
    intros Hp Hs; [| |discriminate Hp].
  - cbn [normalForm].
    induction IH as [|x xs Hx _ IHxs]; cbn in *; [reflexivity|].
    apply andb_prop in Hp as [P1 P2], Hs as [S1 S2].
    rewrite (Hx P1 S1), (IHxs P2 S2). reflexivity.
  - destruct (normalForm_fold rt kvs []) as (out & -> & Hd & Hout);
      [|reflexivity|reflexivity|cbn [normalForm]; rewrite Hd; exact Hout].
    induction IH as [|[k v] kvs Hx _ IHkvs]; [constructor|].
    cbn in Hp, Hs.
    apply andb_prop in Hp as [P1 P2], Hs as [S1 S2].
    apply andb_prop in P1 as [Pk Pv], S1 as [Sk Sv].
    constructor; [|exact (IHkvs P2 S2)].
    split; [exact (proj1 (negb_true_iff _) Pk)|].
    split; [exact (proj1 (String.eqb_eq _ _) Sk)|exact (Hx Pv Sv)].
Qed.

Lemma normalizeKeys_normalForm (rt : Runtime) (x : value) :
  normalForm rt x = true -> normalizeKeys rt x = x.
Proof.
  induction x as [| | | | | |xs IH|kvs IH|proto kvs _ _]
    using value_nested_ind;
    try reflexivity; cbn [normalizeKeys normalForm]; intros H;
    [| |discriminate H].
  - f_equal. induction IH as [|x xs Hx _ IHxs]; cbn in *; [reflexivity|].
    apply andb_prop in H as [H1 H2]. rewrite (Hx H1), (IHxs H2). reflexivity.
  - apply andb_prop in H as [Hd Hp].
    assert (Hkeys : map (fun kv => lowerFirst rt (fst kv)) kvs = map fst kvs).
    { clear - Hp. induction kvs as [|[k v] kvs IHk]; cbn in *; [reflexivity|].
      apply andb_prop in Hp as [H1 H2].
      apply andb_prop in H1 as [H1 _]. apply andb_prop in H1 as [H1 _].
      apply String.eqb_eq in H1. rewrite H1, (IHk H2). reflexivity. }
    rewrite normalize_fold_distinct.
    + cbn [app]. f_equal.
      clear Hd Hkeys.
      induction IH as [|[k v] kvs Hx _ IHkvs]; cbn in *; [reflexivity|].
      apply andb_prop in Hp as [H1 H2].
      apply andb_prop in H1 as [H1 Hv]. apply andb_prop in H1 as [H1 _].
      apply String.eqb_eq in H1.
      rewrite H1, (Hx Hv), (IHkvs H2). reflexivity.
    + clear - Hp. induction kvs as [|[k v] kvs IHk]; cbn in *; [reflexivity|].
      apply andb_prop in Hp as [H1 H2].
      apply andb_prop in H1 as [H1 _]. apply andb_prop in H1 as [H0 H1].
      apply String.eqb_eq in H0. rewrite H0, H1, (IHk H2). reflexivity.
    + rewrite Hkeys. exact Hd.
    + clear. induction kvs as [|[k v] kvs IHk]; cbn; auto.
Qed.

Lemma normalizeKeys_settles (rt : Runtime) (x : value) :
  plainKeys rt x = true ->
  stableKeys rt x = true ->
  normalizeKeys rt (normalizeKeys rt x) = normalizeKeys rt x.
Proof.
  intros Hp Hs. apply normalizeKeys_normalForm, normalForm_normalizeKeys;
    assumption.
Qed.

(** X1.  The Key Normalizer is idempotent on data without a key that
    becomes "__proto__", also on objects whose keys collide: normalizing a
    normalized value changes nothing, provided lower-casing the first
    character of a key a second time changes nothing (as it does for every
    key of ASCII characters).  It is not idempotent on
    every value: an object with the key "__proto__" comes back with a
    replaced prototype and no own property, and normalizing that gives the
    empty object. *)
Theorem X1_normalizeKeys_idempotent (rt : Runtime) (x : value) :
  (plainKeys rt x = true ->
   stableKeys rt x = true ->
   normalizeKeys rt (normalizeKeys rt x) = normalizeKeys rt x)
  /\ (forall k, ascii_only k = true ->
                lowerFirst rt (lowerFirst rt k) = lowerFirst rt k)
  /\ normalizeKeys rt Examples.protoQuestion
     = VObjP (VObj [("question", VStr "Q"); ("type", VStr "true-false");
                    ("options", VArr [])]) []
  /\ normalizeKeys rt (normalizeKeys rt Examples.protoQuestion) = VObj [].
Proof.
  split; [apply normalizeKeys_settles|].
  split; [|split; reflexivity].
  intros [|c k] Hk; [reflexivity|].
  assert (Hc : is_ascii c = true)
    by (cbn [ascii_only] in Hk; apply andb_prop in Hk as [Hk _]; exact Hk).
  cbn [lowerFirst]. rewrite Hc.
  assert (Hl : is_ascii (lower_ascii c) = true)
    by (clear - Hc; destruct c as [[] [] [] [] [] [] [] []];
        try discriminate Hc; reflexivity).
  cbn [lowerFirst]. rewrite Hl. f_equal.
  destruct c as [[] [] [] [] [] [] [] []]; reflexivity.
Qed.

(** A question with capitalised keys, on which the normalizer works once. *)
Lemma X1_normalizeKeys_idempotent_witness :
  normalizeKeys Examples.runtime
    (normalizeKeys Examples.runtime Examples.capitalised)
  = normalizeKeys Examples.runtime Examples.capitalised.
Proof.
  exact (proj1 (X1_normalizeKeys_idempotent Examples.runtime
                  Examples.capitalised) eq_refl eq_refl).
Defined.

(** X2.  The Key Normalizer returns its argument as it is when it is data
    in which, in every object, the keys are distinct and already start
    with a character that lower-casing leaves alone (and none is
    "__proto__"). *)
Theorem X2_normalizeKeys_fixes_normal_forms (rt : Runtime) (x : value) :
  normalForm rt x = true -> normalizeKeys rt x = x.
Proof.
  apply normalizeKeys_normalForm.
Qed.

(** The canonical quiz of scenario C is left as it is. *)
Lemma X2_normalizeKeys_fixes_normal_forms_witness :
  normalizeKeys Examples.runtime Examples.trueFalseQuiz
  = Examples.trueFalseQuiz.
Proof.
  exact (X2_normalizeKeys_fixes_normal_forms Examples.runtime
           Examples.trueFalseQuiz eq_refl).
Defined.

(** *** Legacy quiz parser: what it returns *)

Lemma validQuestion_shaped (q : value) :
  validQuestion q = true -> shapedQuestion q = true.
Proof.
  unfold validQuestion, shapedQuestion.
  destruct (is_object q); cbn [negb orb andb]; [|discriminate].
  destruct (is_null q); cbn [negb andb]; [discriminate|].
  destruct (prop q "question") as [| | | |text| | | |]; try discriminate.
  destruct (blank text); [discriminate|]. cbn [is_string andb].
  destruct (strict_eq (prop q "type") (VStr "multiple-choice"));
    destruct (strict_eq (prop q "type") (VStr "true-false"));
    cbn [negb andb orb]; try discriminate; intros H; exact H.
Qed.

Lemma forallb_impl {A : Type} (P Q : A -> bool) (xs : list A) :
  (forall x, P x = true -> Q x = true) ->
  forallb P xs = true -> forallb Q xs = true.
Proof.
  intros HPQ. induction xs as [|x xs IH]; cbn; [reflexivity|].
  intros H. apply andb_prop in H as [H1 H2].
  rewrite (HPQ x H1), (IH H2). reflexivity.
Qed.

Lemma parseAndValidateQuiz_sound (rt : Runtime) (quizData : value) :
  parseAndValidateQuiz rt quizData = VUndefined
  \/ exists q qs,
       parseAndValidateQuiz rt quizData = VArr (q :: qs)
       /\ forallb validQuestion (q :: qs) = true.
Proof.
  unfold parseAndValidateQuiz.
  destruct (negb (truthy quizData)); [left; reflexivity|].
  match goal with
  | |- context [match ?p with Some _ => _ | None => _ end] =>
      destruct p as [parsedQuiz|]
  end; [|left; reflexivity].
  destruct (isValidQuizQuestionArray (normalizeKeys rt parsedQuiz)) eqn:Hv;
    [|left; reflexivity].
  destruct (normalizeKeys rt parsedQuiz) as [| | | | | |[|q qs]| |];
    try discriminate Hv; cbn [nonEmptyArray andb]; [left; reflexivity|].
  right. exists q, qs. split; [reflexivity|exact Hv].
Qed.

(** X3.  The legacy quiz parser fails closed: whatever it is given, it
    returns either [undefined] or a non-empty array in which every question
    passes the structural validation (string text that is not blank, one of
    the two types, options with a string text and a boolean correctness
    flag, each read from the question or from its prototype).  On quiz
    data that is not a string, without a key that becomes "__proto__" and
    with keys that lower-casing settles, what it returns is a fixed point
    of the Key Normalizer.  With the key "__proto__" it can return a
    question that has no property of its own. *)
Theorem X3_parseAndValidateQuiz_fails_closed (rt : Runtime)
  (quizData : value) :
  (parseAndValidateQuiz rt quizData = VUndefined
   \/ exists q qs,
        parseAndValidateQuiz rt quizData = VArr (q :: qs)
        /\ forallb validQuestion (q :: qs) = true)
  /\ (is_string quizData = false ->
      plainKeys rt quizData = true ->
      stableKeys rt quizData = true ->
      normalizeKeys rt (parseAndValidateQuiz rt quizData)
      = parseAndValidateQuiz rt quizData)
  /\ parseAndValidateQuiz rt (VArr [Examples.protoQuestion])
     = VArr [VObjP (VObj [("question", VStr "Q"); ("type", VStr "true-false");
                          ("options", VArr [])]) []].
Proof.
  split; [apply parseAndValidateQuiz_sound|].
  split; [|reflexivity].
  intros Hstr Hp Hs. unfold parseAndValidateQuiz.
  destruct (negb (truthy quizData)); [reflexivity|].
  destruct quizData; try discriminate Hstr;
    match goal with
    | |- context [if ?c then _ else _] => destruct c
    end; try reflexivity; apply normalizeKeys_settles; assumption.
Qed.

(** The quiz of scenario C, which the parser returns as it is. *)
Lemma X3_parseAndValidateQuiz_fails_closed_witness :
  normalizeKeys Examples.runtime
    (parseAndValidateQuiz Examples.runtime Examples.trueFalseQuiz)
  = parseAndValidateQuiz Examples.runtime Examples.trueFalseQuiz.
Proof.
  exact (proj1 (proj2 (X3_parseAndValidateQuiz_fails_closed Examples.runtime
                         Examples.trueFalseQuiz))
           eq_refl eq_refl eq_refl).
Defined.

(** X4.  Quiz data given as a string: the empty string, a string that does
    not start with "[" and end with "]" once trimmed, and a string that
    [JSON.parse] rejects all yield [undefined]; a bracketed string that
    parses to an array yields what the parser yields on that array. *)
Theorem X4_parseAndValidateQuiz_on_strings (rt : Runtime) (s : string) :
  (s = "" -> parseAndValidateQuiz rt (VStr s) = VUndefined)
  /\ (startsWith "["%char (trim s) && endsWith "]"%char (trim s) = false ->
      parseAndValidateQuiz rt (VStr s) = VUndefined)
  /\ (forall e, JSON_parse rt s = Throw e ->
                parseAndValidateQuiz rt (VStr s) = VUndefined)
  /\ (forall xs,
        startsWith "["%char (trim s) && endsWith "]"%char (trim s) = true ->
        JSON_parse rt s = Ok (VArr xs) ->
        parseAndValidateQuiz rt (VStr s) = parseAndValidateQuiz rt (VArr xs)).
Proof.
  unfold parseAndValidateQuiz.
  split; [intros ->; reflexivity|].
  split; [intros ->; destruct (negb (truthy (VStr s))); reflexivity|].
  split.
  - intros e ->.
    destruct (negb (truthy (VStr s))); [reflexivity|].
    destruct (startsWith _ _ && endsWith _ _); reflexivity.
  - intros xs Hb ->. rewrite Hb.
    destruct s as [|c s]; [discriminate Hb|]. reflexivity.
Qed.

(** The text "[]" parses to the empty array, which is no quiz; "{}" is not
    bracketed. *)
Lemma X4_parseAndValidateQuiz_on_strings_witness :
  parseAndValidateQuiz Examples.runtime (VStr "[]")
  = parseAndValidateQuiz Examples.runtime (VArr [])
  /\ parseAndValidateQuiz Examples.runtime (VStr "{}") = VUndefined.
Proof.
  destruct (X4_parseAndValidateQuiz_on_strings Examples.runtime "[]")
    as (_ & _ & _ & Harr).
  destruct (X4_parseAndValidateQuiz_on_strings Examples.runtime "{}")
    as (_ & Hplain & _).
  split; [exact (Harr [] eq_refl eq_refl)|exact (Hplain eq_refl)].
Defined.

(** *** Upload quiz transformation: what it returns *)

Lemma transformOption_valid (rt : Runtime) (answer : string)
  (opts : list value) (i : nat) (options : list value) :
  map_from (transformOption rt answer) i opts = Ok options ->
  forallb validOption options = true.
Proof.
  revert i options.
  induction opts as [|o opts IH]; intros i options; cbn [map_from].
  - intros [= <-]. reflexivity.
  - unfold transformOption at 1.
    destruct (ToString rt o) as [printed|]; cbn [bind]; [|discriminate].
    destruct (map_from (transformOption rt answer) (S i) opts) as [rest|]
      eqn:Hrest; cbn [bind]; [|discriminate].
    intros [= <-]. cbn [forallb]. rewrite (IH _ _ Hrest). reflexivity.
Qed.

Lemma transformUploadedQuestion_cases (rt : Runtime) (q v : value)
  (index : nat) :
  transformUploadedQuestion rt q index = Ok (Some v) ->
  exists text,
    prop q "text" = VStr text
    /\ ((exists options,
           v = mkQuestion (VStr text) "multiple-choice" options
           /\ forallb validOption options = true)
        \/ (exists b,
              v = mkQuestion (VStr text) "true-false"
                    [ mkOption (VStr "True") b;
                      mkOption (VStr "False") (negb b) ])).
Proof.
  unfold transformUploadedQuestion.
  destruct (truthy q); cbn [negb orb]; [|discriminate].
  destruct (prop q "text") as [| | | |text| | | |]; cbn [is_string negb orb];
    try discriminate.
  destruct (truthy (prop q "type")); cbn [negb orb]; [|discriminate].
  destruct (is_undefined (prop q "answer")); [discriminate|].
  destruct (ToString rt (prop q "type")) as [printedType|]; cbn [bind];
    [|discriminate].
  destruct (ToString rt (prop q "answer")) as [printedAnswer|]; cbn [bind];
    [|discriminate].
  intros Hv. exists text. split; [reflexivity|]. revert Hv.
  destruct (String.eqb _ "multiple_choice").
  - destruct (prop q "options") as [| | | | | |opts| |]; try discriminate.
    destruct (map_from _ 0 opts) as [options|] eqn:Hopts; cbn [bind];
      [|discriminate].
    intros [= <-]. left. exists options. split; [reflexivity|].
    exact (transformOption_valid rt _ _ _ _ Hopts).
  - destruct (String.eqb _ "true_false"); [|discriminate].
    intros [= <-]. right. eexists. reflexivity.
Qed.

Lemma transformUploadedQuestion_shaped (rt : Runtime) (q v : value)
  (index : nat) :
  transformUploadedQuestion rt q index = Ok (Some v) ->
  shapedQuestion v = true.
Proof.
  intros H.
  destruct (transformUploadedQuestion_cases rt q v index H)
    as (text & _ & [(options & -> & Hvalid)|(b & ->)]).
  - unfold shapedQuestion, mkQuestion. cbn. exact Hvalid.
  - reflexivity.
Qed.

Lemma map_from_filter_forallb {B : Type}
  (f : value -> nat -> result (option B)) (P : B -> bool) (xs : list value)
  (i : nat) (mapped : list (option B)) :
  (forall a j b, f a j = Ok (Some b) -> P b = true) ->
  map_from f i xs = Ok mapped ->
  forallb P (filter_not_null mapped) = true.
Proof.
  intros HP. revert i mapped.
  induction xs as [|x xs IH]; intros i mapped; cbn [map_from].
  - intros [= <-]. reflexivity.
  - destruct (f x i) as [y|] eqn:Hy; cbn [bind]; [|discriminate].
    destruct (map_from f (S i) xs) as [rest|] eqn:Hrest; cbn [bind];
      [|discriminate].
    intros [= <-]. specialize (IH _ _ Hrest).
    destruct y as [b|]; cbn [filter_not_null forallb]; [|exact IH].
    rewrite (HP x i b Hy), IH. reflexivity.
Qed.

Lemma transformUploadedQuiz_shape (rt : Runtime) (questions quiz : value) :
  transformUploadedQuiz rt questions = Ok quiz -> quizShape quiz.
Proof.
  unfold transformUploadedQuiz.
  destruct questions as [| | | | | |qs| |];
    try (intros [= <-]; left; reflexivity).
  destruct (map_from (transformUploadedQuestion rt) 0 qs) as [mapped|]
    eqn:Hmapped; cbn [bind]; [|discriminate].
  pose proof (map_from_filter_forallb (transformUploadedQuestion rt)
                shapedQuestion qs 0 mapped
                (fun a j b => transformUploadedQuestion_shaped rt a b j)
                Hmapped) as Hall.
  destruct (filter_not_null mapped) as [|q rest];
    intros [= <-]; [left; reflexivity|].
  right. exists q, rest. split; [reflexivity|exact Hall].
Qed.

(** X5.  Whenever it returns, the upload quiz transformation returns
    [undefined] or a non-empty array of questions of the canonical shape
    (string text, one of the two types, options with a string text and a
    boolean flag); and every true/false question it builds has the two
    options "True" and "False" of which exactly one is correct, whatever
    the answer was. *)
Theorem X5_transformUploadedQuiz_shape (rt : Runtime) (questions : value) :
  (forall quiz,
      transformUploadedQuiz rt questions = Ok quiz -> quizShape quiz)
  /\ (forall q index v,
        transformUploadedQuestion rt q index = Ok (Some v) ->
        prop v "type" = VStr "true-false" ->
        exists b,
          prop v "options"
          = VArr [ mkOption (VStr "True") b;
                   mkOption (VStr "False") (negb b) ]).
Proof.
  split; [apply transformUploadedQuiz_shape|].
  intros q index v H Htype.
  destruct (transformUploadedQuestion_cases rt q v index H)
    as (text & _ & [(opts & -> & _)|(b & ->)]).
  - discriminate Htype.
  - exists b. reflexivity.
Qed.

(** A true/false question with the answer "maybe". *)
Lemma X5_transformUploadedQuiz_shape_witness :
  exists b,
    prop (mkQuestion (VStr "Q") "true-false"
            [ mkOption (VStr "True") false; mkOption (VStr "False") true ])
         "options"
    = VArr [ mkOption (VStr "True") b; mkOption (VStr "False") (negb b) ].
Proof.
  exact (proj2 (X5_transformUploadedQuiz_shape Examples.runtime VUndefined)
           (Examples.scenarioC "maybe") 0 _ eq_refl eq_refl).
Defined.

(** *** Coercers: they never throw, and what they emit is well formed *)

Lemma quizShape_parseAndValidateQuiz (rt : Runtime) (quizData : value) :
  quizShape (parseAndValidateQuiz rt quizData).
Proof.
  destruct (parseAndValidateQuiz_sound rt quizData) as [->|(q & qs & -> & Hv)];
    [left; reflexivity|].
  right. exists q, qs. split; [reflexivity|].
  exact (forallb_impl _ _ _ validQuestion_shaped Hv).
Qed.

Lemma processCoords_finite (rt : Runtime) (v : value) (c : float * float) :
  processCoords rt v = Ok (Some c) -> finiteCoords (coordsValue c).
Proof.
  unfold processCoords.
  destruct v as [| | | | | |[|c0 [|c1 [|c2 xs]]]| |]; try discriminate.
  destruct (negb (is_null c0) && negb (is_null c1)); [|discriminate].
  destruct (ToNumber rt c0) as [lat|]; cbn [bind]; [|discriminate].
  destruct (ToNumber rt c1) as [lon|]; cbn [bind]; [|discriminate].
  destruct (isFinite lat) eqn:H0; [|discriminate].
  destruct (isFinite lon) eqn:H1; [|discriminate].
  intros [= <-]. eexists _, _. split; [reflexivity|]. split; assumption.
Qed.

Lemma isIconType_default (v : value) :
  isIconType (if isIconType v then v else VStr "monument") = true.
Proof. destruct (isIconType v) eqn:H; [exact H|reflexivity]. Qed.

Lemma upper_ascii_string_nonempty (n : string) :
  is_empty_string n = false -> is_empty_string (upper_ascii_string n) = false.
Proof. destruct n; [discriminate|reflexivity]. Qed.

Lemma blank_nonempty (n : string) :
  blank n = false -> is_empty_string n = false.
Proof. destruct n; [discriminate|reflexivity]. Qed.

Lemma toUpperCase_nonempty (rt : Runtime) (n : string) :
  blank n = false -> ascii_only n = true ->
  truthy (VStr (toUpperCase rt n)) = true.
Proof.
  intros Hblank Hascii. unfold toUpperCase. rewrite Hascii. cbn [truthy].
  rewrite (upper_ascii_string_nonempty n (blank_nonempty n Hblank)).
  reflexivity.
Qed.

Lemma or_else_truthy (a b : value) :
  truthy b = true -> truthy (a ||| b) = true.
Proof. unfold or_else. destruct (truthy a) eqn:Ha; [rewrite Ha|]; auto. Qed.

Lemma uploadItem_well_formed (rt : Runtime) (now : float)
  (item : value) (index : nat) (l : Landmark) :
  uploadItem rt now item index = Ok (Some l) ->
  usableName (name l) = true
  /\ finiteCoords (coords l)
  /\ isIconType (iconType l) = true
  /\ is_boolean (block_navigation l) = true
  /\ is_number (id l) = true
  /\ (exists n,
        name l = VStr n
        /\ title l = prop item "title" ||| VStr (toUpperCase rt n)
        /\ (ascii_only n = true -> truthy (title l) = true))
  /\ truthy (imageUrl l) = true
  /\ quizShape (quiz l).
Proof.
  unfold uploadItem.
  destruct (negb (is_object item) || is_null item); [discriminate|].
  destruct (get item "name") as [itemName|]; cbn [bind]; [|discriminate].
  destruct (itemName ||| prop item "city" ||| prop item "title")
    as [| | | |n| | | |]; try discriminate.
  destruct (blank n) eqn:Hblank; [discriminate|].
  destruct (get item "coords") as [itemCoords|]; cbn [bind]; [|discriminate].
  destruct (processCoords rt _) as [[c|]|] eqn:Hc; cbn [bind];
    try discriminate.
  destruct (if truthy (prop item "questions")
            then transformUploadedQuiz rt (prop item "questions")
            else Ok VUndefined) as [uploaded|] eqn:Hquiz; cbn [bind];
    [|discriminate].
  intros [= <-]. cbn [name coords iconType block_navigation id title imageUrl
                      quiz].
  split; [cbn; rewrite Hblank; reflexivity|].
  split; [exact (processCoords_finite _ _ _ Hc)|].
  split; [apply isIconType_default|].
  split; [reflexivity|].
  split; [destruct (truthy (prop item "id") && is_number (prop item "id"))
            eqn:Hid; [apply andb_prop in Hid as [_ Hid]; exact Hid|reflexivity]|].
  split.
  { exists n. split; [reflexivity|]. split; [reflexivity|].
    intros Hascii. apply or_else_truthy, toUpperCase_nonempty; assumption. }
  split; [apply or_else_truthy; reflexivity|].
  destruct (negb (truthy uploaded)); [apply quizShape_parseAndValidateQuiz|].
  destruct (truthy (prop item "questions")).
  - exact (transformUploadedQuiz_shape rt _ _ Hquiz).
  - injection Hquiz as <-. left. reflexivity.
Qed.

(** X6.  Every landmark the upload coercer emits is well formed: its name
    is a string that is not blank (white space being what [trim] strips),
    its coordinates are a pair of finite numbers, its icon type is one of
    the three known ones, its navigation flag is a boolean, its id is a
    number, its title is the record's title when that is truthy and the
    upper-cased name otherwise (not empty when the name is ASCII), its image
    address is not empty, and its quiz is absent or a non-empty array of
    shaped questions. *)
Theorem X6_uploadItem_emits_well_formed (rt : Runtime) (now : float)
  (item : value) (index : nat) (l : Landmark) :
  uploadItem rt now item index = Ok (Some l) ->
  usableName (name l) = true
  /\ finiteCoords (coords l)
  /\ isIconType (iconType l) = true
  /\ is_boolean (block_navigation l) = true
  /\ is_number (id l) = true
  /\ (exists n,
        name l = VStr n
        /\ title l = prop item "title" ||| VStr (toUpperCase rt n)
        /\ (ascii_only n = true -> truthy (title l) = true))
  /\ truthy (imageUrl l) = true
  /\ quizShape (quiz l).
Proof.
  apply uploadItem_well_formed.
Qed.

(** The record of scenario C. *)
Lemma X6_uploadItem_emits_well_formed_witness :
  exists l,
    uploadItem Examples.runtime 0%float (VObj Examples.petraUpload) 0
    = Ok (Some l)
    /\ usableName (name l) = true /\ finiteCoords (coords l).
Proof.
  eexists. split; [reflexivity|].
  pose proof (X6_uploadItem_emits_well_formed Examples.runtime 0%float
                (VObj Examples.petraUpload) 0 _ eq_refl) as H.
  split; [exact (proj1 H)|exact (proj1 (proj2 H))].
Defined.

Lemma overlayItem_well_formed (rt : Runtime) (now : float)
  (item : value) (index : nat) (l : Landmark) :
  overlayItem rt now item index = Ok (Some l) ->
  usableName (name l) = true
  /\ finiteCoords (coords l)
  /\ isIconType (iconType l) = true
  /\ is_boolean (block_navigation l) = true
  /\ is_number (id l) = true
  /\ (is_number (prop item "id") = true -> id l = prop item "id")
  /\ (exists n,
        name l = VStr n
        /\ title l = prop item "title" ||| VStr (toUpperCase rt n)
        /\ (ascii_only n = true -> truthy (title l) = true))
  /\ truthy (imageUrl l) = true
  /\ quizShape (quiz l).
Proof.
  unfold overlayItem.
  destruct (negb (is_object item) || is_null item); [discriminate|].
  destruct (get item "coords") as [rawCoords|]; cbn [bind]; [|discriminate].
  destruct (processCoords rt rawCoords) as [[c|]|] eqn:Hc; cbn [bind];
    try discriminate.
  destruct (get item "name") as [[| | | |n| | | |]|]; cbn [bind];
    try discriminate.
  destruct (blank n) eqn:Hblank; [discriminate|].
  destruct (truthy (prop item "imageUrl")) eqn:Himage; cbn [bind].
  - intros [= <-]. cbn [name coords iconType block_navigation id title
                        imageUrl quiz].
    split; [cbn; rewrite Hblank; reflexivity|].
    split; [exact (processCoords_finite _ _ _ Hc)|].
    split; [apply isIconType_default|].
    split; [reflexivity|].
    split; [destruct (is_number (prop item "id")) eqn:Hid;
              [exact Hid|reflexivity]|].
    split; [intros ->; reflexivity|].
    split.
    { exists n. split; [reflexivity|]. split; [reflexivity|].
      intros Hascii. apply or_else_truthy, toUpperCase_nonempty; assumption. }
    split; [exact Himage|].
    apply quizShape_parseAndValidateQuiz.
  - destruct (ToString rt (prop item "id" ||| VStr n)) as [seed|];
      cbn [bind]; [|discriminate].
    intros [= <-]. cbn [name coords iconType block_navigation id title
                        imageUrl quiz].
    split; [cbn; rewrite Hblank; reflexivity|].
    split; [exact (processCoords_finite _ _ _ Hc)|].
    split; [apply isIconType_default|].
    split; [reflexivity|].
    split; [destruct (is_number (prop item "id")) eqn:Hid;
              [exact Hid|reflexivity]|].
    split; [intros ->; reflexivity|].
    split.
    { exists n. split; [reflexivity|]. split; [reflexivity|].
      intros Hascii. apply or_else_truthy, toUpperCase_nonempty; assumption. }
    split; [reflexivity|].
    apply quizShape_parseAndValidateQuiz.
Qed.

(** X7.  Every landmark the persisted-overlay coercer emits is well formed
    in the same way: a string name that is not blank, finite coordinates,
    known icon type, boolean navigation flag, numeric id (the stored one
    when it is a number), the stored title when that is truthy and the
    upper-cased name otherwise (not empty when the name is ASCII), an image
    address that is not empty, and a quiz that is absent or valid. *)
Theorem X7_overlayItem_emits_well_formed (rt : Runtime) (now : float)
  (item : value) (index : nat) (l : Landmark) :
  overlayItem rt now item index = Ok (Some l) ->
  usableName (name l) = true
  /\ finiteCoords (coords l)
  /\ isIconType (iconType l) = true
  /\ is_boolean (block_navigation l) = true
  /\ is_number (id l) = true
  /\ (is_number (prop item "id") = true -> id l = prop item "id")
  /\ (exists n,
        name l = VStr n
        /\ title l = prop item "title" ||| VStr (toUpperCase rt n)
        /\ (ascii_only n = true -> truthy (title l) = true))
  /\ truthy (imageUrl l) = true
  /\ quizShape (quiz l).
Proof.
  apply overlayItem_well_formed.
Qed.

(** A stored landmark with the id 7. *)
Lemma X7_overlayItem_emits_well_formed_witness :
  exists l,
    overlayItem Examples.runtime 0%float Examples.storedLandmark 0
    = Ok (Some l)
    /\ id l = VNum 7%float /\ finiteCoords (coords l).
Proof.
  eexists. split; [reflexivity|].
  pose proof (X7_overlayItem_emits_well_formed Examples.runtime 0%float
                Examples.storedLandmark 0 _ eq_refl) as H.
  split; [reflexivity|exact (proj1 (proj2 H))].
Defined.

Lemma processCoords_usable (rt : Runtime) (v : value) :
  usableCoords rt v = true -> exists c, processCoords rt v = Ok (Some c).
Proof.
  intros H. pose proof (processCoords_cases rt v) as Hc.
  destruct (processCoords rt v) as [[c|]|e]; [eauto| |];
    destruct Hc as [Hu _]; congruence.
Qed.

(** X8.  Every landmark the dataset coercer emits has finite coordinates,
    the id [index + 1] of its row, a string name with the upper-cased name
    as title, the monument icon, a boolean navigation flag and a quiz that
    is absent or valid.  The name itself is not validated: a row with usable
    coordinates and any string as city, even the empty one, is accepted. *)
Theorem X8_datasetItem_emits (rt : Runtime) (item : value) (index : nat) :
  (forall l,
     datasetItem rt item index = Ok (Some l) ->
     finiteCoords (coords l)
     /\ id l = VNum (num_of_nat (index + 1))
     /\ (exists n, name l = VStr n /\ title l = VStr (toUpperCase rt n))
     /\ iconType l = VStr "monument"
     /\ is_boolean (block_navigation l) = true
     /\ quizShape (quiz l))
  /\ (forall kvs n,
        item = VObj kvs ->
        usableCoords rt (lookup "coordinates" kvs) = true ->
        lookup "city" kvs = VStr n ->
        exists l, datasetItem rt item index = Ok (Some l)
                  /\ name l = VStr n).
Proof.
  split.
  - intros l. unfold datasetItem.
    destruct (get item "coordinates") as [rawCoords|]; cbn [bind];
      [|discriminate].
    destruct (processCoords rt rawCoords) as [[c|]|] eqn:Hc; cbn [bind];
      try discriminate.
    destruct (prop item "city") as [| | | |n| | | |];
      cbn [call_toUpperCase bind]; try discriminate.
    intros [= <-]. cbn [name coords iconType block_navigation id title quiz].
    split; [exact (processCoords_finite _ _ _ Hc)|].
    split; [reflexivity|].
    split; [exists n; split; reflexivity|].
    split; [reflexivity|].
    split; [reflexivity|].
    apply quizShape_parseAndValidateQuiz.
  - intros kvs n -> Hc Hcity. unfold datasetItem. cbn [get prop bind].
    destruct (processCoords_usable rt _ Hc) as [c ->]. cbn [bind].
    rewrite Hcity. cbn [call_toUpperCase bind].
    eexists. split; reflexivity.
Qed.

(** A row with numeric strings as coordinates, and the same row with an
    empty city. *)
Lemma X8_datasetItem_emits_witness :
  (exists l,
     datasetItem Examples.runtime Examples.stringCoordinates 4 = Ok (Some l)
     /\ id l = VNum 5%float)
  /\ exists l,
       datasetItem Examples.runtime (VObj Examples.emptyCity) 0 = Ok (Some l)
       /\ name l = VStr "".
Proof.
  split.
  - eexists. split; [reflexivity|].
    exact (proj1 (proj2 (proj1 (X8_datasetItem_emits Examples.runtime
                                  Examples.stringCoordinates 4)
                           _ eq_refl))).
  - exact (proj2 (X8_datasetItem_emits Examples.runtime
                    (VObj Examples.emptyCity) 0)
             Examples.emptyCity "" eq_refl eq_refl eq_refl).
Defined.

(** On printable data the conversions return. *)
Lemma ToString_printable (rt : Runtime) (v : value) :
  printable v = true -> exists s, ToString rt v = Ok s.
Proof.
  induction v as [| | [|] | | | |xs IH|kvs IH|proto kvs _ _]
    using value_nested_ind; cbn [printable ToString]; eauto.
  - intros Hall.
    assert (Hparts : exists parts,
               (fix each (l : list value) : result (list string) :=
                  match l with
                  | [] => Ok []
                  | x :: r =>
                      p <- match x with
                           | VUndefined | VNull => Ok ""%string
                           | _ => ToString rt x
                           end ;;
                      ps <- each r ;;
                      Ok (p :: ps)
                  end) xs = Ok parts).
    { induction xs as [|x xs IHxs]; [eauto|].
      cbn [forallb] in Hall. apply andb_prop in Hall as [Hx Hxs].
      inversion IH as [|? ? IHx IHrest]; subst.
      destruct (IHxs IHrest Hxs) as [ps ->].
      destruct (IHx Hx) as [p Hp].
      destruct x; cbn [bind]; eauto; rewrite Hp; cbn [bind]; eauto. }
    destruct Hparts as [parts ->]. cbn [bind]. eauto.
  - intros H. apply andb_prop in H as [H _].
    apply negb_true_iff in H. rewrite H. eauto.
  - discriminate.
Qed.

Lemma ToNumber_printable (rt : Runtime) (v : value) :
  printable v = true -> exists n, ToNumber rt v = Ok n.
Proof.
  intros H. destruct v as [| |[|]| | | |xs|kvs|proto kvs];
    cbn [ToNumber]; eauto; try discriminate;
    destruct (ToString_printable rt _ H) as [s ->]; cbn [bind]; eauto.
Qed.

Lemma lookup_printable (k : string) (kvs : list (string * value)) :
  forallb (fun kv => printable (snd kv)) kvs = true ->
  printable (lookup k kvs) = true.
Proof.
  induction kvs as [|[k' v] kvs IH]; cbn [lookup forallb snd];
    [reflexivity|].
  intros H. apply andb_prop in H as [Hv Hkvs].
  destruct (String.eqb k k'); [exact Hv|exact (IH Hkvs)].
Qed.

Lemma prop_printable (v : value) (k : string) :
  printable v = true -> printable (prop v k) = true.
Proof.
  destruct v; cbn [prop printable]; try reflexivity; try discriminate.
  - destruct (String.eqb k "length"); reflexivity.
  - destruct (String.eqb k "length"); reflexivity.
  - intros H. apply andb_prop in H as [_ H]. exact (lookup_printable k _ H).
Qed.

Lemma or_else_printable (a b : value) :
  printable a = true -> printable b = true -> printable (a ||| b) = true.
Proof. intros Ha Hb. destruct (or_else_cases a b) as [->| ->]; assumption. Qed.

Lemma processCoords_printable (rt : Runtime) (v : value) :
  printable v = true -> exists o, processCoords rt v = Ok o.
Proof.
  unfold processCoords.
  destruct v as [| | | | | |[|c0 [|c1 [|c2 xs]]]| |]; eauto.
  cbn [printable forallb]. intros H.
  apply andb_prop in H as [H0 H]. apply andb_prop in H as [H1 _].
  destruct (negb (is_null c0) && negb (is_null c1)); eauto.
  destruct (ToNumber_printable rt c0 H0) as [lat ->].
  destruct (ToNumber_printable rt c1 H1) as [lon ->]. cbn [bind]. eauto.
Qed.

Lemma map_from_total {A : Type} (f : value -> nat -> result A)
  (xs : list value) :
  (forall x i, In x xs -> exists y, f x i = Ok y) ->
  forall i, exists ys, map_from f i xs = Ok ys
                       /\ List.length ys = List.length xs.
Proof.
  induction xs as [|x xs IH]; intros Htotal i; cbn [map_from].
  - exists []. split; reflexivity.
  - destruct (Htotal x i (or_introl eq_refl)) as [y ->]. cbn [bind].
    destruct (IH (fun x' i' Hin => Htotal x' i' (or_intror Hin)) (S i))
      as (ys & -> & Hlen). cbn [bind].
    exists (y :: ys). split; [reflexivity|]. cbn. rewrite Hlen. reflexivity.
Qed.

Lemma forallb_In {A : Type} (P : A -> bool) (xs : list A) (x : A) :
  forallb P xs = true -> In x xs -> P x = true.
Proof. intros H Hin. exact (proj1 (forallb_forall P xs) H x Hin). Qed.

Lemma transformUploadedQuestion_printable (rt : Runtime) (q : value)
  (index : nat) :
  printable q = true -> exists o, transformUploadedQuestion rt q index = Ok o.
Proof.
  intros Hq. unfold transformUploadedQuestion.
  destruct (negb (truthy q) || negb (is_string (prop q "text"))
            || negb (truthy (prop q "type"))
            || is_undefined (prop q "answer")); [eauto|].
  destruct (ToString_printable rt _ (prop_printable q "type" Hq))
    as [printedType ->].
  destruct (ToString_printable rt _ (prop_printable q "answer" Hq))
    as [printedAnswer ->]. cbn [bind].
  destruct (String.eqb _ "multiple_choice");
    [|destruct (String.eqb _ "true_false"); eauto].
  pose proof (prop_printable q "options" Hq) as Hopts.
  destruct (prop q "options") as [| | | | | |opts| |]; eauto.
  cbn [printable] in Hopts.
  destruct (map_from_total (transformOption rt (trim printedAnswer)) opts)
    with (i := 0) as (options & -> & _); [|cbn [bind]; eauto].
  intros opt i Hin. unfold transformOption.
  destruct (ToString_printable rt opt (forallb_In _ _ _ Hopts Hin))
    as [printed ->]. cbn [bind]. eauto.
Qed.

Lemma transformUploadedQuiz_printable (rt : Runtime) (questions : value) :
  printable questions = true ->
  exists quiz, transformUploadedQuiz rt questions = Ok quiz.
Proof.
  unfold transformUploadedQuiz.
  destruct questions as [| | | | | |qs| |]; eauto.
  cbn [printable]. intros Hqs.
  destruct (map_from_total (transformUploadedQuestion rt) qs)
    with (i := 0) as (mapped & -> & _); [|cbn [bind]; eauto].
  intros q i Hin.
  exact (transformUploadedQuestion_printable rt q i
           (forallb_In _ _ _ Hqs Hin)).
Qed.

Lemma uploadItem_printable (rt : Runtime) (now : float) (item : value)
  (index : nat) :
  printable item = true -> exists o, uploadItem rt now item index = Ok o.
Proof.
  intros Hitem. unfold uploadItem.
  destruct (isRecord item) eqn:Hrec;
    [|rewrite (not_record item Hrec); eauto].
  rewrite (is_record item Hrec), !(get_record item _ Hrec). cbn [bind].
  destruct (prop item "name" ||| prop item "city" ||| prop item "title");
    eauto.
  destruct (blank s); eauto.
  destruct (processCoords_printable rt
              (prop item "coords" ||| prop item "coordinates"))
    as [[c|] ->]; cbn [bind]; eauto;
    [apply or_else_printable; apply prop_printable; exact Hitem|].
  destruct (truthy (prop item "questions")).
  - destruct (transformUploadedQuiz_printable rt _
                (prop_printable item "questions" Hitem)) as [quiz ->].
    cbn [bind]. eauto.
  - cbn [bind]. eauto.
Qed.


Lemma filter_not_null_length {A : Type} (xs : list (option A)) :
  List.length (filter_not_null xs) <= List.length xs.
Proof.
  induction xs as [|[x|] xs IH]; cbn; lia.
Qed.

Lemma coerceAll_total (f : value -> nat -> result (option Landmark))
  (items : list value) :
  (forall item index, In item items -> exists o, f item index = Ok o) ->
  exists ls, coerceAll f items = Ok ls
             /\ List.length ls <= List.length items.
Proof.
  intros Htotal. unfold coerceAll.
  destruct (map_from_total f items Htotal 0) as (mapped & -> & Hlen).
  cbn [bind]. eexists. split; [reflexivity|].
  rewrite <- Hlen. apply filter_not_null_length.
Qed.



(** *** File upload: every outcome *)

(** X10.  An upload that cannot be read as an array of landmarks leaves the
    state as it is and shows the "could not load" alert with the reason: an
    empty file, a text that [JSON.parse] rejects (with the parser's
    message), and a JSON value that is not an array. *)
Theorem X10_upload_unreadable (rt : Runtime) (consts : Constants)
  (now : float) (text : string) (st : AppState) :
  (text = "" ->
   handleFileChange rt consts now text st
   = (st, [couldNotLoadMessage (Error "File could not be read.")]))
  /\ (forall e,
        text <> "" -> JSON_parse rt text = Throw e ->
        handleFileChange rt consts now text st
        = (st, [couldNotLoadMessage e]))
  /\ (forall v,
        text <> "" -> JSON_parse rt text = Ok v -> isArray v = false ->
        handleFileChange rt consts now text st
        = (st, [couldNotLoadMessage
                  (Error "Invalid data format. The JSON file must contain an array of landmarks.")])).
Proof.
  unfold handleFileChange.
  split; [intros ->; reflexivity|].
  split.
  - intros e Hne ->. destruct text; [contradiction|]. reflexivity.
  - intros v Hne -> Harr. destruct text; [contradiction|].
    destruct v; try discriminate Harr; reflexivity.
Qed.

(** The text "oops" is not JSON. *)
Lemma X10_upload_unreadable_witness :
  handleFileChange Examples.runtime Examples.constants 0%float "oops"
    (Examples.viewing [Examples.intro; Examples.gatedLandmark] 1%Z)
  = (Examples.viewing [Examples.intro; Examples.gatedLandmark] 1%Z,
     [couldNotLoadMessage (SyntaxError "Unexpected token")]).
Proof.
  refine (proj1 (proj2 (X10_upload_unreadable Examples.runtime
                          Examples.constants 0%float "oops" _))
            _ _ eq_refl).
  discriminate.
Defined.

(** X11.  An upload that is a JSON array has three outcomes, decided by the
    upload coercer run on the records.  When a conversion throws in a
    record, the state is kept and the "could not load" alert shows the
    error.  When no record survives, the state is kept and the "no valid
    landmarks" alert is shown.  Otherwise the tour becomes the intro
    followed by the surviving landmarks in their order, no alert is shown,
    and unless a just-added landmark is waiting for focus both indices are
    set to 1; pending timeouts, the transition flag and the quiz modal are
    not touched.  On printable records the first outcome does not occur. *)
Theorem X11_upload_of_an_array (rt : Runtime) (consts : Constants)
  (now : float) (text : string) (items : list value) (st : AppState) :
  text <> "" ->
  JSON_parse rt text = Ok (VArr items) ->
  match coerceAll (uploadItem rt now) items with
  | Throw e =>
      handleFileChange rt consts now text st = (st, [couldNotLoadMessage e])
  | Ok [] =>
      handleFileChange rt consts now text st = (st, [noValidLandmarksMessage])
  | Ok newLandmarks =>
      let st' := fst (handleFileChange rt consts now text st) in
      snd (handleFileChange rt consts now text st) = []
      /\ landmarks st' = INTRO_LANDMARK consts :: newLandmarks
      /\ timers st' = timers st
      /\ isTransitioning st' = isTransitioning st
      /\ quizModalInfo st' = quizModalInfo st
      /\ (truthy (justAddedLandmarkId st) = false ->
          activeIndex st' = 1%Z /\ sidebarIndex st' = 1%Z)
  end
  /\ (forallb printable items = true ->
      exists newLandmarks,
        coerceAll (uploadItem rt now) items = Ok newLandmarks).
Proof.
  intros Hne Hparse. split.
  - unfold handleFileChange.
    destruct text; [contradiction|]. cbn [is_empty_string].
    rewrite Hparse. cbn [bind].
    destruct (coerceAll (uploadItem rt now) items) as [[|l ls]|e];
      [reflexivity| |reflexivity].
    cbn [fst snd]. split; [reflexivity|].
    unfold focusEffect. cbn.
    destruct (truthy (justAddedLandmarkId st)) eqn:Hj; cbn [andb].
    + match goal with
      | |- context [if ?b then _ else _] => destruct b
      end; cbn; repeat split; discriminate.
    + repeat split.
  - intros Hitems.
    destruct (coerceAll_total (uploadItem rt now) items) as (ls & Hls & _);
      [|eauto].
    intros item index Hin. apply uploadItem_printable.
    exact (forallb_In _ _ _ Hitems Hin).
Qed.

(** A file with one valid record and [null], uploaded on the intro. *)
Lemma X11_upload_of_an_array_witness :
  exists l,
    landmarks (fst (handleFileChange Examples.fileRuntime Examples.constants
                      0%float Examples.petraFile
                      (Examples.viewing [Examples.intro] 0%Z)))
    = [Examples.intro; l]
    /\ sidebarIndex (fst (handleFileChange Examples.fileRuntime
                            Examples.constants 0%float Examples.petraFile
                            (Examples.viewing [Examples.intro] 0%Z)))
       = 1%Z.
Proof.
  pose proof (proj1 (X11_upload_of_an_array Examples.fileRuntime
                       Examples.constants 0%float Examples.petraFile
                       [Examples.petraRecord; VNull]
                       (Examples.viewing [Examples.intro] 0%Z)
                       ltac:(discriminate) eq_refl)) as H.
  cbv [coerceAll] in H.
  cbn [map_from bind filter_not_null] in H.
  destruct H as (_ & Htour & _ & _ & _ & Hidx).
  eexists. split; [exact Htour|exact (proj2 (Hidx eq_refl))].
Defined.

(** *** Batches: positions, and what one throwing record does *)

Lemma map_from_nth {A : Type} (f : value -> nat -> result A)
  (xs : list value) (k : nat) (ys : list A) (i : nat) (y : A) :
  map_from f k xs = Ok ys ->
  nth_error ys i = Some y ->
  exists x, nth_error xs i = Some x /\ f x (k + i) = Ok y.
Proof.
  revert k ys i. induction xs as [|x xs IH]; intros k ys i; cbn [map_from].
  - intros [= <-]. destruct i; discriminate.
  - destruct (f x k) as [y0|] eqn:Hx; cbn [bind]; [|discriminate].
    destruct (map_from f (S k) xs) as [rest|] eqn:Hrest; cbn [bind];
      [|discriminate].
    intros [= <-]. destruct i as [|i]; cbn [nth_error].
    + intros [= <-]. exists x. rewrite Nat.add_0_r. split; [reflexivity|exact Hx].
    + intros Hy. destruct (IH _ _ _ Hrest Hy) as (x' & Hx' & Hf).
      exists x'. rewrite <- Nat.add_succ_comm. split; assumption.
Qed.

Lemma map_from_throws {A : Type} (f : value -> nat -> result A)
  (xs : list value) (x : value) :
  In x xs ->
  (forall i, exists e, f x i = Throw e) ->
  forall k, exists e, map_from f k xs = Throw e.
Proof.
  intros Hin Hthrow. induction xs as [|y xs IH]; [contradiction|].
  intros k. cbn [map_from].
  destruct (f y k) as [y'|e] eqn:Hy; cbn [bind]; [|eauto].
  destruct Hin as [->|Hin].
  - destruct (Hthrow k) as [e He]. congruence.
  - destruct (IH Hin (S k)) as [e ->]. cbn [bind]. eauto.
Qed.

(** X12.  The remote-artifact coercer keeps order and count: when it
    returns, the landmark at position [i] comes from the record at position
    [i], has the id [i + 1], the record's title as name and as title, its
    coordinates as they are, its country as only alias, the monument icon
    and a non-empty image address.  One [null] record anywhere makes the
    whole transformation throw. *)
Theorem X12_builder_landmarks_are_positional (rt : Runtime)
  (builderData : list value) :
  (forall ls,
     transformBuilderDataToLandmarks rt builderData = Ok ls ->
     List.length ls = List.length builderData
     /\ forall i l,
          nth_error ls i = Some l ->
          exists location,
            nth_error builderData i = Some location
            /\ id l = VNum (num_of_nat (i + 1))
            /\ name l = prop location "title"
            /\ title l = prop location "title"
            /\ coords l = prop location "coordinates"
            /\ aliases l = VArr [prop location "country"]
            /\ iconType l = VStr "monument"
            /\ truthy (imageUrl l) = true)
  /\ (In VNull builderData ->
      exists e, transformBuilderDataToLandmarks rt builderData = Throw e).
Proof.
  unfold transformBuilderDataToLandmarks. split.
  - intros ls Hls. split; [exact (map_from_length _ _ _ _ Hls)|].
    intros i l Hl.
    destruct (map_from_nth _ _ _ _ _ _ Hls Hl) as (location & Hloc & Hf).
    exists location. split; [exact Hloc|].
    cbn [Nat.add] in Hf. unfold transformLocation in Hf.
    destruct (get location "questions") as [questions|]; cbn [bind] in Hf;
      [|discriminate].
    match type of Hf with
    | (bind ?q _) = _ => destruct q as [quiz|]; cbn [bind] in Hf;
                         [|discriminate]
    end.
    injection Hf as <-. cbn.
    repeat (split; [reflexivity|]).
    apply or_else_truthy. reflexivity.
  - intros Hin. apply (map_from_throws _ _ VNull Hin).
    intros i. eexists. reflexivity.
Qed.

(** Two records: the second landmark has the id 2. *)
Lemma X12_builder_landmarks_are_positional_witness :
  exists l0 l1,
    transformBuilderDataToLandmarks Examples.runtime
      [Examples.noCoordinates; Examples.petraRecord] = Ok [l0; l1]
    /\ id l1 = VNum 2%float.
Proof.
  eexists _, _. split; [reflexivity|].
  destruct (proj1 (X12_builder_landmarks_are_positional Examples.runtime
                     [Examples.noCoordinates; Examples.petraRecord])
              _ eq_refl) as [_ Hpos].
  destruct (Hpos 1 _ eq_refl) as (location & _ & Hid & _).
  exact Hid.
Defined.

(** X13.  The dataset coercer is all-or-nothing on the name: one row with
    usable coordinates whose city is not a string makes the whole batch
    throw, and the loader then shows the built-in tour, whatever the other
    rows are. *)
Theorem X13_dataset_row_without_city_aborts_batch (rt : Runtime)
  (consts : Constants) (env : Env) (rows : list value)
  (kvs : list (string * value)) :
  dataset env = Some (Ok (VArr rows)) ->
  In (VObj kvs) rows ->
  usableCoords rt (lookup "coordinates" kvs) = true ->
  is_string (lookup "city" kvs) = false ->
  (exists e, coerceAll (datasetItem rt) rows = Throw e)
  /\ loadFromDataset rt consts env = FALLBACK_LANDMARKS consts.
Proof.
  intros Hds Hin Hc Hcity.
  assert (Hthrow : exists e, coerceAll (datasetItem rt) rows = Throw e).
  { unfold coerceAll.
    destruct (map_from_throws (datasetItem rt) rows (VObj kvs) Hin) with (k := 0)
      as [e ->]; [|cbn [bind]; eauto].
    intros i. unfold datasetItem. cbn [get prop bind].
    destruct (processCoords_usable rt _ Hc) as [c ->].
    destruct (lookup "city" kvs); try discriminate Hcity;
      cbn [call_toUpperCase bind]; eauto. }
  split; [exact Hthrow|].
  destruct Hthrow as [e He].
  unfold loadFromDataset. rewrite Hds.
  destruct rows as [|r rows]; [contradiction|].
  cbn [truthy length_gt0 andb]. rewrite He. reflexivity.
Qed.

(** A valid row followed by a row without a city. *)
Lemma X13_dataset_row_without_city_aborts_batch_witness :
  loadFromDataset Examples.runtime Examples.constants Examples.datasetEnv
  = FALLBACK_LANDMARKS Examples.constants.
Proof.
  refine (proj2 (X13_dataset_row_without_city_aborts_batch Examples.runtime
                   Examples.constants Examples.datasetEnv
                   [Examples.stringCoordinates; Examples.noCity]
                   [("coordinates", VArr [VNum 30%float; VNum 35%float])]
                   eq_refl _ eq_refl eq_refl)).
  right; left; reflexivity.
Defined.

(** *** The tour loader *)

Lemma filter_not_null_In {A : Type} (xs : list (option A)) (x : A) :
  In x (filter_not_null xs) -> In (Some x) xs.
Proof.
  induction xs as [|[y|] xs IH]; cbn; [tauto| |auto].
  intros [->|H]; auto.
Qed.

Lemma coerceAll_In (f : value -> nat -> result (option Landmark))
  (items : list value) (ls : list Landmark) (l : Landmark) :
  coerceAll f items = Ok ls ->
  In l ls ->
  exists item index, In item items /\ f item index = Ok (Some l).
Proof.
  unfold coerceAll.
  destruct (map_from f 0 items) as [mapped|] eqn:Hm; cbn [bind];
    [|discriminate].
  intros [= <-] Hin. apply filter_not_null_In in Hin.
  destruct (In_nth_error _ _ Hin) as [i Hi].
  destruct (map_from_nth _ _ _ _ _ _ Hm Hi) as (item & Hitem & Hf).
  exists item, (0 + i). split; [exact (nth_error_In _ _ Hitem)|exact Hf].
Qed.

(** X14.  When the remote artifact loads, it is the whole tour: the intro
    followed by one landmark per builder record, whatever the dataset and
    the store of custom landmarks hold; the stored overlay is not applied on
    this path.  Without the three session parameters the artifact is not
    used, whatever the network would answer. *)
Theorem X14_artifact_takes_precedence (rt : Runtime) (consts : Constants)
  (now : float) (env : Env) :
  (forall tour,
     loadFromArtifact rt consts env = Some tour ->
     (exists records ls,
        records <> []
        /\ transformBuilderDataToLandmarks rt records = Ok ls
        /\ tour = INTRO_LANDMARK consts :: ls
        /\ List.length tour = S (List.length records))
     /\ forall otherDataset otherStore,
          loadData rt consts now
            {| search := search env; fetch := fetch env;
               dataset := otherDataset; storedLocations := otherStore |}
          = tour)
  /\ (UrlParams.hasRequiredParams (UrlParams.getURLParams (search env))
      = false ->
      loadFromArtifact rt consts env = None
      /\ loadData rt consts now env
         = withOverlay rt now env (loadFromDataset rt consts env)).
Proof.
  split.
  - intros tour Htour. split.
    + revert Htour. unfold loadFromArtifact.
      destruct (UrlParams.hasRequiredParams _); [|discriminate].
      destruct (fetch env _) as [response|]; [|discriminate].
      destruct (ok response); [|discriminate].
      destruct (json response) as [data|]; [|discriminate].
      destruct (key_in "artifact_data" data) as [present|]; [|discriminate].
      destruct (present && _); [|discriminate].
      destruct (ToString rt _) as [text|]; cbn [bind]; [|discriminate].
      destruct (JSON_parse rt text) as [parsed|]; [|discriminate].
      destruct parsed as [| | | | | |[|first more]| |]; try discriminate.
      destruct (transformBuilderDataToLandmarks rt _) as [ls|] eqn:Hls;
        [|discriminate].
      intros [= <-]. exists (first :: more), ls.
      split; [discriminate|]. split; [exact Hls|]. split; [reflexivity|].
      cbn [List.length]. f_equal.
      exact (map_from_length _ _ _ _ Hls).
    + intros d s. unfold loadData.
      change (loadFromArtifact rt consts
                {| search := search env; fetch := fetch env;
                   dataset := d; storedLocations := s |})
        with (loadFromArtifact rt consts env).
      rewrite Htour. reflexivity.
  - intros Hreq.
    assert (Hnone : loadFromArtifact rt consts env = None)
      by (unfold loadFromArtifact; rewrite Hreq; reflexivity).
    split; [exact Hnone|].
    unfold loadData. rewrite Hnone. reflexivity.
Qed.

(** Without session parameters the built-in tour is shown; with them and
    a server that answers with an artifact of one record, the tour is the
    intro and that record's landmark, whatever the dataset and the store
    hold. *)
Lemma X14_artifact_takes_precedence_witness :
  loadData Examples.runtime Examples.constants 0%float Examples.bareEnv
  = withOverlay Examples.runtime 0%float Examples.bareEnv
      (loadFromDataset Examples.runtime Examples.constants Examples.bareEnv)
  /\ exists l,
       loadFromArtifact Examples.artifactRuntime Examples.constants
         Examples.artifactEnv = Some [Examples.intro; l]
       /\ loadData Examples.artifactRuntime Examples.constants 0%float
            {| search := search Examples.artifactEnv;
               fetch := fetch Examples.artifactEnv;
               dataset := None; storedLocations := None |}
          = [Examples.intro; l].
Proof.
  split.
  - exact (proj2 (proj2 (X14_artifact_takes_precedence Examples.runtime
                           Examples.constants 0%float Examples.bareEnv)
                    eq_refl)).
  - eexists. split; [reflexivity|].
    exact (proj2 (proj1 (X14_artifact_takes_precedence
                           Examples.artifactRuntime Examples.constants
                           0%float Examples.artifactEnv)
                    _ eq_refl) None None).
Defined.

(** X15.  The stored overlay only appends: the tour after the overlay step
    is the base tour followed by landmarks that each come from a stored
    record and are well formed (non-blank name, finite coordinates).  A
    store that is absent, empty, not parsable or not an array adds
    nothing. *)
Theorem X15_overlay_only_appends (rt : Runtime) (now : float) (env : Env)
  (base : list Landmark) :
  (exists extra,
     withOverlay rt now env base = base ++ extra
     /\ forall l, In l extra ->
                  usableName (name l) = true /\ finiteCoords (coords l)
                  /\ exists s records item index,
                       storedLocations env = Some s
                       /\ JSON_parse rt s = Ok (VArr records)
                       /\ In item records
                       /\ overlayItem rt now item index = Ok (Some l))
  /\ (storedLocations env = None -> withOverlay rt now env base = base)
  /\ (storedLocations env = Some "" -> withOverlay rt now env base = base)
  /\ (forall s e,
        storedLocations env = Some s -> JSON_parse rt s = Throw e ->
        withOverlay rt now env base = base)
  /\ (forall s v,
        storedLocations env = Some s -> JSON_parse rt s = Ok v ->
        isArray v = false ->
        withOverlay rt now env base = base).
Proof.
  unfold withOverlay.
  split; [|split; [|split; [|split]]].
  - assert (Hnil : exists extra,
               base = base ++ extra
               /\ forall l, In l extra ->
                            usableName (name l) = true
                            /\ finiteCoords (coords l)
                            /\ exists s records item index,
                                 storedLocations env = Some s
                                 /\ JSON_parse rt s = Ok (VArr records)
                                 /\ In item records
                                 /\ overlayItem rt now item index
                                    = Ok (Some l))
      by (exists []; rewrite app_nil_r; split; [reflexivity|contradiction]).
    destruct (storedLocations env) as [s|] eqn:Hstored; [|exact Hnil].
    destruct (is_empty_string s); [exact Hnil|].
    destruct (JSON_parse rt s) as [parsed|] eqn:Hparsed; [|exact Hnil].
    destruct parsed as [| | | | | |records| |]; try exact Hnil.
    destruct (coerceAll (overlayItem rt now) records) as [custom|] eqn:Hc;
      [|exact Hnil].
    exists custom. split; [reflexivity|].
    intros l Hl.
    destruct (coerceAll_In _ _ _ _ Hc Hl) as (item & index & Hin & Hitem).
    destruct (overlayItem_well_formed rt now item index l Hitem)
      as (Hname & Hcoords & _).
    split; [exact Hname|]. split; [exact Hcoords|].
    exists s, records, item, index. repeat split; assumption.
  - intros ->. reflexivity.
  - intros ->. reflexivity.
  - intros s e -> Hp. destruct (is_empty_string s); [reflexivity|].
    rewrite Hp. reflexivity.
  - intros s v -> Hp Harr. destruct (is_empty_string s); [reflexivity|].
    rewrite Hp. destruct v; try discriminate Harr; reflexivity.
Qed.

(** The page without stored landmarks. *)
Lemma X15_overlay_only_appends_witness :
  withOverlay Examples.runtime 0%float Examples.bareEnv [Examples.intro]
  = [Examples.intro].
Proof.
  exact (proj1 (proj2 (X15_overlay_only_appends Examples.runtime 0%float
                         Examples.bareEnv [Examples.intro]))
           eq_refl).
Defined.

(** *** Session parameters *)

Lemma endsWith_slash (b : string) : endsWith "/"%char (b ++ "/") = true.
Proof.
  induction b as [|c b IH]; [reflexivity|].
  cbn [String.append endsWith]. destruct b; [reflexivity|exact IH].
Qed.

Lemma dropLast_slash (b : string) : UrlParams.dropLast (b ++ "/") = b.
Proof.
  induction b as [|c b IH]; [reflexivity|].
  cbn [String.append UrlParams.dropLast].
  destruct b; [reflexivity|]. rewrite <- IH at 2. reflexivity.
Qed.

(** X16.  [getURLParams] removes exactly one trailing slash of [base_url]
    and leaves a base address without trailing slash as it is; so two pages
    that differ only in that slash have the same session parameters and
    send the same quiz submission. *)
Theorem X16_trailing_slash_is_immaterial (b : string)
  (search1 search2 : string -> option string) :
  search1 "token" = search2 "token" ->
  search1 "artifact_id" = search2 "artifact_id" ->
  search1 "base_url" = Some b ->
  search2 "base_url" = Some (b ++ "/")%string ->
  endsWith "/"%char b = false ->
  UrlParams.baseUrl (UrlParams.getURLParams search2) = Some b
  /\ UrlParams.getURLParams search1 = UrlParams.getURLParams search2
  /\ forall rt fetch submissionData,
       QuizSubmission.submitQuizResults rt search1 fetch submissionData
       = QuizSubmission.submitQuizResults rt search2 fetch submissionData.
Proof.
  intros Ht Ha H1 H2 Hb.
  assert (Hp : UrlParams.getURLParams search1 = UrlParams.getURLParams search2).
  { unfold UrlParams.getURLParams. rewrite Ht, Ha, H1, H2, Hb.
    rewrite endsWith_slash, dropLast_slash, andb_false_r.
    destruct b; reflexivity. }
  split; [|split; [exact Hp|]].
  - rewrite <- Hp. unfold UrlParams.getURLParams. rewrite H1, Hb, andb_false_r.
    reflexivity.
  - intros rt fetch d. unfold QuizSubmission.submitQuizResults.
    rewrite Hp. reflexivity.
Qed.

(** The base address "https://h" with and without the slash. *)
Lemma X16_trailing_slash_is_immaterial_witness :
  UrlParams.getURLParams Examples.queryNoSlash
  = UrlParams.getURLParams Examples.query.
Proof.
  exact (proj1 (proj2 (X16_trailing_slash_is_immaterial "https://h"
                         Examples.queryNoSlash Examples.query
                         eq_refl eq_refl eq_refl eq_refl eq_refl))).
Defined.

(** *** Navigation stays inside the tour *)

Local Open Scope Z_scope.

Lemma findIndex_from_range (target : value) (ls : list Landmark) (k : Z) :
  0 <= k ->
  findIndex_from target ls k = -1
  \/ k <= findIndex_from target ls k < k + len ls.
Proof.
  revert k. unfold len.
  induction ls as [|l ls IH]; intros k Hk; cbn [findIndex_from List.length].
  - left. reflexivity.
  - destruct (strict_eq (id l) target); [right; lia|].
    destruct (IH (k + 1) ltac:(lia)) as [->|H]; [left; reflexivity|right; lia].
Qed.

Lemma findIndex_range (target : value) (ls : list Landmark) :
  findIndex target ls = -1 \/ 0 <= findIndex target ls < len ls.
Proof.
  destruct (findIndex_from_range target ls 0 ltac:(lia)) as [H|H];
    [left; exact H|right; unfold findIndex; lia].
Qed.

Lemma at_index_in_range (ls : list Landmark) (i : Z) :
  0 <= i < len ls -> exists l, at_index ls i = Some l.
Proof.
  unfold at_index, len. intros H.
  destruct (Z.ltb_spec i 0); [lia|].
  destruct (nth_error ls (Z.to_nat i)) as [l|] eqn:Hn; [eauto|].
  apply nth_error_None in Hn. lia.
Qed.

Lemma navigable_slide (st : AppState) (nextIndex : Z) (out back : string) :
  navigable st ->
  inTour (len (landmarks st)) nextIndex ->
  navigable
    (setTimeout EndTransition 800
       (setTimeout (SwapSidebar nextIndex back) 400
          (setActiveIndex nextIndex
             (setAnimationClass out (setIsTransitioning true st))))).
Proof.
  intros (Ha & Hs & Ht & Hc) Hnext.
  unfold navigable. cbn.
  repeat split; try assumption; try apply Hnext; try apply Hs.
  rewrite <- app_assoc. apply Forall_app. split; [exact Ht|].
  constructor; [exact Hnext|]. constructor; [exact I|constructor].
Qed.

Lemma navigable_transition (st : AppState) (i m : Z) :
  navigable st -> 0 <= i < m -> m <= len (landmarks st) ->
  navigable (transition i m st).
Proof.
  intros Hnav Hi Hm. unfold transition.
  apply (navigable_slide st (Z.rem (i + 1) m)); [exact Hnav|].
  pose proof (Z.rem_bound_pos (i + 1) m ltac:(lia) ltac:(lia)).
  unfold inTour. lia.
Qed.

Lemma navigable_dispatch (rt : Runtime) (i : Intent) (st : AppState) :
  navigable st -> navigable (dispatch rt i st).
Proof.
  intros Hnav. pose proof Hnav as (Ha & Hs & Ht & Hc).
  destruct i as [| |target]; cbn [dispatch].
  - unfold handleNext.
    destruct (isTransitioning st || Nat.eqb (List.length (landmarks st)) 0);
      [exact Hnav|].
    assert (Hgo : navigable
                    (transition (sidebarIndex st) (len (landmarks st)) st))
      by (apply navigable_transition; [exact Hnav|exact Hs|lia]).
    destruct (at_index (landmarks st) (sidebarIndex st)) as [l|];
      [|exact Hgo].
    destruct (gated rt l) as [[|]|]; [|exact Hgo|exact Hnav].
    unfold navigable. cbn. repeat split; try assumption;
      try apply Ha; try apply Hs; lia.
  - unfold handlePrev.
    destruct (isTransitioning st || Nat.eqb (List.length (landmarks st)) 0);
      [exact Hnav|].
    apply navigable_slide; [exact Hnav|].
    unfold inTour in *.
    pose proof (Z.rem_bound_pos (sidebarIndex st - 1 + len (landmarks st))
                  (len (landmarks st)) ltac:(lia) ltac:(lia)).
    lia.
  - unfold handleSelectLandmark.
    destruct (isTransitioning st); [exact Hnav|].
    destruct (findIndex_range target (landmarks st)) as [->|Hr];
      [exact Hnav|].
    destruct (negb (findIndex target (landmarks st) =? -1)
              && negb (findIndex target (landmarks st) =? sidebarIndex st));
      [|exact Hnav].
    unfold navigable. cbn. repeat split; try assumption;
      try apply Ha; try apply Hs.
    rewrite <- app_assoc. apply Forall_app. split; [exact Ht|].
    constructor; [exact Hr|]. constructor; [exact I|constructor].
Qed.

Lemma navigable_quizComplete (st : AppState) :
  navigable st -> navigable (quizComplete st).
Proof.
  intros Hnav. pose proof Hnav as (Ha & Hs & Ht & Hc).
  unfold quizComplete.
  destruct (onComplete (quizModalInfo st)) as [|i m] eqn:Hq; [exact Hnav|].
  cbn [closureInTour] in Hc.
  apply navigable_transition; [|lia|cbn; lia].
  unfold navigable. cbn. repeat split; try assumption;
    try apply Ha; try apply Hs.
Qed.

Lemma takeDue_Forall (P : nat * TimerAction -> Prop) (d : nat)
  (ts rest : list (nat * TimerAction)) (a : TimerAction) :
  takeDue d ts = Some (a, rest) ->
  Forall P ts -> P (d, a) /\ Forall P rest.
Proof.
  revert rest. induction ts as [|[d' b] ts IH]; intros rest; cbn [takeDue];
    [discriminate|].
  destruct (Nat.eqb_spec d' d) as [->|Hne].
  - intros [= <- <-] H. inversion H; subst. split; assumption.
  - destruct (takeDue d ts) as [[c rest']|]; [|discriminate].
    intros [= <- <-] H. inversion H; subst.
    destruct (IH rest' eq_refl ltac:(assumption)) as [Hc Hrest].
    split; [exact Hc|constructor; assumption].
Qed.

Lemma navigable_fireTimer (st : AppState) :
  navigable st -> navigable (fireTimer st).
Proof.
  intros Hnav. pose proof Hnav as (Ha & Hs & Ht & Hc).
  unfold fireTimer.
  destruct (earliest (timers st)) as [d|]; [|exact Hnav].
  destruct (takeDue d (timers st)) as [[a rest]|] eqn:Hdue; [|exact Hnav].
  destruct (takeDue_Forall _ _ _ _ _ Hdue Ht) as [Hfired Hrest].
  assert (Hrest' : Forall (timerInTour (len (landmarks st)))
                     (map (fun t => ((fst t - d)%nat, snd t)) rest)).
  { apply Forall_map. apply Forall_impl with (2 := Hrest).
    intros [d' b] H. exact H. }
  unfold timerInTour in Hfired. cbn [snd] in Hfired.
  destruct a; unfold navigable; cbn; repeat split; try assumption;
    try apply Ha; try apply Hs; try apply Hfired.
Qed.

(** X17.  Navigation never leaves the tour.  If the two current indices,
    the targets of the pending timeouts and the pending quiz closure all
    lie inside the tour, they still do after any sequence of navigation
    intents, quiz completions and timeouts; the tour itself is unchanged,
    and the sidebar always has a landmark to show. *)
Theorem X17_navigation_stays_inside_the_tour (rt : Runtime)
  (events : list NavEvent) (st : AppState) :
  navigable st ->
  navigable (navRun rt events st)
  /\ landmarks (navRun rt events st) = landmarks st
  /\ exists l,
       at_index (landmarks (navRun rt events st))
         (sidebarIndex (navRun rt events st)) = Some l.
Proof.
  intros Hnav.
  assert (H : navigable (navRun rt events st)
              /\ landmarks (navRun rt events st) = landmarks st).
  { revert st Hnav. unfold navRun.
    induction events as [|e events IH]; intros st Hnav; cbn [fold_left];
      [split; [exact Hnav|reflexivity]|].
    assert (Hstep : navigable (navStep rt st e)
                    /\ landmarks (navStep rt st e) = landmarks st).
    { destruct e as [i| |]; cbn [navStep].
      - split; [apply navigable_dispatch, Hnav|apply landmarks_dispatch].
      - split; [apply navigable_quizComplete, Hnav
               |apply landmarks_quizComplete].
      - split; [apply navigable_fireTimer, Hnav|apply landmarks_fireTimer]. }
    destruct Hstep as [Hn Hl].
    destruct (IH _ Hn) as [Hn' Hl'].
    split; [exact Hn'|]. rewrite Hl'. exact Hl. }
  destruct H as [Hn Hl]. split; [exact Hn|]. split; [exact Hl|].
  apply at_index_in_range. apply Hn.
Qed.

(** Scenario A from the intro, through a few events. *)
Lemma X17_navigation_stays_inside_the_tour_witness :
  exists l,
    at_index Examples.scenarioA
      (sidebarIndex
         (navRun Examples.runtime MoreExamples.someEvents
            (Examples.viewing Examples.scenarioA 0))) = Some l.
Proof.
  assert (Hnav : navigable (Examples.viewing Examples.scenarioA 0)).
  { unfold navigable, inTour. cbn. repeat split; try lia; constructor. }
  destruct (X17_navigation_stays_inside_the_tour Examples.runtime
              MoreExamples.someEvents _ Hnav) as (_ & Hl & l & Hat).
  exists l. rewrite Hl in Hat. exact Hat.
Defined.

Lemma navigable_focusEffect (st : AppState) :
  navigable st -> navigable (focusEffect st).
Proof.
  intros Hnav. pose proof Hnav as (Ha & Hs & Ht & Hc).
  unfold focusEffect.
  destruct (truthy (justAddedLandmarkId st)
            && negb (Nat.eqb (List.length (landmarks st)) 0)); [|exact Hnav].
  destruct (findIndex_range (justAddedLandmarkId st) (landmarks st))
    as [->|Hr]; [exact Hnav|].
  destruct (negb (findIndex (justAddedLandmarkId st) (landmarks st) =? -1));
    [|exact Hnav].
  unfold navigable. cbn. repeat split; try assumption; apply Hr.
Qed.

Lemma Forall_timerInTour_mono (n m : Z) (ts : list (nat * TimerAction)) :
  n <= m -> Forall (timerInTour n) ts -> Forall (timerInTour m) ts.
Proof.
  intros Hnm. apply Forall_impl. intros [d a]. unfold timerInTour, inTour.
  cbn [snd]. destruct a; try lia; auto.
Qed.

(** X18.  Changing the tour keeps the navigation inside it: appending a
    custom landmark always does, and so does a file upload when no timeout
    and no quiz closure is pending; after each of them the sidebar has a
    landmark to show. *)
Theorem X18_tour_changes_keep_navigation_inside (rt : Runtime)
  (consts : Constants) (now : float) (st : AppState) :
  navigable st ->
  (forall newLandmarkData,
     navigable (handleSaveLandmark rt now newLandmarkData st))
  /\ (forall text,
        timers st = [] ->
        onComplete (quizModalInfo st) = Noop ->
        navigable (fst (handleFileChange rt consts now text st))).
Proof.
  intros Hnav. pose proof Hnav as (Ha & Hs & Ht & Hc). split.
  - intros data. unfold handleSaveLandmark.
    destruct (modalCoords st) as [c|]; [|exact Hnav].
    apply navigable_focusEffect. cbv zeta.
    match goal with
    | |- context [match ?w with Ok _ => _ | Throw _ => _ end] => destruct w
    end;
      unfold navigable, inTour, len in *; cbn;
      rewrite length_app; cbn [List.length];
      (repeat split; try lia;
       [apply Forall_timerInTour_mono with (2 := Ht); lia
       |destruct (onComplete (quizModalInfo st)); cbn in *; [exact I|lia]]).
  - intros text Htimers Hquiz. unfold handleFileChange.
    match goal with
    | |- context [match ?p with Ok _ => _ | Throw _ => _ end] =>
        destruct p as [[|l ls]|e]
    end; cbn [fst]; try exact Hnav.
    apply navigable_focusEffect.
    unfold navigable, inTour, len. cbn. rewrite Htimers, Hquiz.
    repeat split; try lia; constructor.
Qed.

(** A file with one valid record, uploaded on the intro. *)
Lemma X18_tour_changes_keep_navigation_inside_witness :
  navigable
    (fst (handleFileChange Examples.fileRuntime Examples.constants 0%float
            Examples.petraFile (Examples.viewing [Examples.intro] 0))).
Proof.
  refine (proj2 (X18_tour_changes_keep_navigation_inside Examples.fileRuntime
                   Examples.constants 0%float
                   (Examples.viewing [Examples.intro] 0) _)
            Examples.petraFile eq_refl eq_refl).
  unfold navigable, inTour. cbn. repeat split; try lia; constructor.
Defined.

(** X19.  An upload does not cancel a slide in flight.  When the file is
    uploaded between [Next] and the first timeout of its slide, and the new
    tour is too short for the slide's target, the timeouts still run: the
    sidebar index ends on the old target, outside the new tour, where there
    is no landmark to show, while the active index stays 1. *)
Theorem X19_upload_does_not_cancel_a_slide (rt : Runtime)
  (consts : Constants) (now : float) (text : string) (items : list value)
  (newLandmarks : list Landmark) (st : AppState) (target : Z)
  (animation : string) :
  timers st = [(400%nat, SwapSidebar target animation);
               (800%nat, EndTransition)] ->
  truthy (justAddedLandmarkId st) = false ->
  text <> "" ->
  JSON_parse rt text = Ok (VArr items) ->
  coerceAll (uploadItem rt now) items = Ok newLandmarks ->
  newLandmarks <> [] ->
  Z.of_nat (S (List.length newLandmarks)) <= target ->
  let settled :=
    fireTimer (fireTimer (fst (handleFileChange rt consts now text st))) in
  landmarks settled = INTRO_LANDMARK consts :: newLandmarks
  /\ sidebarIndex settled = target
  /\ activeIndex settled = 1
  /\ isTransitioning settled = false
  /\ at_index (landmarks settled) (sidebarIndex settled) = None.
Proof.
  intros Htimers Hj Htext Hparse Hls Hne Hshort.
  assert (Hup : handleFileChange rt consts now text st
                = (setSidebarIndex 1
                     (setActiveIndex 1
                        (setLandmarks (INTRO_LANDMARK consts :: newLandmarks)
                           st)), [])).
  { unfold handleFileChange. destruct text; [contradiction|].
    cbn [is_empty_string]. rewrite Hparse. cbn [bind]. rewrite Hls.
    destruct newLandmarks as [|l ls]; [contradiction|].
    unfold focusEffect. cbn. rewrite Hj. reflexivity. }
  rewrite Hup. cbn [fst].
  match goal with
  | |- context [fireTimer (fireTimer ?s)] =>
      destruct (slide_settles s target animation Htimers)
        as (Hside & Hact & Hdone & _);
      pose proof (landmarks_fireTimer (fireTimer s)) as Hl1;
      pose proof (landmarks_fireTimer s) as Hl2
  end.
  cbv zeta in *. rewrite Hl2 in Hl1. cbn in Hl1, Hact.
  rewrite Hl1, Hside.
  repeat split; try assumption.
  unfold at_index. destruct (Z.ltb_spec target 0); [reflexivity|].
  apply nth_error_None. cbn [List.length]. lia.
Qed.

(** A tour of four, a slide to index 3 in flight, and a file with one valid
    record. *)
Lemma X19_upload_does_not_cancel_a_slide_witness :
  at_index
    (landmarks
       (fireTimer
          (fireTimer
             (fst (handleFileChange Examples.fileRuntime Examples.constants
                     0%float Examples.petraFile
                     MoreExamples.slidingToThree)))))
    3 = None.
Proof.
  destruct (X19_upload_does_not_cancel_a_slide Examples.fileRuntime
              Examples.constants 0%float Examples.petraFile
              [Examples.petraRecord; VNull] _ MoreExamples.slidingToThree 3
              "animate-slide-in-right-full"
              eq_refl eq_refl ltac:(discriminate) eq_refl eq_refl
              ltac:(discriminate) ltac:(cbn; lia))
    as (_ & Hside & _ & _ & Hnone).
  cbv zeta in Hside, Hnone. rewrite Hside in Hnone. exact Hnone.
Defined.

(** X20.  [Previous] undoes [Next]: from a state at rest on a landmark that
    is not gated, pressing [Next], letting the slide finish, pressing
    [Previous] and letting that slide finish leads back to the same index,
    with the same tour and navigation enabled. *)
Theorem X20_previous_undoes_next (rt : Runtime) (st : AppState) :
  isTransitioning st = false ->
  timers st = [] ->
  0 <= sidebarIndex st < len (landmarks st) ->
  (forall l, at_index (landmarks st) (sidebarIndex st) = Some l ->
             gated rt l = Ok false) ->
  let there := fireTimer (fireTimer (handleNext rt st)) in
  let back := fireTimer (fireTimer (handlePrev there)) in
  sidebarIndex back = sidebarIndex st
  /\ activeIndex back = sidebarIndex st
  /\ isTransitioning back = false
  /\ timers back = []
  /\ landmarks back = landmarks st.
Proof.
  intros Htr Htimers Hrange Hgate.
  assert (Hlen : 0 < len (landmarks st)) by lia.
  rewrite (handleNext_ungated rt st Htr Hlen Hgate).
  set (n := len (landmarks st)) in *.
  set (i := sidebarIndex st) in *.
  set (j := Z.rem (i + 1) n).
  set (s0 := transition i n st).
  destruct (slide_settles s0 j "animate-slide-in-right-full")
    as (Hside & Hact & Hdone & Hnone).
  { unfold s0, transition. cbn. rewrite Htimers. reflexivity. }
  cbv zeta in Hside, Hact, Hdone, Hnone.
  set (there := fireTimer (fireTimer s0)) in *.
  assert (Hl : landmarks there = landmarks st).
  { unfold there. rewrite !landmarks_fireTimer. reflexivity. }
  cbv zeta.
  assert (Hlen' : 0 < len (landmarks there)) by (rewrite Hl; exact Hlen).
  rewrite (handlePrev_at_rest there Hdone Hlen').
  rewrite Hl, Hside. fold n.
  set (k := Z.rem (j - 1 + n) n).
  match goal with
  | |- context [fireTimer (fireTimer ?s)] =>
      destruct (slide_settles s k "animate-slide-in-left-full")
        as (Hside' & Hact' & Hdone' & Hnone');
      [cbn; rewrite Hnone; reflexivity|];
      pose proof (landmarks_fireTimer (fireTimer s)) as Hl1;
      pose proof (landmarks_fireTimer s) as Hl2
  end.
  cbv zeta in Hside', Hact', Hdone', Hnone'.
  rewrite Hl2 in Hl1. cbn in Hl1, Hact'.
  assert (Hk : k = i).
  { unfold k, j. rewrite !Z.rem_mod_nonneg; try lia.
    - destruct (Z.eq_dec (i + 1) n) as [He|He].
      + rewrite He, Z.mod_same by lia.
        replace (0 - 1 + n) with (n - 1) by lia.
        rewrite Z.mod_small; lia.
      + rewrite (Z.mod_small (i + 1) n) by lia.
        replace (i + 1 - 1 + n) with (i + 1 * n) by lia.
        rewrite Z.mod_add by lia. apply Z.mod_small. lia.
    - pose proof (Z.rem_bound_pos (i + 1) n ltac:(lia) ltac:(lia)). lia. }
  rewrite Hside', Hact', Hdone', Hnone', Hl1, Hl, Hk.
  repeat split.
Qed.

(** Scenario A from the intro: [Next] and back. *)
Lemma X20_previous_undoes_next_witness :
  sidebarIndex
    (fireTimer
       (fireTimer
          (handlePrev
             (fireTimer
                (fireTimer
                   (handleNext Examples.runtime
                      (Examples.viewing Examples.scenarioA 0)))))))
  = 0.
Proof.
  refine (proj1 (X20_previous_undoes_next Examples.runtime
                   (Examples.viewing Examples.scenarioA 0)
                   eq_refl eq_refl ltac:(cbn; lia) _)).
  intros l [= <-]. reflexivity.
Defined.

(** *** Jumping to a landmark, and adding one *)

Lemma findIndex_from_found (target : value) (ls : list Landmark) (k : Z) :
  0 <= k ->
  findIndex_from target ls k <> -1 ->
  exists l,
    at_index ls (findIndex_from target ls k - k) = Some l
    /\ strict_eq (id l) target = true
    /\ forall i l', 0 <= i < findIndex_from target ls k - k ->
                    at_index ls i = Some l' ->
                    strict_eq (id l') target = false.
Proof.
  revert k. induction ls as [|l ls IH]; intros k Hk; cbn [findIndex_from];
    [contradiction|].
  destruct (strict_eq (id l) target) eqn:Hl.
  - intros _. exists l. rewrite Z.sub_diag. split; [reflexivity|].
    split; [exact Hl|]. intros i l' Hi. lia.
  - intros Hfound.
    destruct (IH (k + 1) ltac:(lia) Hfound) as (l0 & Hat & Heq & Hfirst).
    destruct (findIndex_from_range target ls (k + 1) ltac:(lia))
      as [Hr|Hr]; [contradiction|].
    set (r := findIndex_from target ls (k + 1)) in *.
    exists l0. split; [|split; [exact Heq|]].
    + unfold at_index in *. destruct (Z.ltb_spec (r - (k + 1)) 0); [lia|].
      destruct (Z.ltb_spec (r - k) 0); [lia|].
      replace (Z.to_nat (r - k)) with (S (Z.to_nat (r - (k + 1)))) by lia.
      exact Hat.
    + intros i l' Hi Hat'. destruct (Z.eq_dec i 0) as [->|Hi0].
      * cbn in Hat'. injection Hat' as <-. exact Hl.
      * apply (Hfirst (i - 1) l'); [lia|].
        unfold at_index in *. destruct (Z.ltb_spec i 0); [lia|].
        destruct (Z.ltb_spec (i - 1) 0); [lia|].
        replace (Z.to_nat i) with (S (Z.to_nat (i - 1))) in Hat' by lia.
        exact Hat'.
Qed.

Lemma fade_settles (st : AppState) (index : Z) :
  timers st = [((300)%nat, SwapBoth index); ((600)%nat, EndTransition)] ->
  let settled := fireTimer (fireTimer st) in
  sidebarIndex settled = index
  /\ activeIndex settled = index
  /\ isTransitioning settled = false
  /\ timers settled = []
  /\ landmarks settled = landmarks st
  /\ quizModalInfo settled = quizModalInfo st.
Proof.
  intros Ht. cbv zeta.
  rewrite (fireTimer_first_of_two st _ _ _ _ Ht) by lia.
  rewrite (fireTimer_only _ ((600 - 300)%nat) EndTransition) by reflexivity.
  repeat split.
Qed.

(** X21.  [JumpTo] goes to the first landmark that carries the id.  In a
    state at rest, a jump to an id that no landmark has, or to the landmark
    already shown, changes nothing; any other jump ends, after its two
    timeouts, with both indices on the first index whose landmark has that
    id, and navigation enabled.  The jump is not gated by a quiz. *)
Theorem X21_jump_goes_to_the_first_match (st : AppState) (target : value) :
  isTransitioning st = false ->
  timers st = [] ->
  let j := findIndex target (landmarks st) in
  (j = -1 \/ j = sidebarIndex st -> handleSelectLandmark target st = st)
  /\ (j <> -1 -> j <> sidebarIndex st ->
      let settled := fireTimer (fireTimer (handleSelectLandmark target st)) in
      activeIndex settled = j
      /\ sidebarIndex settled = j
      /\ isTransitioning settled = false
      /\ landmarks settled = landmarks st
      /\ quizModalInfo settled = quizModalInfo st
      /\ exists l,
           at_index (landmarks st) j = Some l
           /\ strict_eq (id l) target = true
           /\ forall i l', 0 <= i < j ->
                           at_index (landmarks st) i = Some l' ->
                           strict_eq (id l') target = false).
Proof.
  intros Htr Htimers j. unfold handleSelectLandmark. rewrite Htr. fold j.
  split.
  - intros [->| ->]; [reflexivity|].
    rewrite Z.eqb_refl, andb_false_r. reflexivity.
  - intros H1 H2.
    apply Z.eqb_neq in H1 as E1. apply Z.eqb_neq in H2 as E2.
    rewrite E1, E2. cbn [negb andb].
    match goal with
    | |- context [fireTimer (fireTimer ?s)] =>
        destruct (fade_settles s j) as (Hs & Ha & Hd & _ & Hl & Hq);
        [cbn; rewrite Htimers; reflexivity|]
    end.
    cbv zeta in *. rewrite Hs, Ha, Hd, Hl, Hq. cbn [landmarks quizModalInfo].
    repeat (split; [reflexivity|]).
    destruct (findIndex_from_found target (landmarks st) 0 ltac:(lia) H1)
      as (l & Hat & Heq & Hfirst).
    rewrite Z.sub_0_r in Hat, Hfirst. exists l. repeat split; assumption.
Qed.

(** Scenario A from the intro: the landmark with id 1 is at index 2. *)
Lemma X21_jump_goes_to_the_first_match_witness :
  sidebarIndex
    (fireTimer
       (fireTimer
          (handleSelectLandmark (VNum 1%float)
             (Examples.viewing Examples.scenarioA 0))))
  = 2.
Proof.
  destruct (X21_jump_goes_to_the_first_match
              (Examples.viewing Examples.scenarioA 0) (VNum 1%float)
              eq_refl eq_refl) as [_ Hjump].
  exact (proj1 (proj2 (Hjump ltac:(discriminate) ltac:(discriminate)))).
Defined.

Lemma findIndex_from_app_fresh (target : value) (ls : list Landmark)
  (new : Landmark) (k : Z) :
  (forall l, In l ls -> strict_eq (id l) target = false) ->
  strict_eq (id new) target = true ->
  findIndex_from target (ls ++ [new]) k = k + len ls.
Proof.
  revert k. unfold len.
  induction ls as [|l ls IH]; intros k Hfresh Hnew;
    cbn [app findIndex_from List.length].
  - rewrite Hnew. lia.
  - rewrite (Hfresh l (or_introl eq_refl)).
    rewrite IH; [lia| |exact Hnew].
    intros l' Hl'. apply Hfresh. right. exact Hl'.
Qed.

Lemma findIndex_from_app_hit (target : value) (ls more : list Landmark)
  (k : Z) :
  (exists l, In l ls /\ strict_eq (id l) target = true) ->
  k <= findIndex_from target (ls ++ more) k < k + len ls.
Proof.
  revert k. unfold len.
  induction ls as [|l ls IH]; intros k (l0 & Hin & Hl0); [contradiction|].
  cbn [app findIndex_from List.length].
  destruct (strict_eq (id l) target) eqn:Hl; [lia|].
  destruct Hin as [->|Hin]; [congruence|].
  specialize (IH (k + 1) (ex_intro _ l0 (conj Hin Hl0))). lia.
Qed.

Lemma focusEffect_found (st : AppState) :
  truthy (justAddedLandmarkId st) = true ->
  landmarks st <> [] ->
  findIndex (justAddedLandmarkId st) (landmarks st) <> -1 ->
  focusEffect st
  = setJustAdded VNull
      (setSidebarIndex (findIndex (justAddedLandmarkId st) (landmarks st))
         (setActiveIndex (findIndex (justAddedLandmarkId st) (landmarks st))
            st)).
Proof.
  intros Hj Hne Hfound. unfold focusEffect. rewrite Hj.
  destruct (landmarks st) as [|l ls] eqn:Hl; [contradiction|].
  cbn [List.length Nat.eqb negb andb].
  apply Z.eqb_neq in Hfound. rewrite Hfound. reflexivity.
Qed.

Lemma number_equals_itself (x : float) :
  truthy (VNum x) = true -> strict_eq (VNum x) (VNum x) = true.
Proof.
  cbn [truthy strict_eq]. unfold PrimFloat.is_nan.
  destruct (PrimFloat.eqb x x); [reflexivity|].
  rewrite orb_true_r. discriminate.
Qed.

(** X22.  Saving a custom landmark appends exactly one landmark, with
    [Date.now()] as id and the coordinates of the dialog, closes the dialog
    and moves both indices to the first landmark that carries the new id:
    the new landmark, at the end of the tour, when the id is fresh; an older
    landmark when one already has that id.  Without coordinates in the
    dialog nothing happens. *)
Theorem X22_saving_appends_and_focuses (rt : Runtime) (now : float)
  (newLandmarkData : Landmark) (st : AppState) :
  (modalCoords st = None ->
   handleSaveLandmark rt now newLandmarkData st = st)
  /\ (forall c,
        modalCoords st = Some c ->
        truthy (VNum now) = true ->
        let saved := handleSaveLandmark rt now newLandmarkData st in
        (exists new,
           landmarks saved = landmarks st ++ [new]
           /\ id new = VNum now
           /\ coords new = coordsValue c
           /\ name new = name newLandmarkData)
        /\ modalCoords saved = None
        /\ justAddedLandmarkId saved = VNull
        /\ activeIndex saved = sidebarIndex saved
        /\ ((forall l, In l (landmarks st) ->
                       strict_eq (id l) (VNum now) = false) ->
            sidebarIndex saved = len (landmarks st))
        /\ ((exists l, In l (landmarks st)
                       /\ strict_eq (id l) (VNum now) = true) ->
            0 <= sidebarIndex saved < len (landmarks st))).
Proof.
  split; [intros H; unfold handleSaveLandmark; rewrite H; reflexivity|].
  intros c Hc Hnow. unfold handleSaveLandmark. rewrite Hc. cbv zeta.
  set (new := {| id := VNum now; coords := coordsValue c;
                 name := name newLandmarkData |}).
  pose proof (number_equals_itself now Hnow) as Hself.
  assert (Hfound : findIndex (VNum now) (landmarks st ++ [new]) <> -1).
  { unfold findIndex.
    destruct (findIndex_from_range (VNum now) (landmarks st ++ [new]) 0
                ltac:(lia)) as [Hr|Hr]; [|lia].
    exfalso. clear - Hr Hself.
    assert (H : forall ls k, 0 <= k ->
                findIndex_from (VNum now) (ls ++ [new]) k <> -1).
    { induction ls as [|l ls IH]; intros k Hk; cbn [app findIndex_from].
      - subst new. cbn [id]. rewrite Hself. lia.
      - destruct (strict_eq (id l) (VNum now)); [lia|]. apply IH. lia. }
    exact (H _ 0 ltac:(lia) Hr). }
  match goal with
  | |- context [match ?w with Ok _ => _ | Throw _ => _ end] => destruct w
  end;
    (rewrite focusEffect_found;
     [|exact Hnow|cbn; destruct (landmarks st); discriminate
      |exact Hfound]);
    cbn;
    (split; [exists new; repeat split|]);
    (repeat (split; [reflexivity|]));
    (split;
     [intros Hfresh; unfold findIndex;
      rewrite findIndex_from_app_fresh; [lia|exact Hfresh|exact Hself]
     |intros Hhit; unfold findIndex;
      pose proof (findIndex_from_app_hit (VNum now) (landmarks st) [new] 0
                    Hhit); lia]).
Qed.

(** The dialog holds coordinates; the time 1000 is a fresh id. *)
Lemma X22_saving_appends_and_focuses_witness :
  sidebarIndex
    (handleSaveLandmark Examples.runtime 1000%float Examples.plainLandmark
       MoreExamples.adding)
  = 2.
Proof.
  destruct (proj2 (X22_saving_appends_and_focuses Examples.runtime 1000%float
                     Examples.plainLandmark MoreExamples.adding)
              _ eq_refl eq_refl) as (_ & _ & _ & _ & Hfresh & _).
  apply Hfresh.
  intros l [<-|[<-|[]]]; reflexivity.
Defined.

(** *** The quiz modal *)

Local Open Scope nat_scope.

Import QuizModal QuizFacts.

Lemma click_nonempty (questions : list value) (b : Button) (st : State) :
  questions <> [] ->
  click questions b st
  = (view <- rendered questions st ;;
     if showResults st then
       match b with
       | ContinueButton => Ok (st, true)
       | _ => Ok (st, false)
       end
     else
       match b with
       | OptionButton index =>
           if (index <? List.length (fst view)) && negb (isAnswered st)
           then Ok (handleOptionSelect index st, false)
           else Ok (st, false)
       | CheckAnswerButton =>
           if negb (isAnswered st)
              && match selectedOptionIndex st with
                 | Some _ => true
                 | None => false
                 end
           then Ok (checkAnswer (snd view) st, false)
           else Ok (st, false)
       | NextButton =>
           if isAnswered st then Ok (handleNext questions st, false)
           else Ok (st, false)
       | ContinueButton => Ok (st, false)
       end).
Proof.
  destruct questions; [contradiction|reflexivity].
Qed.

Ltac quiz_cases :=
  repeat match goal with
         | |- context [if ?c then _ else _] =>
             let E := fresh "E" in destruct c eqn:E
         | |- context [match ?s with Some _ => _ | None => _ end] =>
             let E := fresh "E" in destruct s eqn:E
         end.

Lemma click_step (questions : list value) (b : Button) (st st' : State)
  (c : bool) :
  click questions b st = Ok (st', c) ->
  currentQ st < List.length questions ->
  currentQ st' < List.length questions
  /\ progress questions st' <= progress questions st + 1
  /\ (c = true -> showResults st = true)
  /\ (showResults st = true -> st' = st).
Proof.
  intros Hclick Hlt.
  rewrite click_nonempty in Hclick by (destruct questions; [cbn in Hlt; lia|discriminate]).
  destruct (rendered questions st) as [[opts idx]|]; cbn [bind fst snd] in Hclick;
    [|discriminate].
  destruct st as [cq sel ans sc show]. cbn [showResults isAnswered
    selectedOptionIndex currentQ] in *.
  destruct show.
  - destruct b; injection Hclick as <- <-; unfold progress; cbn;
      repeat split; auto; lia.
  - destruct b as [index| | |].
    + destruct ((index <? List.length opts) && negb ans) eqn:Hc;
        injection Hclick as <- <-;
        unfold progress, handleOptionSelect; cbn;
        [apply andb_prop in Hc as [_ Hc];
         apply negb_true_iff in Hc; subst ans; cbn|];
        repeat split; try discriminate; try lia;
        destruct sel; lia.
    + destruct ans; cbn [negb andb] in Hclick.
      * injection Hclick as <- <-. unfold progress; cbn.
        repeat split; try discriminate; lia.
      * destruct sel as [s|]; injection Hclick as <- <-;
          unfold progress, checkAnswer; cbn;
          repeat split; try discriminate; lia.
    + destruct ans.
      * injection Hclick as <- <-. unfold progress, handleNext.
        cbn [currentQ score showResults].
        destruct (Z.ltb_spec (Z.of_nat cq)
                    (Z.of_nat (List.length questions) - 1));
          cbn; repeat split; try discriminate; lia.
      * injection Hclick as <- <-. unfold progress; cbn.
        repeat split; try discriminate; try lia; destruct sel; lia.
    + injection Hclick as <- <-. unfold progress; cbn.
      repeat split; try discriminate; try lia; destruct ans, sel; lia.
Qed.

Lemma clicks_progress (questions : list value) (bs : list Button)
  (st st' : State) (completed completed' : bool) :
  clicks questions bs st completed = Ok (st', completed') ->
  currentQ st < List.length questions ->
  (completed = true -> showResults st = true) ->
  progress questions st' + (if completed' then 1 else 0)
  <= progress questions st + (if completed then 1 else 0) + List.length bs
  /\ (completed' = true -> showResults st' = true)
  /\ currentQ st' < List.length questions.
Proof.
  revert st completed.
  induction bs as [|b bs IH]; intros st completed; cbn [clicks List.length].
  - intros [= <- <-] Hlt Hc. split; [lia|]. split; assumption.
  - destruct (click questions b st) as [[s1 c1]|] eqn:Hclick; cbn [bind fst snd];
      [|discriminate].
    intros Hrun Hlt Hc.
    destruct (click_step _ _ _ _ _ Hclick Hlt) as (Hlt1 & Hp & Hc1 & Hshow).
    assert (Hc' : completed || c1 = true -> showResults s1 = true).
    { intros H. apply orb_prop in H as [H|H].
      - rewrite (Hshow (Hc H)). exact (Hc H).
      - rewrite (Hshow (Hc1 H)). exact (Hc1 H). }
    destruct (IH s1 (completed || c1) Hrun Hlt1 Hc') as (Hq & Hfin & Hlt').
    split; [|split; assumption].
    destruct completed; cbn [orb] in Hq.
    + rewrite (Hshow (Hc eq_refl)) in Hq. lia.
    + destruct c1; [|lia].
      rewrite (Hshow (Hc1 eq_refl)) in Hq. lia.
Qed.

Lemma clicks_on_empty_quiz (bs : list Button) (st : State) (completed : bool) :
  clicks [] bs st completed = Ok (st, completed).
Proof.
  revert completed. induction bs as [|b bs IH]; intros completed;
    cbn [clicks click bind fst snd]; [reflexivity|].
  rewrite orb_false_r. apply IH.
Qed.

Lemma forallb_nth {A : Type} (P : A -> bool) (xs : list A) (i : nat) (d : A) :
  forallb P xs = true -> i < List.length xs -> P (nth i xs d) = true.
Proof.
  revert i. induction xs as [|x xs IH]; intros i H Hi; [cbn in Hi; lia|].
  cbn in H. apply andb_prop in H as [H1 H2].
  destruct i; [exact H1|]. cbn. apply IH; [exact H2|cbn in Hi; lia].
Qed.

Lemma findCorrect_total (opts : list value) (k : Z) :
  forallb validOption opts = true -> exists idx, findCorrect opts k = Ok idx.
Proof.
  revert k. induction opts as [|o opts IH]; intros k H; cbn [findCorrect];
    [eauto|].
  cbn in H. apply andb_prop in H as [Ho H].
  unfold validOption in Ho.
  destruct o; try discriminate Ho; cbn [get bind];
    match goal with
    | |- context [if ?c then _ else _] => destruct c; eauto
    end.
Qed.

Lemma rendered_total (questions : list value) (st : State) :
  forallb shapedQuestion questions = true ->
  currentQ st < List.length questions ->
  exists view, rendered questions st = Ok view.
Proof.
  intros Hall Hlt.
  pose proof (forallb_nth _ _ _ VUndefined Hall Hlt) as Hq.
  unfold rendered. set (q := nth (currentQ st) questions VUndefined) in *.
  unfold shapedQuestion in Hq.
  apply andb_prop in Hq as [Hq Hopts]. apply andb_prop in Hq as [Hq _].
  apply andb_prop in Hq as [Hq _]. apply andb_prop in Hq as [Hobj Hnull].
  assert (Hget : get q "options" = Ok (prop q "options"))
    by (destruct q; try discriminate Hobj; try discriminate Hnull; reflexivity).
  rewrite Hget. cbn [bind].
  destruct (prop q "options") as [| | | | | |opts| |]; try discriminate Hopts.
  destruct (findCorrect_total opts 0%Z Hopts) as [idx ->]. cbn [bind]. eauto.
Qed.

Lemma clicks_total (questions : list value) (bs : list Button) (st : State)
  (completed : bool) :
  forallb shapedQuestion questions = true ->
  currentQ st < List.length questions ->
  exists r, clicks questions bs st completed = Ok r.
Proof.
  intros Hall. revert st completed.
  induction bs as [|b bs IH]; intros st completed Hlt; cbn [clicks]; [eauto|].
  destruct (rendered_total questions st Hall Hlt) as [view Hview].
  assert (Hclick : exists r, click questions b st = Ok r).
  { rewrite click_nonempty by (destruct questions; [cbn in Hlt; lia|discriminate]).
    rewrite Hview. cbn [bind]. quiz_cases; destruct b; quiz_cases; eauto. }
  destruct Hclick as [[s1 c1] Hclick]. rewrite Hclick. cbn [bind fst snd].
  apply IH. exact (proj1 (click_step _ _ _ _ _ Hclick Hlt)).
Qed.

(** X23.  The quiz cannot be completed without answering every question.
    From the state in which the modal opens, [onComplete] is called, and
    the results are shown, only after every question went through a
    selection, "Check Answer" and "Next": showing the results takes at
    least three accepted clicks per question and completing one more.  An
    empty quiz can never be completed.  On a quiz of shaped questions no
    click throws. *)
Theorem X23_quiz_completion_needs_every_answer (questions : list value)
  (bs : list Button) :
  (forall st completed,
     clicks questions bs opened false = Ok (st, completed) ->
     (showResults st = true -> 3 * List.length questions <= List.length bs)
     /\ (completed = true ->
         questions <> []
         /\ 3 * List.length questions + 1 <= List.length bs))
  /\ (forallb shapedQuestion questions = true ->
      exists r, clicks questions bs opened false = Ok r).
Proof.
  split.
  - intros st completed Hrun.
    destruct questions as [|q qs].
    + rewrite clicks_on_empty_quiz in Hrun. injection Hrun as <- <-.
      split; discriminate.
    + destruct (clicks_progress _ _ _ _ _ _ Hrun) as (Hp & Hfin & _);
        [cbn; lia|discriminate|].
      unfold progress at 2 in Hp. cbn [opened showResults currentQ isAnswered
        selectedOptionIndex] in Hp.
      split.
      * intros Hshow. unfold progress in Hp. rewrite Hshow in Hp.
        destruct completed; lia.
      * intros ->. split; [discriminate|].
        unfold progress in Hp. rewrite (Hfin eq_refl) in Hp. lia.
  - intros Hall. destruct questions as [|q qs].
    + rewrite clicks_on_empty_quiz. eauto.
    + apply clicks_total; [exact Hall|cbn; lia].
Qed.

Lemma X23_quiz_completion_needs_every_answer_witness :
  (forall st completed,
     clicks MoreExamples.twoQuestions MoreExamples.fullSession opened false
     = Ok (st, completed) ->
     (showResults st = true ->
      3 * List.length MoreExamples.twoQuestions
      <= List.length MoreExamples.fullSession)
     /\ (completed = true ->
         MoreExamples.twoQuestions <> []
         /\ 3 * List.length MoreExamples.twoQuestions + 1
            <= List.length MoreExamples.fullSession))
  /\ (forallb shapedQuestion MoreExamples.twoQuestions = true ->
      exists r,
        clicks MoreExamples.twoQuestions MoreExamples.fullSession opened false
        = Ok r)
  /\ clicks MoreExamples.twoQuestions MoreExamples.fullSession opened false
     = Ok (mkState 1 None false 1 true, true)
  /\ forallb shapedQuestion MoreExamples.twoQuestions = true.
Proof.
  destruct (X23_quiz_completion_needs_every_answer MoreExamples.twoQuestions
              MoreExamples.fullSession) as [H1 H2].
  split; [exact H1|]. split; [exact H2|]. split; reflexivity.
Defined.

Lemma findCorrect_hit (opts : list value) (k idx : Z) :
  (0 <= k)%Z ->
  findCorrect opts k = Ok idx ->
  (0 <= idx)%Z ->
  existsb (fun o => truthy (prop o "isCorrect")) opts = true.
Proof.
  revert k. induction opts as [|o opts IH]; intros k Hk; cbn [findCorrect existsb].
  - intros [= <-] H. lia.
  - destruct o; cbn [get bind]; try discriminate;
      match goal with
      | |- context [if truthy ?v then _ else _] =>
          destruct (truthy v) eqn:Ht; cbn [orb]; [reflexivity|]
      end;
      apply IH; lia.
Qed.

Lemma rendered_hit (questions : list value) (st : State) (opts : list value)
  (idx : Z) :
  rendered questions st = Ok (opts, idx) ->
  (0 <= idx)%Z ->
  hasCorrectOption (nth (currentQ st) questions VUndefined) = true.
Proof.
  unfold rendered, hasCorrectOption.
  set (q := nth (currentQ st) questions VUndefined).
  destruct (get q "options") as [options|] eqn:Hget; cbn [bind]; [|discriminate].
  assert (Hprop : prop q "options" = options)
    by (destruct q; try discriminate Hget; injection Hget as <-; reflexivity).
  rewrite Hprop.
  destruct options as [| | | | | |os| |]; try discriminate.
  destruct (findCorrect os 0%Z) as [i|] eqn:Hfind; cbn [bind]; [|discriminate].
  intros [= <- <-] Hidx. exact (findCorrect_hit _ _ _ (Z.le_refl 0) Hfind Hidx).
Qed.

Lemma firstn_snoc {A : Type} (xs : list A) (i : nat) (d : A) :
  i < List.length xs -> firstn (i + 1) xs = firstn i xs ++ [nth i xs d].
Proof.
  revert i. induction xs as [|x xs IH]; intros i Hi; [cbn in Hi; lia|].
  destruct i; [reflexivity|].
  cbn [Nat.add firstn nth app]. f_equal. apply IH. cbn in Hi. lia.
Qed.

Lemma correctable_app (xs ys : list value) :
  correctable (xs ++ ys) = correctable xs + correctable ys.
Proof.
  unfold correctable. rewrite filter_app, length_app. reflexivity.
Qed.

Lemma correctable_firstn (questions : list value) (i : nat) :
  correctable (firstn i questions) <= correctable questions.
Proof.
  rewrite <- (firstn_skipn i questions) at 2. rewrite correctable_app. lia.
Qed.

Lemma click_score (questions : list value) (b : Button) (st st' : State)
  (c : bool) :
  click questions b st = Ok (st', c) ->
  currentQ st < List.length questions ->
  score st <= correctable (firstn (answered questions st) questions) ->
  score st' <= correctable (firstn (answered questions st') questions).
Proof.
  intros Hclick Hlt.
  rewrite click_nonempty in Hclick by (destruct questions; [cbn in Hlt; lia|discriminate]).
  destruct (rendered questions st) as [[opts idx]|] eqn:Hview;
    cbn [bind fst snd] in Hclick; [|discriminate].
  pose proof (rendered_hit _ _ _ _ Hview) as Hhit.
  destruct st as [cq sel ans sc show]. cbn [showResults isAnswered
    selectedOptionIndex currentQ score] in *.
  destruct show.
  - destruct b; injection Hclick as <- <-; auto.
  - destruct b as [index| | |].
    + destruct ((index <? List.length opts) && negb ans) eqn:Hc;
        injection Hclick as <- <-; auto.
      apply andb_prop in Hc as [_ Hc]. apply negb_true_iff in Hc. subst ans.
      unfold handleOptionSelect, answered. cbn. auto.
    + destruct ans; cbn [negb andb] in Hclick;
        [injection Hclick as <- <-; auto|].
      destruct sel as [s|]; injection Hclick as <- <-; auto.
      unfold checkAnswer, answered. cbn [showResults currentQ isAnswered
        selectedOptionIndex score].
      rewrite Nat.add_0_r. intros Hsc.
      rewrite (firstn_snoc _ _ VUndefined Hlt), correctable_app.
      destruct (Z.eqb_spec (Z.of_nat s) idx) as [Heq|]; [|lia].
      unfold correctable at 2. cbn [filter]. rewrite Hhit by lia.
      cbn [List.length]. lia.
    + destruct ans; injection Hclick as <- <-; auto.
      unfold handleNext, answered. cbn [showResults currentQ isAnswered
        selectedOptionIndex score].
      destruct (Z.ltb_spec (Z.of_nat cq)
                  (Z.of_nat (List.length questions) - 1));
        cbn [showResults currentQ isAnswered score].
      * rewrite Nat.add_0_r. auto.
      * replace (List.length questions) with (cq + 1) at 1 by lia. auto.
    + injection Hclick as <- <-; auto.
Qed.

Lemma clicks_score (questions : list value) (bs : list Button)
  (st st' : State) (completed completed' : bool) :
  clicks questions bs st completed = Ok (st', completed') ->
  currentQ st < List.length questions ->
  score st <= correctable (firstn (answered questions st) questions) ->
  score st' <= correctable (firstn (answered questions st') questions).
Proof.
  revert st completed.
  induction bs as [|b bs IH]; intros st completed; cbn [clicks].
  - intros [= <- <-] _ H. exact H.
  - destruct (click questions b st) as [[s1 c1]|] eqn:Hclick; cbn [bind fst snd];
      [|discriminate].
    intros Hrun Hlt Hsc.
    apply (IH _ _ Hrun).
    + exact (proj1 (click_step _ _ _ _ _ Hclick Hlt)).
    + exact (click_score _ _ _ _ _ Hclick Hlt Hsc).
Qed.

(** X24.  The score never exceeds what can be scored.  Through any
    sequence of clicks from the opening state, the score is at most the
    number of questions, among those answered so far, that have an option
    marked correct; so it is at most the number of such questions of the
    quiz, and a quiz whose questions have no correct option scores 0
    whatever is selected. *)
Theorem X24_score_is_bounded_by_correctable_answers (questions : list value)
  (bs : list Button) (st : State) (completed : bool) :
  clicks questions bs opened false = Ok (st, completed) ->
  score st <= correctable (firstn (answered questions st) questions)
  /\ score st <= correctable questions
  /\ answered questions st <= List.length questions
  /\ (forallb (fun q => negb (hasCorrectOption q)) questions = true ->
      score st = 0).
Proof.
  intros Hrun.
  assert (Hmain : score st
                  <= correctable (firstn (answered questions st) questions)
                  /\ answered questions st <= List.length questions).
  { destruct questions as [|q qs].
    - rewrite clicks_on_empty_quiz in Hrun. injection Hrun as <- <-.
      cbn. lia.
    - split.
      + apply (clicks_score _ _ _ _ _ _ Hrun); cbn; lia.
      + destruct (clicks_progress _ _ _ _ _ _ Hrun) as (_ & _ & Hlt);
          [cbn; lia|discriminate|].
        unfold answered. destruct (showResults st), (isAnswered st); lia. }
  destruct Hmain as [Hsc Hans].
  pose proof (correctable_firstn questions (answered questions st)) as Hle.
  repeat split; try lia.
  intros Hnone.
  assert (Hzero : correctable questions = 0).
  { unfold correctable. clear -Hnone.
    induction questions as [|q qs IH]; [reflexivity|].
    cbn in Hnone. apply andb_prop in Hnone as [Hq Hqs].
    apply negb_true_iff in Hq. cbn [filter]. rewrite Hq. exact (IH Hqs). }
  lia.
Qed.

Lemma X24_score_is_bounded_by_correctable_answers_witness :
  clicks MoreExamples.twoQuestions MoreExamples.fullSession opened false
  = Ok (mkState 1 None false 1 true, true)
  /\ score (mkState 1 None false 1 true)
     <= correctable
          (firstn (answered MoreExamples.twoQuestions
                     (mkState 1 None false 1 true))
             MoreExamples.twoQuestions)
  /\ correctable MoreExamples.twoQuestions = 1.
Proof.
  split; [reflexivity|]. split; [|reflexivity].
  exact (proj1 (X24_score_is_bounded_by_correctable_answers
                  MoreExamples.twoQuestions MoreExamples.fullSession
                  (mkState 1 None false 1 true) true eq_refl)).
Defined.

(** *** Adding a landmark: from the form to the next load *)

Lemma nonblank_truthy (s : string) : blank s = false -> truthy (VStr s) = true.
Proof. destruct s; [discriminate|reflexivity]. Qed.

Lemma processCoords_coordsValue (rt : Runtime) (c : float * float) :
  isFinite (fst c) && isFinite (snd c) = true ->
  processCoords rt (coordsValue c) = Ok (Some c).
Proof.
  intros H. unfold processCoords, coordsValue.
  cbn [is_null negb andb ToNumber bind]. rewrite H. destruct c; reflexivity.
Qed.

Lemma or_else_left (a b : value) : truthy a = true -> a ||| b = a.
Proof. unfold or_else. intros ->. reflexivity. Qed.

Lemma or_else_same (a : value) : a ||| a = a.
Proof. unfold or_else. destruct (truthy a); reflexivity. Qed.

Lemma overlayItem_reads (rt : Runtime) (now : float) (item : value)
  (index : nat) (l : Landmark) (c : float * float) (n : string) :
  readsLike item (landmarkValue l) ->
  coords l = coordsValue c ->
  isFinite (fst c) && isFinite (snd c) = true ->
  name l = VStr n ->
  blank n = false ->
  truthy (imageUrl l) = true ->
  overlayItem rt now item index
  = Ok (Some
      {| id := if is_number (id l) then id l else VNum now;
         name := name l;
         title := title l ||| VStr (toUpperCase rt n);
         description := description l ||| VStr "";
         aliases := VUndefined;
         imageUrl := imageUrl l;
         coords := coords l;
         iconType := if isIconType (iconType l) then iconType l
                     else VStr "monument";
         videoUrl := videoUrl l ||| VNull;
         audioUrl := audioUrl l ||| VNull;
         quiz := parseAndValidateQuiz rt (quiz l);
         block_navigation := to_bool (block_navigation l) |}).
Proof.
  intros (Hobj & Hnull & Hread) Hcoords Hfin Hname Hblank Himage.
  unfold overlayItem. rewrite Hobj, Hnull. cbn [negb orb].
  assert (Hget : forall k, get item k = Ok (prop item k))
    by (intros k; destruct item; try discriminate Hobj;
        try discriminate Hnull; reflexivity).
  rewrite !Hget. cbn [bind]. rewrite !Hread.
  change (prop (landmarkValue l) "coords") with (coords l).
  change (prop (landmarkValue l) "name") with (name l).
  change (prop (landmarkValue l) "id") with (id l).
  change (prop (landmarkValue l) "title") with (title l).
  change (prop (landmarkValue l) "description") with (description l).
  change (prop (landmarkValue l) "imageUrl") with (imageUrl l).
  change (prop (landmarkValue l) "iconType") with (iconType l).
  change (prop (landmarkValue l) "videoUrl") with (videoUrl l).
  change (prop (landmarkValue l) "audioUrl") with (audioUrl l).
  change (prop (landmarkValue l) "quiz") with (quiz l).
  change (prop (landmarkValue l) "block_navigation")
    with (block_navigation l).
  rewrite Hcoords, (processCoords_coordsValue rt c Hfin). cbn [bind].
  rewrite Hname, Hblank, Himage. cbn [bind].
  reflexivity.
Qed.

(** X25.  A landmark added through the form passes the overlay coercer
    of a later load.  With a name and a description that are not blank
    (white space being what [trim] strips) and finite coordinates in the
    dialog, the form's data is saved as one new landmark, and the overlay
    coercer accepts every object that reads like that landmark's record: it
    gives back the same id, name, title, description, image and
    coordinates, the same icon type when the form's is one of the three
    known, and no quiz; an absent video or audio URL comes back as [null]
    and the navigation flag as [false].  A blank name or description saves
    nothing, and without coordinates in the dialog saving changes
    nothing. *)
Theorem X25_added_landmark_passes_the_overlay_coercer (rt : Runtime)
  (formTime saveTime loadTime : float) (f : AddLandmarkModal.Form)
  (c : float * float) (st : AppState) (index : nat) :
  (blank (AddLandmarkModal.formName f)
   || blank (AddLandmarkModal.formDescription f) = true ->
   exists message, AddLandmarkModal.handleSave rt formTime f = inl message)
  /\ (modalCoords st = None ->
      forall data, handleSaveLandmark rt saveTime data st = st)
  /\ (blank (AddLandmarkModal.formName f) = false ->
      blank (AddLandmarkModal.formDescription f) = false ->
      modalCoords st = Some c ->
      isFinite (fst c) && isFinite (snd c) = true ->
      exists data new,
        AddLandmarkModal.handleSave rt formTime f = inr data
        /\ landmarks (handleSaveLandmark rt saveTime data st)
           = landmarks st ++ [new]
        /\ forall item,
             readsLike item (landmarkValue new) ->
             exists reloaded,
               overlayItem rt loadTime item index = Ok (Some reloaded)
               /\ id reloaded = id new
               /\ id new = VNum saveTime
               /\ name reloaded = name new
               /\ name new = VStr (AddLandmarkModal.formName f)
               /\ title reloaded = title new
               /\ title new
                  = VStr (toUpperCase rt (AddLandmarkModal.formName f))
               /\ description reloaded = description new
               /\ imageUrl reloaded = imageUrl new
               /\ coords reloaded = coords new
               /\ coords new = coordsValue c
               /\ (isIconType (VStr (AddLandmarkModal.formIconType f)) = true ->
                   iconType reloaded = iconType new)
               /\ videoUrl reloaded = videoUrl new ||| VNull
               /\ audioUrl reloaded = audioUrl new ||| VNull
               /\ quiz reloaded = VUndefined
               /\ block_navigation reloaded = VBool false).
Proof.
  split; [|split].
  - intros H. unfold AddLandmarkModal.handleSave. rewrite H. eauto.
  - intros Hc data. unfold handleSaveLandmark. rewrite Hc. reflexivity.
  - intros Hname Hdesc Hc Hfin.
    unfold AddLandmarkModal.handleSave. rewrite Hname, Hdesc. cbn [orb].
    eexists. eexists. split; [reflexivity|].
    split.
    { unfold handleSaveLandmark. rewrite Hc. cbv zeta.
      rewrite landmarks_focusEffect.
      match goal with
      | |- context [match ?w with Ok _ => _ | Throw _ => _ end] => destruct w
      end; reflexivity. }
    intros item Hread.
    assert (Himage :
              truthy (VStr (trim (AddLandmarkModal.formImageUrl f))
                      ||| VStr ("https://picsum.photos/seed/"
                                ++ NumberToString rt formTime
                                ++ "/1200/800")%string) = true)
      by (apply or_else_truthy; reflexivity).
    rewrite (overlayItem_reads rt loadTime item index _ c
               (AddLandmarkModal.formName f) Hread eq_refl Hfin eq_refl Hname
               Himage).
    eexists. split; [reflexivity|].
    cbn [id name title description imageUrl coords iconType videoUrl audioUrl
         quiz block_navigation is_number].
    repeat split.
    + apply or_else_same.
    + apply or_else_left. apply nonblank_truthy. exact Hdesc.
    + intros ->. reflexivity.
Qed.

Lemma X25_added_landmark_passes_the_overlay_coercer_witness :
  exists data,
    AddLandmarkModal.handleSave Examples.runtime 5%float MoreExamples.cafeForm
    = inr data
    /\ landmarks (handleSaveLandmark Examples.runtime 7%float data
                    MoreExamples.adding)
       = landmarks MoreExamples.adding ++ [MoreExamples.cafe]
    /\ exists reloaded,
         overlayItem Examples.runtime 9%float
           (landmarkValue MoreExamples.cafe) 0
         = Ok (Some reloaded)
         /\ id reloaded = VNum 7%float
         /\ name reloaded = VStr "Cafe"
         /\ coords reloaded = VArr [VNum 30%float; VNum 35%float]
         /\ videoUrl reloaded = VNull.
Proof.
  destruct (proj2 (proj2 (X25_added_landmark_passes_the_overlay_coercer
                            Examples.runtime 5%float 7%float 9%float
                            MoreExamples.cafeForm (30%float, 35%float)
                            MoreExamples.adding 0))
              eq_refl eq_refl eq_refl eq_refl)
    as (data & new & Hdata & Hnew & Hitem).
  exists data. split; [exact Hdata|].
  injection Hdata as <-.
  assert (Hcafe : new = MoreExamples.cafe)
    by (vm_compute in Hnew; injection Hnew as <-; reflexivity).
  subst new. split; [exact Hnew|].
  destruct (Hitem (landmarkValue MoreExamples.cafe))
    as (reloaded & Hr & Hid & _ & Hn & _ & _ & _ & _ & _ & Hco & _ & _ & Hv
        & _).
  { split; [reflexivity|]. split; reflexivity. }
  exists reloaded. split; [exact Hr|].
  split; [exact Hid|]. split; [exact Hn|]. split; [exact Hco|]. exact Hv.
Defined.

(** *** The audio player: volume and mute *)

Lemma toggleMute_unmutes (v : AudioPlayer.Volume) :
  AudioPlayer.isMuted v = true ->
  AudioPlayer.isMuted (AudioPlayer.toggleMute v) = false
  /\ PrimFloat.ltb 0%float (AudioPlayer.volume (AudioPlayer.toggleMute v))
     = true.
Proof.
  intros H. unfold AudioPlayer.toggleMute. rewrite H. cbn.
  destruct (PrimFloat.ltb 0%float (AudioPlayer.lastVolume v)) eqn:Hl;
    split; auto.
Qed.

Lemma volumeStep_muted_is_silent (v : AudioPlayer.Volume)
  (e : AudioPlayer.VolumeEvent) :
  (AudioPlayer.isMuted v = true ->
   PrimFloat.ltb 0%float (AudioPlayer.volume v) = false) ->
  AudioPlayer.isMuted (AudioPlayer.volumeStep v e) = true ->
  PrimFloat.ltb 0%float (AudioPlayer.volume (AudioPlayer.volumeStep v e))
  = false.
Proof.
  intros Hv. destruct e as [newVolume|]; cbn [AudioPlayer.volumeStep].
  - unfold AudioPlayer.handleVolumeChange.
    destruct (PrimFloat.ltb 0%float newVolume) eqn:Hn; cbn; auto.
    discriminate.
  - unfold AudioPlayer.toggleMute.
    destruct (AudioPlayer.isMuted v); cbn; [discriminate|reflexivity].
Qed.

(** X26.  Mute and volume of the audio player.  Whatever the slider and
    the mute button did since the player was mounted, a muted player has
    no positive volume; un-muting always ends with a positive volume (the
    one from before the mute, or 0.5 when that was not positive); and
    muting an audible player and un-muting it gives back its volume. *)
Theorem X26_mute_and_volume (events : list AudioPlayer.VolumeEvent) :
  (AudioPlayer.isMuted
     (fold_left AudioPlayer.volumeStep events AudioPlayer.initialVolume)
   = true ->
   PrimFloat.ltb 0%float
     (AudioPlayer.volume
        (fold_left AudioPlayer.volumeStep events AudioPlayer.initialVolume))
   = false
   /\ AudioPlayer.isMuted
        (fold_left AudioPlayer.volumeStep (events ++ [AudioPlayer.MuteButton])
           AudioPlayer.initialVolume)
      = false
   /\ PrimFloat.ltb 0%float
        (AudioPlayer.volume
           (fold_left AudioPlayer.volumeStep
              (events ++ [AudioPlayer.MuteButton])
              AudioPlayer.initialVolume))
      = true)
  /\ (AudioPlayer.isMuted
        (fold_left AudioPlayer.volumeStep events AudioPlayer.initialVolume)
      = false ->
      PrimFloat.ltb 0%float
        (AudioPlayer.volume
           (fold_left AudioPlayer.volumeStep events AudioPlayer.initialVolume))
      = true ->
      AudioPlayer.volume
        (fold_left AudioPlayer.volumeStep
           (events ++ [AudioPlayer.MuteButton; AudioPlayer.MuteButton])
           AudioPlayer.initialVolume)
      = AudioPlayer.volume
          (fold_left AudioPlayer.volumeStep events AudioPlayer.initialVolume)
      /\ AudioPlayer.isMuted
           (fold_left AudioPlayer.volumeStep
              (events ++ [AudioPlayer.MuteButton; AudioPlayer.MuteButton])
              AudioPlayer.initialVolume)
         = false).
Proof.
  rewrite !fold_left_app. cbn [fold_left AudioPlayer.volumeStep].
  assert (Hinv : forall v,
             (AudioPlayer.isMuted v = true ->
              PrimFloat.ltb 0%float (AudioPlayer.volume v) = false) ->
             AudioPlayer.isMuted (fold_left AudioPlayer.volumeStep events v)
             = true ->
             PrimFloat.ltb 0%float
               (AudioPlayer.volume (fold_left AudioPlayer.volumeStep events v))
             = false).
  { induction events as [|e es IH]; intros v Hv; cbn [fold_left]; [exact Hv|].
    apply IH. apply volumeStep_muted_is_silent. exact Hv. }
  set (v := fold_left AudioPlayer.volumeStep events AudioPlayer.initialVolume)
    in *.
  split.
  - intros Hm. split; [apply Hinv; [discriminate|exact Hm]|].
    apply toggleMute_unmutes. exact Hm.
  - intros Hm Hpos. unfold AudioPlayer.toggleMute.
    rewrite Hm. cbn. rewrite Hpos. split; reflexivity.
Qed.

Lemma X26_mute_and_volume_witness :
  AudioPlayer.volume
    (fold_left AudioPlayer.volumeStep
       ([AudioPlayer.Slider 0.25%float]
        ++ [AudioPlayer.MuteButton; AudioPlayer.MuteButton])
       AudioPlayer.initialVolume)
  = 0.25%float
  /\ PrimFloat.ltb 0%float
       (AudioPlayer.volume
          (fold_left AudioPlayer.volumeStep
             ([AudioPlayer.Slider 0%float; AudioPlayer.MuteButton]
              ++ [AudioPlayer.MuteButton])
             AudioPlayer.initialVolume))
     = true.
Proof.
  split.
  - exact (proj1 (proj2 (X26_mute_and_volume [AudioPlayer.Slider 0.25%float])
                    eq_refl eq_refl)).
  - exact (proj2 (proj2 (proj1 (X26_mute_and_volume
                                  [AudioPlayer.Slider 0%float;
                                   AudioPlayer.MuteButton])
                           eq_refl))).
Defined.

(** *** The chat: sending a message *)

Import GeminiChat.

Lemma updateLast_snoc (fullResponse : string) (before : list Message)
  (m : Message) :
  updateLast fullResponse (before ++ [m])
  = before ++ [if isModel (role m) then mkMessage (role m) fullResponse
               else m].
Proof.
  induction before as [|x before IH]; cbn [app updateLast].
  - destruct (isModel (role m)); reflexivity.
  - rewrite <- IH. destruct before; reflexivity.
Qed.

Lemma dropPlaceholder_snoc (before : list Message) (m : Message) :
  dropPlaceholder (before ++ [m])
  = if isModel (role m) && is_empty_string (text m) then before
    else before ++ [m].
Proof.
  unfold dropPlaceholder. rewrite rev_unit, removelast_last. reflexivity.
Qed.

Lemma consume_spec (stream : Stream) (fullResponse : string)
  (before : list Message) (st : State) :
  conversation st = before ++ [mkMessage Model fullResponse] ->
  snd (consume stream fullResponse st) = failure stream
  /\ conversation (fst (consume stream fullResponse st))
     = before ++ [mkMessage Model (received stream fullResponse)]
  /\ isLoading (fst (consume stream fullResponse st)) = isLoading st
  /\ error (fst (consume stream fullResponse st)) = error st.
Proof.
  revert fullResponse st.
  induction stream as [|e|chunkText rest IH]; intros fullResponse st Hconv;
    cbn [consume failure received fst snd]; auto.
  destruct (hasText chunkText); [|apply IH; exact Hconv].
  match goal with
  | |- context [consume rest ?f ?s] =>
      destruct (IH f s) as (H1 & H2 & H3 & H4)
  end.
  { cbn [setConversation conversation]. rewrite Hconv, updateLast_snoc.
    reflexivity. }
  auto.
Qed.

(** X27.  Sending a chat message, run to its end.  A blank message (white
    space being what [trim] strips), or a message sent while an answer is
    loading, changes nothing.  Otherwise the earlier conversation is kept,
    the user's message is appended, and loading is over at the end.  After
    it comes at most one message of the model, holding the text received
    from the stream; an error is recorded exactly when the key is missing,
    the landmark's name cannot be printed into the system instruction, the
    request is rejected or the stream fails, and then an answer without
    text is removed while a partial answer stays. *)
Theorem X27_sending_a_chat_message (rt : Runtime) (api : Api)
  (landmark : Landmark) (messageText : string) (st : State) :
  (blank messageText || isLoading st = true ->
   sendMessage rt api landmark messageText st = st)
  /\ (blank messageText = false ->
      isLoading st = false ->
      isLoading (sendMessage rt api landmark messageText st) = false
      /\ exists tail,
           conversation (sendMessage rt api landmark messageText st)
           = conversation st ++ mkMessage User messageText :: tail
           /\ (tail = []
               \/ exists t,
                    tail = [mkMessage Model t]
                    /\ (error (sendMessage rt api landmark messageText st)
                        <> None ->
                        t <> ""%string))
           /\ (hasKey api = false
               \/ (exists e, systemInstruction rt landmark = Throw e)
               \/ (exists instruction e,
                     systemInstruction rt landmark = Ok instruction
                     /\ generateContentStream api instruction messageText
                        = inl e) ->
               tail = []
               /\ error (sendMessage rt api landmark messageText st) <> None)
           /\ (forall instruction stream,
                 hasKey api = true ->
                 systemInstruction rt landmark = Ok instruction ->
                 generateContentStream api instruction messageText
                 = inr stream ->
                 (error (sendMessage rt api landmark messageText st) = None
                  <-> failure stream = None)
                 /\ (failure stream = None
                     \/ received stream "" <> ""%string ->
                     tail = [mkMessage Model (received stream "")])
                 /\ (failure stream <> None ->
                     received stream "" = ""%string ->
                     tail = []))).
Proof.
  split.
  - intros H. unfold sendMessage. rewrite H. reflexivity.
  - intros Hblank Hload. unfold sendMessage. rewrite Hblank, Hload.
    cbn [orb]. cbv zeta.
    destruct (hasKey api) eqn:Hkey; cbn [negb].
    + destruct (systemInstruction rt landmark) as [instruction|e0]
        eqn:Hinstr.
      * destruct (generateContentStream api instruction messageText)
          as [e|stream] eqn:Hgen.
        -- cbn [fst snd setIsLoading setConversation setError conversation
                isLoading error].
           split; [reflexivity|]. exists [].
           rewrite dropPlaceholder_snoc. cbn [role isModel andb].
           split; [reflexivity|]. split; [left; reflexivity|].
           split; [intros _; split; [reflexivity|discriminate]|].
           intros i s _ [= <-] Hs. rewrite Hgen in Hs. discriminate Hs.
        -- assert (Hrejected :
                     true = false
                     \/ (exists e, Ok instruction = Throw e :> result string)
                     \/ (exists i e,
                           Ok instruction = Ok i
                           /\ generateContentStream api i messageText = inl e)
                     -> False).
           { intros [H|[[e' H]|(i & e' & [= <-] & H)]];
               [discriminate H|discriminate H|].
             rewrite Hgen in H. discriminate H. }
           match goal with
           | |- context [consume stream ?f ?s] =>
               destruct (consume_spec stream f
                           (conversation st ++ [mkMessage User messageText]) s)
                 as (Hfail & Hconv & _ & Herr); [reflexivity|];
               destruct (consume stream f s) as [after thrown]
           end.
           cbn [fst snd] in *. subst thrown.
           cbn [setIsLoading setConversation setError conversation isLoading
                error] in Herr.
           destruct (failure stream) as [e|] eqn:Hf.
           ++ cbn [fst snd setIsLoading setConversation setError conversation
                   isLoading error].
              split; [reflexivity|].
              rewrite Hconv, dropPlaceholder_snoc.
              cbn [role text isModel andb].
              destruct (received stream "") as [|a r] eqn:Hrec;
                cbn [is_empty_string].
              ** exists []. split; [reflexivity|]. split; [left; reflexivity|].
                 split; [intros _; split; [reflexivity|discriminate]|].
                 intros i s _ [= <-] Hs. rewrite Hgen in Hs.
                 injection Hs as <-. rewrite Hf, Hrec.
                 split; [split; discriminate|].
                 split; [intros [H|H]; [discriminate|contradiction]|].
                 reflexivity.
              ** exists [mkMessage Model (String a r)].
                 rewrite <- app_assoc. split; [reflexivity|].
                 split; [right; eexists; split; [reflexivity|discriminate]|].
                 split; [intros H; destruct (Hrejected H)|].
                 intros i s _ [= <-] Hs. rewrite Hgen in Hs.
                 injection Hs as <-. rewrite Hf, Hrec.
                 split; [split; discriminate|].
                 split; [reflexivity|]. discriminate.
           ++ cbn [setIsLoading conversation isLoading error].
              split; [reflexivity|].
              exists [mkMessage Model (received stream "")].
              rewrite Hconv, <- app_assoc. split; [reflexivity|].
              rewrite Herr.
              split; [right; eexists; split; [reflexivity|]; intros H;
                      contradiction|].
              split; [intros H; destruct (Hrejected H)|].
              intros i s _ [= <-] Hs. rewrite Hgen in Hs.
              injection Hs as <-. rewrite Hf.
              split; [split; reflexivity|].
              split; [reflexivity|]. intros H; contradiction.
      * cbn [fst snd setIsLoading setConversation setError conversation
             isLoading error].
        split; [reflexivity|]. exists [].
        rewrite dropPlaceholder_snoc. cbn [role isModel andb].
        split; [reflexivity|]. split; [left; reflexivity|].
        split; [intros _; split; [reflexivity|discriminate]|].
        intros i s _ [=].
    + cbn [fst snd setIsLoading setConversation setError conversation
           isLoading error].
      split; [reflexivity|]. exists [].
      rewrite dropPlaceholder_snoc. cbn [role isModel andb].
      split; [reflexivity|]. split; [left; reflexivity|].
      split; [intros _; split; [reflexivity|discriminate]|].
      intros i s [=].
Qed.

(** A stream that fails after the chunk "Petra"; and a landmark whose
    name has an own [toString]. *)
Lemma X27_sending_a_chat_message_witness :
  conversation
    (sendMessage Examples.runtime MoreExamples.brokenStream
       Examples.plainLandmark "Where?" MoreExamples.chatting)
  = conversation MoreExamples.chatting
    ++ [mkMessage User "Where?"; mkMessage Model "Petra"]
  /\ isLoading
       (sendMessage Examples.runtime MoreExamples.brokenStream
          Examples.plainLandmark "Where?" MoreExamples.chatting)
     = false
  /\ (error
        (sendMessage Examples.runtime MoreExamples.brokenStream
           Examples.plainLandmark "Where?" MoreExamples.chatting)
      = None -> False)
  /\ conversation
       (sendMessage Examples.runtime MoreExamples.brokenStream
          MoreExamples.unprintable "Where?" MoreExamples.chatting)
     = conversation MoreExamples.chatting ++ [mkMessage User "Where?"].
Proof.
  destruct (proj2 (X27_sending_a_chat_message Examples.runtime
                     MoreExamples.brokenStream Examples.plainLandmark
                     "Where?" MoreExamples.chatting)
              eq_refl eq_refl)
    as (Hload & tail & Hconv & _ & _ & Hstream).
  destruct (Hstream _ _ eq_refl eq_refl eq_refl) as (Herr & Htail & _).
  split; [|split; [|split]].
  - rewrite Hconv, Htail; [reflexivity|right; discriminate].
  - exact Hload.
  - intros H. apply Herr in H. discriminate H.
  - destruct (proj2 (X27_sending_a_chat_message Examples.runtime
                       MoreExamples.brokenStream MoreExamples.unprintable
                       "Where?" MoreExamples.chatting)
                eq_refl eq_refl)
      as (_ & tail' & Hconv' & _ & Hnone & _).
    destruct Hnone as [-> _];
      [right; left; eexists; reflexivity|exact Hconv'].
Defined.
